(** * wandb/data_types.py: Table, PartitionedTable and media binding

    A shallow embedding of the table code of [wandb/data_types.py] and the
    properties of its specification.  Python objects are modelled by the
    closed type [Value]; methods that mutate [self] or log are functions in a
    state-and-exception monad; the descriptor algebra of
    [wandb.sdk.interface._dtypes] and the [Media] base class, which live in
    other modules, are interfaces (type classes). *)

From Stdlib Require Import ZArith String Ascii Bool Arith Lia List.
Import ListNotations.
Local Open Scope string_scope.
Local Open Scope list_scope.

Set Implicit Arguments.
Set Warnings "-register-all".

(** ** Python values *)

(** Dictionary keys and column names: [str] or [int]
    ([Table._assert_valid_columns]). *)
Inductive Key : Type :=
| KStr (s : string)
| KInt (z : Z).

Definition Key_eqb (a b : Key) : bool :=
  match a, b with
  | KStr s, KStr s' => String.eqb s s'
  | KInt z, KInt z' => Z.eqb z z'
  | _, _ => false
  end.

(** A Python [dict]: keys are unique and keep their insertion order. *)
Definition PyDict (V : Type) : Type := list (Key * V).

(** Cells and JSON trees.  [VRich h] is an instance of [WBValue] (a rich
    value) and [VObj h] any other object (a float, an array, ...); both are
    referred to by the object's identity [h]. *)
Inductive Value : Type :=
| VNone
| VBool (b : bool)
| VInt (z : Z)
| VStr (s : string)
| VList (l : list Value)
| VDict (d : list (Key * Value))
| VRich (h : nat)
| VObj (h : nat).

Definition key_value (k : Key) : Value :=
  match k with
  | KStr s => VStr s
  | KInt z => VInt z
  end.

Fixpoint list_eqb {A : Type} (eqb : A -> A -> bool) (l l' : list A) : bool :=
  match l, l' with
  | [], [] => true
  | x :: r, y :: r' => eqb x y && list_eqb eqb r r'
  | _, _ => false
  end.

(** [d[k] = v]: an existing key keeps its place. *)
Fixpoint dict_set {V : Type} (d : PyDict V) (k : Key) (v : V) : PyDict V :=
  match d with
  | [] => [(k, v)]
  | (k', v') :: rest =>
      if Key_eqb k' k then (k', v) :: rest else (k', v') :: dict_set rest k v
  end.

(** [d.get(k)]. *)
Fixpoint dict_get {V : Type} (d : PyDict V) (k : Key) : option V :=
  match d with
  | [] => None
  | (k', v') :: rest => if Key_eqb k' k then Some v' else dict_get rest k
  end.

(** [d.update(u)]. *)
Definition dict_update {V : Type} (d u : PyDict V) : PyDict V :=
  fold_left (fun acc kv => dict_set acc (fst kv) (snd kv)) u d.

(** [l.index(x)]: position of the first element equal to [x]. *)
Fixpoint list_index (x : Key) (l : list Key) : option nat :=
  match l with
  | [] => None
  | y :: r => if Key_eqb y x then Some O else option_map S (list_index x r)
  end.

(** [l[:stop]], with Python's reading of a negative [stop]. *)
Definition py_slice_to {A : Type} (l : list A) (stop : Z) : list A :=
  let n := Z.of_nat (length l) in
  let stop' := if (stop <? 0)%Z then Z.max (stop + n) 0 else Z.min stop n in
  firstn (Z.to_nat stop') l.

(** ["." in s]. *)
Fixpoint contains_period (s : string) : bool :=
  match s with
  | EmptyString => false
  | String c r => Ascii.eqb c "."%char || contains_period r
  end.

(** ** Exceptions, warnings and the monad of effects *)

(** The text of a message is kept as its template with the formatted
    arguments. *)
Inductive Msg : Type :=
| MsgExpectsColumns (n : nat) (cols : list Key)
    (* "This table expects {} columns: {}" *)
| MsgIncompatibleRow (diagnostic : string)
    (* "Data row contained incompatible types:\n{}" *)
| MsgCannotCast (v : Value) (type_of_v wbtype : string)
    (* "Existing data {}, of type {} cannot be cast to {}" *)
| MsgInvalidColumnName (col : string)
    (* "invalid column name: {} - tables added to artifacts must not contain periods." *)
| MsgToJsonAccepts
    (* "to_json accepts wandb_run.Run or wandb_artifact.Artifact" *)
| MsgNonMatchingColumns (cols part_cols : list Key)
    (* "Table parts have non-matching columns. {} != {}" *)
| MsgNotInList (k : Key)
    (* list.index: "... is not in list" *)
| MsgText (s : string).

Inductive Exn : Type :=
| ValueError (m : Msg)
| TypeError (m : Msg)
| IndexError
| KeyError (k : Key)
| AttributeError (attr : string)
| AssertionError (m : string)
| OtherError (m : string).

Inductive Result (A : Type) : Type :=
| Ok (a : A)
| Raise (e : Exn).
Arguments Ok {A} a.
Arguments Raise {A} e.

(** A computation over a mutable state [S] that may raise; the state at the
    point of the raise is kept. *)
Definition M (S A : Type) : Type := S -> Result A * S.

Definition ret {S A : Type} (a : A) : M S A := fun s => (Ok a, s).
Definition raise {S A : Type} (e : Exn) : M S A := fun s => (Raise e, s).
Definition bind {S A B : Type} (m : M S A) (k : A -> M S B) : M S B :=
  fun s => match m s with
           | (Ok a, s') => k a s'
           | (Raise e, s') => (Raise e, s')
           end.
Definition get {S : Type} : M S S := fun s => (Ok s, s).
Definition put {S : Type} (s : S) : M S unit := fun _ => (Ok tt, s).
Definition lift {S A : Type} (r : Result A) : M S A := fun s => (r, s).

Declare Scope py_scope.
Delimit Scope py_scope with py.
Notation "x <- m ;; k" := (bind m (fun x => k))
  (at level 61, m at next level, right associativity) : py_scope.
Notation "m ;;; k" := (bind m (fun _ => k))
  (at level 61, right associativity) : py_scope.
Local Open Scope py_scope.

(** [for x in xs: body x] *)
Fixpoint for_each {S A : Type} (xs : list A) (body : A -> M S unit) : M S unit :=
  match xs with
  | [] => ret tt
  | x :: r => body x ;;; for_each r body
  end.

(** Destinations of a serialization: a run, an artifact, or anything else. *)
Inductive Dest : Type :=
| DRun (run : nat)
| DArtifact (artifact : nat)
| DOther (h : nat).

Inductive Warning : Type :=
| WarnTruncating (max_rows : Z).
    (* "Truncating wandb.Table object to %i rows." *)

(** What a call does besides returning: warnings logged and calls made to
    the collaborators, in order. *)
Inductive Event : Type :=
| EvWarning (w : Warning)
| EvMediaToJson (d : Dest)
| EvValueToJson (h : nat) (artifact : nat)
| EvTypeToJson (artifact : nat)
| EvGenerateId (n : nat)
| EvJsonDump (path : string) (payload : Value)
| EvSetFile (path : string)
| EvMediaBind (run : nat) (key : string) (step : Z).

Record World : Type := mkWorld {
  trace : list Event;   (* oldest first *)
  ids : nat             (* identifiers handed out by util.generate_id *)
}.

(** A computation that only logs and may raise: its result and the events
    it adds, the events up to the raise when it raises. *)
Definition W (A : Type) : Type := (Result A * list Event)%type.

Definition ret_w {A : Type} (a : A) : W A := (Ok a, []).
Definition raise_w {A : Type} (e : Exn) : W A := (Raise e, []).
Definition lift_w {A : Type} (r : Result A) : W A := (r, []).
Definition emit (e : Event) : W unit := (Ok tt, [e]).
Definition bind_w {A B : Type} (m : W A) (k : A -> W B) : W B :=
  match m with
  | (Ok a, evs) => let (r, evs') := k a in (r, evs ++ evs')
  | (Raise e, evs) => (Raise e, evs)
  end.

Notation "x <~ m ;; k" := (bind_w m (fun x => k))
  (at level 61, m at next level, right associativity) : py_scope.
Notation "m ;;~ k" := (bind_w m (fun _ => k))
  (at level 61, right associativity) : py_scope.

Fixpoint for_each_w {A : Type} (xs : list A) (body : A -> W unit) : W unit :=
  match xs with
  | [] => ret_w tt
  | x :: r => body x ;;~ for_each_w r body
  end.

Fixpoint map_w {A B : Type} (f : A -> W B) (xs : list A) : W (list B) :=
  match xs with
  | [] => ret_w []
  | x :: r => y <~ f x ;; ys <~ map_w f r ;; ret_w (y :: ys)
  end.

(** Running a logging computation inside a call that also has an object
    [S] to mutate. *)
Definition in_world {S A : Type} (m : W A) : M (S * World) A :=
  fun sw => (fst m, (fst sw, mkWorld (trace (snd sw) ++ snd m) (ids (snd sw)))).

(** [self], and an update of it. *)
Definition self_get {S : Type} : M (S * World) S := fun sw => (Ok (fst sw), sw).
Definition self_put {S : Type} (s : S) : M (S * World) unit :=
  fun sw => (Ok tt, (s, snd sw)).

(** ** Collaborators defined outside this file *)

(** The descriptor algebra of [wandb.sdk.interface._dtypes].  A descriptor is
    immutable: [assign] returns a descriptor and leaves its receiver as it
    was, so the methods are functions. *)
Class Dtypes (WBType : Type) : Type := {
  (* isinstance(t, _dtypes.InvalidType) *)
  isInvalid : WBType -> bool;
  (* t.assign(py_obj) *)
  assign : WBType -> Value -> WBType;
  (* t.explain(py_obj) *)
  explain : WBType -> Value -> string;
  (* t != t' *)
  type_ne : WBType -> WBType -> bool;
  (* str(t), as formatted into a message *)
  type_str : WBType -> string;
  (* _dtypes.UnknownType() *)
  UnknownType : WBType;
  (* _dtypes.OptionalType(t) *)
  OptionalType : WBType -> WBType;
  (* _dtypes.DictType({}) *)
  EmptyDictType : WBType;
  (* the descriptor t after t.params["type_map"][k] = t' *)
  type_map_set : WBType -> Key -> WBType -> Result WBType;
  (* _dtypes.TypeRegistry.type_of(py_obj) *)
  type_of : Value -> WBType;
  (* _dtypes.TypeRegistry.type_from_dtype(dtype) *)
  type_from_dtype : WBType + Value -> Result WBType;
  (* t.to_json(artifact) *)
  type_to_json : WBType -> nat -> Result Value;
  (* _dtypes.TypeRegistry.type_from_dict(json, artifact) *)
  type_from_dict : Value -> nat -> Result WBType
}.

Inductive MediaClass : Type := TableClass | GraphClass.

(** The [Media] base class of [wandb.sdk.data_types]: the state it keeps in
    an object ([_path], [_run], ...) and the methods [Table] and [Graph]
    inherit or call through [super]. *)
Class MediaBase (Media : Type) : Type := {
  (* Media.__init__ *)
  Media_init : Media;
  (* Media.to_json(self, run_or_artifact) *)
  Media_to_json : MediaClass -> Media -> Dest -> Result (PyDict Value);
  (* self.is_bound() *)
  is_bound : Media -> bool;
  (* self._set_file(path, is_tmp=True, extension=ext) *)
  set_file : Media -> string -> string -> Result Media;
  (* Media.bind_to_run(self, run, key, step) *)
  Media_bind_to_run : MediaClass -> Media -> nat -> string -> Z -> Result Media
}.

(** The rest: cells that are rich values, [wandb.util], the source
    artifact. *)
Class Collaborators : Type := {
  (* a != b on two cells, as the test of an [if]; the [__ne__] of a rich
     value (Image, Classes) reads attributes of the other operand and raises
     AttributeError when it has none *)
  value_ne : Value -> Value -> Result bool;
  (* val.to_json(artifact) for a WBValue *)
  rich_to_json : nat -> nat -> Result Value;
  (* WBValue.init_from_json(json, source_artifact); None when the type the
     dictionary names is not one of the rich values *)
  init_from_json : PyDict Value -> nat -> Result (option nat);
  (* util.json_friendly(val)[0] *)
  json_friendly : Value -> Value;
  (* util.generate_id() *)
  generate_id : nat -> string;
  (* os.path.join(MEDIA_TMP.name, name) *)
  media_tmp_path : string -> string;
  (* for an object that is no builtin value: its items, list(obj), when it is
     a Sequence (a tuple, bytes) and obj.tolist() when it is a numpy array of
     one dimension or more; None for any other object *)
  obj_items : nat -> option (list Value);
  (* how deep Sequences and arrays are nested in such an object: 0 when it
     is none, one more than its deepest item otherwise *)
  obj_depth : nat -> nat
}.

(** ** Table *)

Inductive OneOrMany (A : Type) : Type :=
| One (a : A)
| Many (l : list A).
Arguments One {A} a.
Arguments Many {A} l.

(** [zip(a, b, c)] *)
Fixpoint zip3 {A B C : Type} (a : list A) (b : list B) (c : list C)
  : list (A * B * C) :=
  match a, b, c with
  | x :: a', y :: b', z :: c' => (x, y, z) :: zip3 a' b' c'
  | _, _, _ => []
  end.

(** [{col_key: data[ndx] for ndx, col_key in enumerate(columns)}], from
    position [ndx] on. *)
Fixpoint row_dict_from (ndx : nat) (cols : list Key) (data : list Value)
    (acc : PyDict Value) : Result (PyDict Value) :=
  match cols with
  | [] => Ok acc
  | col_key :: rest =>
      match nth_error data ndx with
      | None => Raise IndexError
      | Some v => row_dict_from (S ndx) rest data (dict_set acc col_key v)
      end
  end.

Definition row_dict (cols : list Key) (data : list Value) : Result (PyDict Value) :=
  row_dict_from 0 cols data [].

(** The dictionary [_to_table_json] returns. *)
Record TableJson : Type := mkTableJson {
  tj_columns : list Key;
  tj_data : list (list Value)
}.

Definition table_json_value (tj : TableJson) : Value :=
  VDict [(KStr "columns", VList (map key_value (tj_columns tj)));
         (KStr "data", VList (map VList (tj_data tj)))].

Section Payloads.
Context `{CO : Collaborators}.

(** How deep Sequences and arrays that are no lists are nested in a
    value. *)
Fixpoint nesting (payload : Value) : nat :=
  match payload with
  | VDict d =>
      (fix deepest (d : list (Key * Value)) : nat :=
         match d with
         | [] => 0
         | (_, val) :: rest => Nat.max (nesting val) (deepest rest)
         end) d
  | VList l =>
      (fix deepest (l : list Value) : nat :=
         match l with
         | [] => 0
         | v :: rest => Nat.max (nesting v) (deepest rest)
         end) l
  | VObj h => obj_depth h
  | _ => 0
  end.

(** The body of [numpy_arrays_to_lists] (lines 1985-1998): a dictionary is
    rebuilt key by key; a Sequence that is no string and a numpy array are
    rebuilt as the list of their converted items, whether they are lists or
    objects outside [Value] (a tuple, an array), whose items [obj_items]
    gives; anything else is returned as it is.  [convert_items] is the
    conversion of the items of such an object. *)
Definition lists_with (convert_items : list Value -> list Value)
  : Value -> Value :=
  fix convert (payload : Value) : Value :=
    match payload with
    | VDict d =>
        VDict ((fix items (d : list (Key * Value)) (res : PyDict Value)
                  : PyDict Value :=
                  match d with
                  | [] => res
                  | (key, val) :: rest =>
                      items rest (dict_set res key (convert val))
                  end) d [])
    | VList l => VList (map convert l)
    | VObj h =>
        match obj_items h with
        | Some vs => VList (convert_items vs)
        | None => payload
        end
    | _ => payload
    end.

(** The recursion of [numpy_arrays_to_lists] through the items of objects,
    [depth] objects deep: below that the items of an object are listed as
    they are. *)
Fixpoint lists_to_depth (depth : nat) : Value -> Value :=
  lists_with (match depth with
              | S depth' => map (lists_to_depth depth')
              | O => fun vs => vs
              end).

(** [numpy_arrays_to_lists]: the conversion as deep as the objects of the
    payload go. *)
Definition numpy_arrays_to_lists (payload : Value) : Value :=
  lists_to_depth (nesting payload) payload.

End Payloads.

Definition MAX_ROWS : Z := 10000.
Definition MAX_ARTIFACT_ROWS : Z := 200000.
Definition artifact_type : string := "table".

Section TableModel.
Context {WBType Media : Type}.
Context `{DT : Dtypes WBType} `{MB : MediaBase Media} `{CO : Collaborators}.

Record Table : Type := mkTable {
  columns : list Key;
  data : list (list Value);
  _column_types : WBType;
  media : Media
}.

Definition set_column_types (self : Table) (t : WBType) : Table :=
  mkTable (columns self) (data self) t (media self).

Definition set_media (self : Table) (m : Media) : Table :=
  mkTable (columns self) (data self) (_column_types self) m.

(** The loop of [Table.cast] over the existing rows (lines 211-221). *)
Fixpoint cast_rows (col_ndx : nat) (wbtype : WBType) (rows : list (list Value))
  : Result WBType :=
  match rows with
  | [] => Ok wbtype
  | row :: rest =>
      match nth_error row col_ndx with
      | None => Raise IndexError
      | Some v =>
          let result_type := assign wbtype v in
          if isInvalid result_type
          then Raise (TypeError
                        (MsgCannotCast v (type_str (type_of v)) (type_str wbtype)))
          else cast_rows col_ndx result_type rest
      end
  end.

(** [Table.cast] (lines 206-223). *)
Definition cast (col_name : Key) (dtype : WBType + Value) (optional : bool)
  : M Table WBType :=
  wbtype <- lift (type_from_dtype dtype) ;;
  let wbtype := if optional then OptionalType wbtype else wbtype in
  self <- get ;;
  match list_index col_name (columns self) with
  | None => raise (ValueError (MsgNotInList col_name))
  | Some col_ndx =>
      wbtype <- lift (cast_rows col_ndx wbtype (data self)) ;;
      types <- lift (type_map_set (_column_types self) col_name wbtype) ;;
      put (set_column_types self types) ;;;
      ret wbtype
  end.

(** The body of the loop of [_make_column_types] (line 204). *)
Definition cast_column (c : Key * bool * (WBType + Value)) : M Table unit :=
  let '(col_name, opt, dt) := c in
  cast col_name dt opt ;;; ret tt.

(** [Table._make_column_types] (lines 192-204). *)
Definition _make_column_types (dtype : option (OneOrMany (WBType + Value)))
    (optional : OneOrMany bool) : M Table unit :=
  self <- get ;;
  let n := length (columns self) in
  let dtype := match dtype with
               | None => One (inl UnknownType)
               | Some d => d
               end in
  let optional := match optional with
                  | One o => repeat o n
                  | Many l => l
                  end in
  let dtype := match dtype with
               | One d => repeat d n
               | Many l => l
               end in
  put (set_column_types self EmptyDictType) ;;;
  for_each (zip3 (columns self) optional dtype) cast_column.

(** [Table._validate_data] (lines 259-271). *)
Definition _validate_data (row : list Value) : M Table unit :=
  self <- get ;;
  incoming_data_dict <- lift (row_dict (columns self) row) ;;
  let current_type := _column_types self in
  let result_type := assign current_type (VDict incoming_data_dict) in
  if isInvalid result_type
  then raise (TypeError
                (MsgIncompatibleRow
                   (explain current_type (VDict incoming_data_dict))))
  else put (set_column_types self result_type).

(** [Table.add_data] (lines 248-257). *)
Definition add_data (row : list Value) : M Table unit :=
  self <- get ;;
  if negb (length row =? length (columns self))%nat
  then raise (ValueError
                (MsgExpectsColumns (length (columns self)) (columns self)))
  else
    _validate_data row ;;;
    self <- get ;;
    put (mkTable (columns self) (data self ++ [row])
                 (_column_types self) (media self)).

(** [Table._init_from_list] (lines 162-169), on the object [Media.__init__]
    has set up; columns are keys, so [_assert_valid_columns] holds. *)
Definition _init_from_list (rows : list (list Value)) (cols : list Key)
    (optional : OneOrMany bool) (dtype : option (OneOrMany (WBType + Value)))
  : M Table unit :=
  self <- get ;;
  put (mkTable cols [] (_column_types self) (media self)) ;;;
  _make_column_types dtype optional ;;;
  for_each rows add_data.

(** [Table(columns=cols, data=rows)], with the defaults [dtype=None] and
    [optional=True]. *)
Definition Table_new (cols : list Key) (rows : list (list Value)) : Result Table :=
  match _init_from_list rows cols (One true) None
          (mkTable [] [] EmptyDictType Media_init) with
  | (Ok _, self) => Ok self
  | (Raise e, _) => Raise e
  end.

(** The inner loop of [Table.__eq__] (lines 238-240): [Some b] is [return b], [None] falls out of
    the loop; a comparison of two cells that raises ends the call. *)
Fixpoint eq_cols (row other_row : list Value) (col_ndxs : list nat)
  : Result (option bool) :=
  match col_ndxs with
  | [] => Ok None
  | col_ndx :: rest =>
      match nth_error row col_ndx, nth_error other_row col_ndx with
      | Some a, Some b =>
          match value_ne a b with
          | Raise e => Raise e
          | Ok true => Ok (Some false)
          | Ok false => eq_cols row other_row rest
          end
      | _, _ => Raise IndexError
      end
  end.

(** The outer loop of [Table.__eq__] (lines 237-242). *)
Fixpoint eq_rows (rows other_rows : list (list Value)) (row_ndxs : list nat)
  : Result bool :=
  match row_ndxs with
  | [] => Ok true
  | row_ndx :: rest =>
      match nth_error rows row_ndx, nth_error other_rows row_ndx with
      | Some row, Some other_row =>
          match eq_cols row other_row (seq 0 (length row)) with
          | Ok None => eq_rows rows other_rows rest
          | Ok (Some b) => Ok b
          | Raise e => Raise e
          end
      | _, _ => Raise IndexError
      end
  end.

(** [Table.__eq__(self, other)] (lines 228-242) for [other] a Table; it
    raises when a row of [other] is shorter than the row of [self] or when
    the comparison of two cells does. *)
Definition Table_eq (self other : Table) : Result bool :=
  if negb (length (data self) =? length (data other))%nat
     || negb (list_eqb Key_eqb (columns self) (columns other))
     || type_ne (_column_types self) (_column_types other)
  then Ok false
  else eq_rows (data self) (data other) (seq 0 (length (data self))).

(** [Table._to_table_json] (lines 273-279). *)
Definition _to_table_json (self : Table) (max_rows : option Z) : W TableJson :=
  let max_rows := match max_rows with
                  | None => MAX_ROWS
                  | Some m => m
                  end in
  (if (Z.of_nat (length (data self)) >? max_rows)%Z
   then emit (EvWarning (WarnTruncating max_rows))
   else ret_w tt) ;;~
  ret_w (mkTableJson (columns self) (py_slice_to (data self) max_rows)).

(** [json_helper] of [to_json] (lines 341-350), closed over [artifact]. *)
Fixpoint json_helper (artifact : nat) (val : Value) : W Value :=
  match val with
  | VRich h =>
      emit (EvValueToJson h artifact) ;;~
      lift_w (rich_to_json h artifact)
  | VDict d =>
      res <~ (fix items (d : list (Key * Value)) (res : PyDict Value)
                : W (PyDict Value) :=
                match d with
                | [] => ret_w res
                | (key, v) :: rest =>
                    j <~ json_helper artifact v ;;
                    items rest (dict_set res key j)
                end) d [] ;;
      ret_w (VDict res)
  | _ => ret_w (json_friendly val)
  end.

(** The body of the loop over the column names (lines 330-336). *)
Definition check_column (column : Key) : W unit :=
  match column with
  | KStr s =>
      if contains_period s
      then raise_w (ValueError (MsgInvalidColumnName s))
      else ret_w tt
  | KInt _ => ret_w tt
  end.

Definition len_value {A : Type} (l : list A) : Value :=
  VInt (Z.of_nat (length l)).

(** [Table.to_json] (lines 316-370). *)
Definition to_json (self : Table) (run_or_artifact : Dest) : W (PyDict Value) :=
  emit (EvMediaToJson run_or_artifact) ;;~
  json_dict <~ lift_w (Media_to_json TableClass (media self) run_or_artifact) ;;
  match run_or_artifact with
  | DRun _ =>
      ret_w (dict_update json_dict
               [(KStr "_type", VStr "table-file");
                (KStr "ncols", len_value (columns self));
                (KStr "nrows", len_value (data self))])
  | DArtifact artifact =>
      for_each_w (columns self) check_column ;;~
      tj <~ _to_table_json self (Some MAX_ARTIFACT_ROWS) ;;
      let rows := tj_data tj in
      mapped_data <~ map_w (map_w (json_helper artifact)) rows ;;
      emit (EvTypeToJson artifact) ;;~
      column_types <~ lift_w (type_to_json (_column_types self) artifact) ;;
      ret_w (dict_update json_dict
               [(KStr "_type", VStr artifact_type);
                (KStr "columns", VList (map key_value (columns self)));
                (KStr "data", VList (map VList mapped_data));
                (KStr "ncols", len_value (columns self));
                (KStr "nrows", len_value mapped_data);
                (KStr "column_types", column_types)])
  | DOther _ => raise_w (ValueError MsgToJsonAccepts)
  end.

(** [for x in v] *)
Definition iter_value (v : Value) : Result (list Value) :=
  match v with
  | VList l => Ok l
  | VDict d => Ok (map (fun kv => key_value (fst kv)) d)
  | VStr s => Ok (map (fun c => VStr (String c EmptyString)) (list_ascii_of_string s))
  | _ => Raise (TypeError (MsgText "object is not iterable"))
  end.

(** The body of the inner loop of [Table.from_json] (lines 299-304). *)
Definition from_json_cell (source_artifact : nat) (item : Value) : Result Value :=
  match item with
  | VDict d =>
      match init_from_json d source_artifact with
      | Ok (Some obj) => Ok (VRich obj)
      | Ok None => Ok item
      | Raise e => Raise e
      end
  | _ => Ok item
  end.

Fixpoint map_r {A B : Type} (f : A -> Result B) (xs : list A) : Result (list B) :=
  match xs with
  | [] => Ok []
  | x :: r =>
      match f x with
      | Raise e => Raise e
      | Ok y => match map_r f r with
                | Raise e => Raise e
                | Ok ys => Ok (y :: ys)
                end
      end
  end.

Definition from_json_row (source_artifact : nat) (row : Value)
  : Result (list Value) :=
  match iter_value row with
  | Raise e => Raise e
  | Ok items => map_r (from_json_cell source_artifact) items
  end.

(** The columns argument as [_assert_valid_columns] accepts it. *)
Definition valid_column (v : Value) : Result Key :=
  match v with
  | VStr s => Ok (KStr s)
  | VInt z => Ok (KInt z)
  | _ => Raise (AssertionError "columns argument expects list of strings or ints")
  end.

Definition valid_columns (v : Value) : Result (list Key) :=
  match v with
  | VList l => map_r valid_column l
  | _ => Raise (AssertionError "columns argument expects a `list` object")
  end.

(** [Table.__init__], lines 128-129: the columns of a table that is given
    none. *)
Definition default_columns : list Key :=
  [KStr "Input"; KStr "Output"; KStr "Expected"].

(** The [columns] argument of the constructor, of any value: [None] stands
    for the default columns, and [_assert_valid_columns] (lines 153-160)
    checks anything else. *)
Definition columns_arg (v : Value) : Result (list Key) :=
  match v with
  | VNone => Ok default_columns
  | _ => valid_columns v
  end.

Definition getitem (d : PyDict Value) (k : string) : Result Value :=
  match dict_get d (KStr k) with
  | Some v => Ok v
  | None => Raise (KeyError (KStr k))
  end.

(** [Table.from_json] (lines 293-314). *)
Definition from_json (json_obj : PyDict Value) (source_artifact : nat)
  : Result Table :=
  match getitem json_obj "data" with
  | Raise e => Raise e
  | Ok rows_v =>
  match iter_value rows_v with
  | Raise e => Raise e
  | Ok rows =>
  match map_r (from_json_row source_artifact) rows with
  | Raise e => Raise e
  | Ok rows' =>
  match getitem json_obj "columns" with
  | Raise e => Raise e
  | Ok cols_v =>
  match columns_arg cols_v with
  | Raise e => Raise e
  | Ok cols =>
  match Table_new cols rows' with
  | Raise e => Raise e
  | Ok new_obj =>
      match dict_get json_obj (KStr "column_types") with
      | None | Some VNone => Ok new_obj
      | Some column_types =>
          match type_from_dict column_types source_artifact with
          | Raise e => Raise e
          | Ok t => Ok (set_column_types new_obj t)
          end
      end
  end end end end end end.

(** [util.generate_id()] *)
Definition fresh_id {Self : Type} : M (Self * World) string :=
  fun sw => (Ok (generate_id (ids (snd sw))),
             (fst sw, mkWorld (trace (snd sw) ++ [EvGenerateId (ids (snd sw))])
                              (S (ids (snd sw))))).

(** [Table.bind_to_run] (lines 281-287). *)
Definition Table_bind_to_run (run : nat) (key : string) (step : Z)
  : M (Table * World) unit :=
  self <- self_get ;;
  tj <- in_world (_to_table_json self None) ;;
  id <- fresh_id ;;
  let tmp_path := media_tmp_path (id ++ ".table.json")%string in
  let payload := numpy_arrays_to_lists (table_json_value tj) in
  in_world (emit (EvJsonDump tmp_path payload)) ;;;
  in_world (emit (EvSetFile tmp_path)) ;;;
  m <- lift (set_file (media self) tmp_path ".table.json") ;;
  self_put (set_media self m) ;;;
  in_world (emit (EvMediaBind run key step)) ;;;
  m' <- lift (Media_bind_to_run TableClass m run key step) ;;
  self_put (set_media self m').

(** [Graph]; a node or an edge is kept as what its [to_json()] returns. *)
Record Graph : Type := mkGraph {
  format : string;
  nodes : list Value;
  edges : list Value;
  graph_media : Media
}.

(** [Graph._to_graph_json] (lines 1603-1609). *)
Definition _to_graph_json (self : Graph) : Value :=
  VDict [(KStr "format", VStr (format self));
         (KStr "nodes", VList (nodes self));
         (KStr "edges", VList (edges self))].

Definition set_graph_media (self : Graph) (m : Media) : Graph :=
  mkGraph (format self) (nodes self) (edges self) m.

(** [Graph.bind_to_run] (lines 1611-1619). *)
Definition Graph_bind_to_run (run : nat) (key : string) (step : Z)
  : M (Graph * World) unit :=
  self <- self_get ;;
  let payload := _to_graph_json self in
  id <- fresh_id ;;
  let tmp_path := media_tmp_path (id ++ ".graph.json")%string in
  let payload := numpy_arrays_to_lists payload in
  in_world (emit (EvJsonDump tmp_path payload)) ;;;
  in_world (emit (EvSetFile tmp_path)) ;;;
  m <- lift (set_file (graph_media self) tmp_path ".graph.json") ;;
  self_put (set_graph_media self m) ;;;
  if is_bound m
  then ret tt
  else
    in_world (emit (EvMediaBind run key step)) ;;;
    m' <- lift (Media_bind_to_run GraphClass m run key step) ;;
    self_put (set_graph_media self m').
End TableModel.

(** ** PartitionedTable *)

Section Partitioned.
Context {WBType Media : Type}.

(** [source_artifact.get(path)]: the table stored at [path], [None] when
    there is none. *)
Variable artifact_get : nat -> string -> option (@Table WBType Media).

(** [_PartitionTablePartEntry] (lines 385-400); [entry_path] is
    [entry.path]. *)
Record PartEntry : Type := mkPartEntry {
  entry_path : string;
  source_artifact : nat;
  _part : option (@Table WBType Media)
}.

(** [get_part]: the entry afterwards and the part returned. *)
Definition get_part (self : PartEntry)
  : PartEntry * option (@Table WBType Media) :=
  match _part self with
  | None =>
      let part := artifact_get (source_artifact self) (entry_path self) in
      (mkPartEntry (entry_path self) (source_artifact self) part, part)
  | Some part => (self, Some part)
  end.

Definition free (self : PartEntry) : PartEntry :=
  mkPartEntry (entry_path self) (source_artifact self) None.

Record PartitionedTable : Type := mkPartitionedTable {
  parts_path : string;
  _loaded_part_entries : PyDict PartEntry
}.

Definition _add_part_entry (self : PartitionedTable) (path : string)
    (artifact : nat) : PartitionedTable :=
  mkPartitionedTable (parts_path self)
    (dict_set (_loaded_part_entries self) (KStr path)
              (mkPartEntry path artifact None)).

(** [from_json], given the paths of the entries the manifest lists under
    [parts_path]. *)
Definition PartitionedTable_from_json (path : string) (entries : list string)
    (artifact : nat) : PartitionedTable :=
  fold_left (fun instance entry => _add_part_entry instance entry artifact)
            entries (mkPartitionedTable path []).

(** The generator [iterrows] returns, between two of its steps. *)
Inductive Ctrl : Type :=
| AtLoopHead (pending : list Key)
    (* about to take the next key of [self._loaded_part_entries] *)
| InPart (entry_path : Key) (rows : list (list Value)) (pending : list Key)
    (* inside [for _, row in part.iterrows()], [rows] still to come *)
| Finished
| Failed (e : Exn).

Record Gen : Type := mkGen {
  gen_columns : option (list Key);
  gen_ndx : Z;
  gen_ctrl : Ctrl
}.

Inductive PEvent : Type :=
| PLoad (path : Key)                    (* a part is fetched from the artifact *)
| PYield (ndx : Z) (row : list Value)
| PFree (path : Key)
| PRaise (e : Exn)
| PStop.

(** [iterrows()]: nothing runs until the first [next]. *)
Definition iterrows (self : PartitionedTable) : Gen :=
  mkGen None 0 (AtLoopHead (map fst (_loaded_part_entries self))).

Definition fail (self : PartitionedTable) (g : Gen) (e : Exn)
  : list PEvent * (PartitionedTable * Gen) :=
  ([PRaise e], (self, mkGen (gen_columns g) (gen_ndx g) (Failed e))).

(** One step of the generator of [PartitionedTable.iterrows] (lines
    444-460) on the object it iterates: taking the next part (loading it when
    it is not in memory, then the test of the columns), yielding a row, or
    freeing the part whose rows are exhausted. *)
Definition step (self : PartitionedTable) (g : Gen)
  : option (list PEvent * (PartitionedTable * Gen)) :=
  match gen_ctrl g with
  | Finished | Failed _ => None
  | AtLoopHead [] =>
      Some ([PStop], (self, mkGen (gen_columns g) (gen_ndx g) Finished))
  | AtLoopHead (entry_path :: pending) =>
      match dict_get (_loaded_part_entries self) entry_path with
      | None => Some (fail self g (KeyError entry_path))
      | Some entry =>
          let (entry', part) := get_part entry in
          let loads := match _part entry with
                       | None => [PLoad entry_path]
                       | Some _ => []
                       end in
          let self' := mkPartitionedTable (parts_path self)
                         (dict_set (_loaded_part_entries self) entry_path entry') in
          match part with
          | None =>
              Some (loads ++ [PRaise (AttributeError "columns")],
                    (self', mkGen (gen_columns g) (gen_ndx g)
                                  (Failed (AttributeError "columns"))))
          | Some part =>
              match gen_columns g with
              | None =>
                  Some (loads,
                        (self', mkGen (Some (columns part)) (gen_ndx g)
                                      (InPart entry_path (data part) pending)))
              | Some cols =>
                  if negb (list_eqb Key_eqb cols (columns part))
                  then
                    let e := ValueError
                               (MsgNonMatchingColumns cols (columns part)) in
                    Some (loads ++ [PRaise e],
                          (self', mkGen (gen_columns g) (gen_ndx g) (Failed e)))
                  else
                    Some (loads,
                          (self', mkGen (gen_columns g) (gen_ndx g)
                                        (InPart entry_path (data part) pending)))
              end
          end
      end
  | InPart entry_path (row :: rows) pending =>
      Some ([PYield (gen_ndx g) row],
            (self, mkGen (gen_columns g) (gen_ndx g + 1)
                         (InPart entry_path rows pending)))
  | InPart entry_path [] pending =>
      match dict_get (_loaded_part_entries self) entry_path with
      | None => Some (fail self g (KeyError entry_path))
      | Some entry =>
          Some ([PFree entry_path],
                (mkPartitionedTable (parts_path self)
                   (dict_set (_loaded_part_entries self) entry_path (free entry)),
                 mkGen (gen_columns g) (gen_ndx g) (AtLoopHead pending)))
      end
  end.

(** At most [fuel] steps: the events so far and where the run stands. *)
Fixpoint run (fuel : nat) (self : PartitionedTable) (g : Gen)
  : list PEvent * (PartitionedTable * Gen) :=
  match fuel with
  | O => ([], (self, g))
  | S fuel' =>
      match step self g with
      | None => ([], (self, g))
      | Some (evs, (self', g')) =>
          let (evs', final) := run fuel' self' g' in
          (evs ++ evs', final)
      end
  end.

(** The parts that are in memory. *)
Definition loaded (self : PartitionedTable) : list Key :=
  map fst (filter (fun kv => match _part (snd kv) with
                             | Some _ => true
                             | None => false
                             end)
                  (_loaded_part_entries self)).

(** The local variable [part] of the generator, as the key of the entry
    whose table it refers to, after the step from [g]: line 447 assigns it
    what [get_part()] returned, once it has returned; no other line does, so
    after [free()] (line 460) it still refers to the table that was walked.
    When the generator stops, its frame is released. *)
Definition frame_part (self : PartitionedTable) (g : Gen) (part : option Key)
  : option Key :=
  match gen_ctrl g with
  | AtLoopHead [] => None
  | AtLoopHead (entry_path :: _) =>
      match dict_get (_loaded_part_entries self) entry_path with
      | None => part
      | Some entry =>
          match snd (get_part entry) with
          | Some _ => Some entry_path
          | None => None
          end
      end
  | _ => part
  end.

(** The parts whose rows are in memory: those the entries hold and the one
    the generator's [part] refers to. *)
Definition in_memory (self : PartitionedTable) (part : option Key) : list Key :=
  match part with
  | None => loaded self
  | Some k =>
      if existsb (Key_eqb k) (loaded self) then loaded self else k :: loaded self
  end.

(** What is in memory at each step of a run: first while the step runs,
    when [get_part()] has returned and [part] is not assigned yet, then after
    the step. *)
Fixpoint memory_along (fuel : nat) (self : PartitionedTable) (g : Gen)
    (part : option Key) : list (list Key * list Key) :=
  match fuel with
  | O => []
  | S fuel' =>
      match step self g with
      | None => []
      | Some (_, (self', g')) =>
          let part' := frame_part self g part in
          (in_memory self' part, in_memory self' part')
          :: memory_along fuel' self' g' part'
      end
  end.

Definition yields (evs : list PEvent) : list (Z * list Value) :=
  flat_map (fun e => match e with
                     | PYield ndx row => [(ndx, row)]
                     | _ => []
                     end) evs.

(** [(start, r0), (start + 1, r1), ...] *)
Fixpoint enumerate_from (start : Z) (rows : list (list Value))
  : list (Z * list Value) :=
  match rows with
  | [] => []
  | row :: rest => (start, row) :: enumerate_from (start + 1) rest
  end.
End Partitioned.

(** ** A model of the collaborators

    The theorems below hold for every implementation of the interfaces
    above; the instances here let them be run on concrete tables. *)

Module SpecModel.

(** Structural equality of two values. *)
Fixpoint Value_eqb (a b : Value) : bool :=
  match a, b with
  | VNone, VNone => true
  | VBool x, VBool y => Bool.eqb x y
  | VInt x, VInt y => Z.eqb x y
  | VStr x, VStr y => String.eqb x y
  | VList l, VList l' =>
      (fix all2 (l l' : list Value) : bool :=
         match l, l' with
         | [], [] => true
         | x :: r, y :: r' => Value_eqb x y && all2 r r'
         | _, _ => false
         end) l l'
  | VDict d, VDict d' =>
      (fix all2 (d d' : list (Key * Value)) : bool :=
         match d, d' with
         | [], [] => true
         | (k, x) :: r, (k', y) :: r' => Key_eqb k k' && Value_eqb x y && all2 r r'
         | _, _ => false
         end) d d'
  | VRich h, VRich h' => Nat.eqb h h'
  | VObj h, VObj h' => Nat.eqb h h'
  | _, _ => false
  end.

Inductive Prim : Type := PNumber | PString | PBoolean | PNone | PBinary.

Definition Prim_eqb (a b : Prim) : bool :=
  match a, b with
  | PNumber, PNumber | PString, PString | PBoolean, PBoolean
  | PNone, PNone | PBinary, PBinary => true
  | _, _ => false
  end.

(** Modelled from the spec: the TypeDescriptor variants of section 3 (the
    module [wandb.sdk.interface._dtypes] is not part of this file's
    source).  [Custom] descriptors and their registry are left out: a value
    only they would describe is not typed. *)
Inductive Ty : Type :=
| TUnknown
| TInvalid
| TConst (v : Value)
| TPrimitive (k : Prim)
| TOptional (inner : Ty)
| TUnion (members : list Ty)
| TRecord (fields : list (Key * Ty)).

Fixpoint Ty_eqb (a b : Ty) : bool :=
  match a, b with
  | TUnknown, TUnknown => true
  | TInvalid, TInvalid => true
  | TConst v, TConst v' => Value_eqb v v'
  | TPrimitive k, TPrimitive k' => Prim_eqb k k'
  | TOptional t, TOptional t' => Ty_eqb t t'
  | TUnion l, TUnion l' =>
      (fix all2 (l l' : list Ty) : bool :=
         match l, l' with
         | [], [] => true
         | x :: r, y :: r' => Ty_eqb x y && all2 r r'
         | _, _ => false
         end) l l'
  | TRecord f, TRecord f' =>
      (fix all2 (f f' : list (Key * Ty)) : bool :=
         match f, f' with
         | [], [] => true
         | (k, x) :: r, (k', y) :: r' => Key_eqb k k' && Ty_eqb x y && all2 r r'
         | _, _ => false
         end) f f'
  | _, _ => false
  end.

Definition is_invalid (t : Ty) : bool :=
  match t with
  | TInvalid => true
  | _ => false
  end.

(** Modelled from the spec: [typeOf], section 9 ("a closed tagged-union
    Value type with a typeOf pure function"). *)
Fixpoint typeOf (v : Value) : Ty :=
  match v with
  | VNone => TPrimitive PNone
  | VBool _ => TPrimitive PBoolean
  | VInt _ => TPrimitive PNumber
  | VStr _ => TPrimitive PString
  | VDict d =>
      TRecord ((fix fields (d : list (Key * Value)) : list (Key * Ty) :=
                  match d with
                  | [] => []
                  | (k, x) :: r => (k, typeOf x) :: fields r
                  end) d)
  | VList _ | VRich _ | VObj _ => TInvalid
  end.

Definition optional_of (t : Ty) : Ty :=
  match t with
  | TOptional _ => t
  | _ => TOptional t
  end.

(** Modelled from the spec: the narrowing [assign(T, v)] of section 3,
    steps 1 to 6; [Invalid] stays [Invalid]. *)
Fixpoint spec_assign (t : Ty) (v : Value) : Ty :=
  match t with
  | TUnknown => typeOf v
  | TInvalid => TInvalid
  | TPrimitive k =>
      match typeOf v with
      | TPrimitive k' => if Prim_eqb k k' then t else TInvalid
      | _ => TInvalid
      end
  | TConst c => if Value_eqb v c then t else TInvalid
  | TOptional inner =>
      match v with
      | VNone => t
      | _ => match spec_assign inner v with
             | TInvalid => TInvalid
             | inner' => TOptional inner'
             end
      end
  | TUnion members =>
      match (fix try (ms : list Ty) : option (list Ty) :=
               match ms with
               | [] => None
               | m :: r =>
                   match spec_assign m v with
                   | TInvalid => option_map (cons m) (try r)
                   | m' => Some (m' :: r)
                   end
               end) members with
      | Some members' => TUnion members'
      | None => match typeOf v with
                | TInvalid => TInvalid
                | tv => TUnion (members ++ [tv])
                end
      end
  | TRecord fields =>
      match v with
      | VDict d =>
          match (fix narrow (fs : list (Key * Ty)) : option (list (Key * Ty)) :=
                   match fs with
                   | [] => Some []
                   | (k, ft) :: r =>
                       let ft' := match dict_get d k with
                                  | Some x => spec_assign ft x
                                  | None => optional_of ft
                                  end in
                       match ft' with
                       | TInvalid => None
                       | _ => option_map (cons (k, ft')) (narrow r)
                       end
                   end) fields with
          | None => TInvalid
          | Some fields' =>
              TRecord (fields' ++
                       map (fun kv => (fst kv, optional_of (typeOf (snd kv))))
                           (filter (fun kv => match dict_get fields (fst kv) with
                                              | Some _ => false
                                              | None => true
                                              end) d))
          end
      | _ => TInvalid
      end
  end.

(** Modelled from the spec: [explain], section 4.1; the diagnostic names
    the fields of a record that fail to narrow. *)
Definition key_text (k : Key) : string :=
  match k with
  | KStr s => s
  | KInt _ => "<int>"
  end.

Definition spec_explain (t : Ty) (v : Value) : string :=
  match t, v with
  | TRecord fields, VDict d =>
      String.concat ", "
        (map (fun kv => key_text (fst kv))
             (filter (fun kv => match dict_get d (fst kv) with
                                | Some x => is_invalid (spec_assign (snd kv) x)
                                | None => false
                                end) fields))
  | _, _ => "value does not fit the type"
  end.

(** A JSON form of descriptors (the spec fixes none) and its reader. *)
Definition prim_name (k : Prim) : string :=
  match k with
  | PNumber => "number"
  | PString => "string"
  | PBoolean => "boolean"
  | PNone => "none"
  | PBinary => "binary"
  end.

Fixpoint Ty_to_json (t : Ty) : Value :=
  match t with
  | TUnknown => VStr "unknown"
  | TInvalid => VStr "invalid"
  | TConst v => VDict [(KStr "const", v)]
  | TPrimitive k => VStr (prim_name k)
  | TOptional inner => VDict [(KStr "optional", Ty_to_json inner)]
  | TUnion members => VDict [(KStr "union", VList (map Ty_to_json members))]
  | TRecord fields =>
      VDict [(KStr "record",
              VDict ((fix enc (fs : list (Key * Ty)) : list (Key * Value) :=
                        match fs with
                        | [] => []
                        | (k, ft) :: r => (k, Ty_to_json ft) :: enc r
                        end) fields))]
  end.

Fixpoint Ty_from_json (j : Value) : option Ty :=
  match j with
  | VStr s =>
      if String.eqb s "unknown" then Some TUnknown
      else if String.eqb s "invalid" then Some TInvalid
      else if String.eqb s "number" then Some (TPrimitive PNumber)
      else if String.eqb s "string" then Some (TPrimitive PString)
      else if String.eqb s "boolean" then Some (TPrimitive PBoolean)
      else if String.eqb s "none" then Some (TPrimitive PNone)
      else if String.eqb s "binary" then Some (TPrimitive PBinary)
      else None
  | VDict [(KStr tag, body)] =>
      if String.eqb tag "const" then Some (TConst body)
      else if String.eqb tag "optional" then option_map TOptional (Ty_from_json body)
      else if String.eqb tag "union" then
        match body with
        | VList l =>
            option_map TUnion
              ((fix dec (l : list Value) : option (list Ty) :=
                  match l with
                  | [] => Some []
                  | x :: r => match Ty_from_json x, dec r with
                              | Some t, Some ts => Some (t :: ts)
                              | _, _ => None
                              end
                  end) l)
        | _ => None
        end
      else if String.eqb tag "record" then
        match body with
        | VDict d =>
            option_map TRecord
              ((fix dec (d : list (Key * Value)) : option (list (Key * Ty)) :=
                  match d with
                  | [] => Some []
                  | (k, x) :: r => match Ty_from_json x, dec r with
                                   | Some t, Some ts => Some ((k, t) :: ts)
                                   | _, _ => None
                                   end
                  end) d)
        | _ => None
        end
      else None
  | _ => None
  end.

Definition spec_dtypes : Dtypes Ty := {|
  isInvalid := is_invalid;
  assign := spec_assign;
  explain := spec_explain;
  type_ne := fun a b => negb (Ty_eqb a b);
  type_str := fun t => match Ty_to_json t with
                       | VStr s => s
                       | _ => "type"
                       end;
  UnknownType := TUnknown;
  OptionalType := TOptional;
  EmptyDictType := TRecord [];
  type_map_set := fun t k t' =>
    match t with
    | TRecord fields => Ok (TRecord (dict_set fields k t'))
    | _ => Raise (KeyError (KStr "type_map"))
    end;
  type_of := typeOf;
  type_from_dtype := fun d =>
    match d with
    | inl t => Ok t
    | inr v => Ok (TConst v)
    end;
  type_to_json := fun t _ => Ok (Ty_to_json t);
  type_from_dict := fun j _ =>
    match Ty_from_json j with
    | Some t => Ok t
    | None => Raise (TypeError (MsgText "not the JSON of a type"))
    end
|}.

(** Modelled from the spec: what a rich value owns (section 3): the
    staged-file reference, [None] until it is staged, and the run it is
    bound to, which is the "ready" flag of section 4.4.  The [Media] class
    itself is in [wandb.sdk.data_types]. *)
Record MediaState : Type := mkMediaState {
  staged : option string;
  bound_run : option nat
}.

Definition spec_media : MediaBase MediaState := {|
  Media_init := mkMediaState None None;
  Media_to_json := fun _ m d =>
    match d with
    | DRun run =>
        match staged m, bound_run m with
        | Some path, Some run' =>
            if Nat.eqb run run'
            then Ok [(KStr "_type", VStr "file"); (KStr "path", VStr path)]
            else Raise (AssertionError "media files are not shared across runs")
        | _, _ => Raise (OtherError "value must be bound to a run")
        end
    | _ => Ok []
    end;
  is_bound := fun m => match bound_run m with
                       | Some _ => true
                       | None => false
                       end;
  set_file := fun m path _ => Ok (mkMediaState (Some path) (bound_run m));
  Media_bind_to_run := fun _ m run key _ =>
    match staged m with
    | None => Raise (AssertionError "bind_to_run called before _set_file")
    | Some path =>
        Ok (mkMediaState (Some ("media/" ++ key ++ "/" ++ path)%string) (Some run))
    end
|}.

(** [a != b]: two rich values differ when they are not the same object; a
    rich value and a value that is none are compared as [Classes.__eq__]
    compares (lines 633-634), which reads the attribute [_class_set] of the
    other operand and raises; other values are compared by structure. *)
Definition spec_value_ne (a b : Value) : Result bool :=
  match a, b with
  | VRich h, VRich h' => Ok (negb (Nat.eqb h h'))
  | VRich _, _ | _, VRich _ => Raise (AttributeError "_class_set")
  | _, _ => Ok (negb (Value_eqb a b))
  end.

(** [WBValue.init_from_json]: the class is looked up under [json["_type"]],
    a KeyError when the dictionary has no such key, and [None] is returned
    for a type that is not registered. *)
Definition spec_init_from_json (d : PyDict Value) (artifact : nat)
  : Result (option nat) :=
  match dict_get d (KStr "_type") with
  | None => Raise (KeyError (KStr "_type"))
  | Some (VStr "rich") =>
      match dict_get d (KStr "id") with
      | Some (VInt z) => Ok (Some (Z.to_nat z))
      | _ => Raise (KeyError (KStr "id"))
      end
  | Some _ => Ok None
  end.

(** Rich values serialize to a tagged reference and are read back from
    it; plain values are JSON already.  The objects 8 and 9 are the tuples
    [(2, 3)] and [(1, (2, 3))]; no other object is a Sequence or an
    array. *)
Definition spec_collaborators : Collaborators := {|
  value_ne := spec_value_ne;
  rich_to_json := fun h _ =>
    Ok (VDict [(KStr "_type", VStr "rich"); (KStr "id", VInt (Z.of_nat h))]);
  init_from_json := spec_init_from_json;
  json_friendly := fun v => v;
  generate_id := fun n => String.concat "" (repeat "x" (S n));
  media_tmp_path := fun name => ("/tmp/wandb-media/" ++ name)%string;
  obj_items := fun h =>
    if Nat.eqb h 8 then Some [VInt 2; VInt 3]
    else if Nat.eqb h 9 then Some [VInt 1; VObj 8]
    else None;
  obj_depth := fun h =>
    if Nat.eqb h 8 then 1 else if Nat.eqb h 9 then 2 else 0
|}.

Definition STable : Type := @Table Ty MediaState.

Definition fresh_media : MediaState := mkMediaState None None.

(** [Table(columns=["a", "b"])] *)
Definition table_ab : STable :=
  mkTable [KStr "a"; KStr "b"] []
    (TRecord [(KStr "a", TOptional TUnknown); (KStr "b", TOptional TUnknown)])
    fresh_media.

(** ... after [add_data(1, "x")] *)
Definition table_ab1 : STable :=
  mkTable [KStr "a"; KStr "b"] [[VInt 1; VStr "x"]]
    (TRecord [(KStr "a", TOptional (TPrimitive PNumber));
              (KStr "b", TOptional (TPrimitive PString))])
    fresh_media.

(** [Table(columns=["a.b"])]: no rows, a period in the column name. *)
Definition table_period : STable :=
  mkTable [KStr "a.b"] [] (TRecord [(KStr "a.b", TOptional TUnknown)]) fresh_media.


(** Three tables stored in an artifact: two with the columns [a], [b] and
    one with the columns [b], [a]. *)
Definition ab_types : Ty :=
  TRecord [(KStr "a", TOptional (TPrimitive PNumber));
           (KStr "b", TOptional (TPrimitive PString))].

Definition part_0 : STable :=
  mkTable [KStr "a"; KStr "b"] [[VInt 1; VStr "x"]; [VInt 2; VStr "y"]]
    ab_types fresh_media.

Definition part_1 : STable :=
  mkTable [KStr "a"; KStr "b"] [[VInt 3; VStr "z"]] ab_types fresh_media.

Definition part_swapped : STable :=
  mkTable [KStr "b"; KStr "a"] [[VStr "w"; VInt 4]]
    (TRecord [(KStr "b", TOptional (TPrimitive PString));
              (KStr "a", TOptional (TPrimitive PNumber))]) fresh_media.

Definition demo_artifact_get (artifact : nat) (path : string) : option STable :=
  if String.eqb path "parts/0" then Some part_0
  else if String.eqb path "parts/1" then Some part_1
  else if String.eqb path "parts/swapped" then Some part_swapped
  else None.

(** [table_period], staged and bound to run 7. *)
Definition table_period_bound : STable :=
  mkTable [KStr "a.b"] [] (TRecord [(KStr "a.b", TOptional TUnknown)])
    (mkMediaState (Some "media/table/t.table.json") (Some 7)).


(** One row whose cell is a dictionary holding a rich value. *)
Definition table_nested : STable :=
  mkTable [KStr "c"] [[VDict [(KStr "img", VRich 5)]]]
    (TRecord [(KStr "c", TOptional TUnknown)]) fresh_media.

(** Tables with the same columns and column types whose second rows hold
    a rich value, a number, and a rich value again under another first
    row. *)
Definition any_types : Ty := TRecord [(KStr "c", TUnknown)].

Definition table_with_rich : STable :=
  mkTable [KStr "c"] [[VInt 1]; [VRich 5]] any_types fresh_media.

Definition table_with_number : STable :=
  mkTable [KStr "c"] [[VInt 1]; [VInt 2]] any_types fresh_media.

Definition table_other_rich : STable :=
  mkTable [KStr "c"] [[VInt 7]; [VRich 5]] any_types fresh_media.

(** [Table(columns=["a"], dtype=t)] for [t] the union of numbers and
    strings, after [add_data(1)] and [add_data("x")]. *)
Definition number_or_string : Ty :=
  TUnion [TPrimitive PNumber; TPrimitive PString].

Definition table_union : STable :=
  mkTable [KStr "a"] [[VInt 1]; [VStr "x"]]
    (TRecord [(KStr "a", number_or_string)]) fresh_media.

(** [Table(data=[[1, 2, 3]])]: no columns are given. *)
Definition table_default : STable :=
  mkTable [KStr "Input"; KStr "Output"; KStr "Expected"]
    [[VInt 1; VInt 2; VInt 3]]
    (TRecord [(KStr "Input", TOptional (TPrimitive PNumber));
              (KStr "Output", TOptional (TPrimitive PNumber));
              (KStr "Expected", TOptional (TPrimitive PNumber))])
    fresh_media.

(** One row whose cell is a dictionary of plain values. *)
Definition table_dict_cell : STable :=
  mkTable [KStr "c"] [[VDict [(KStr "x", VInt 1)]]]
    (TRecord [(KStr "c", TOptional TUnknown)]) fresh_media.

(** The partitioned tables [from_json] builds over these parts. *)
Definition parts_01 : @PartitionedTable Ty MediaState :=
  PartitionedTable_from_json "parts" ["parts/0"; "parts/1"] 0.

(** [parts_01] after an iteration that was given up at its third row, the
    first of the second part: that part is still loaded. *)
Definition parts_01_given_up : @PartitionedTable Ty MediaState :=
  fst (snd (run demo_artifact_get 6 parts_01 (iterrows parts_01))).

Definition parts_0_swapped : @PartitionedTable Ty MediaState :=
  PartitionedTable_from_json "parts" ["parts/0"; "parts/swapped"] 0.

(** A graph with one node. *)
Definition graph_one : @Graph MediaState :=
  mkGraph "keras" [VDict [(KStr "name", VStr "dense")]] [] fresh_media.

End SpecModel.

(** ** Notions of the specification *)

Section SpecNotions.
Context {WBType Media : Type}.

(** Every row has one cell per column (section 3). *)
Definition well_shaped (t : @Table WBType Media) : Prop :=
  forall row, In row (data t) -> length row = length (columns t).

(** The cell of row [i] and column [j]. *)
Definition cell (t : @Table WBType Media) (i j : nat) : option Value :=
  match nth_error (data t) i with
  | Some row => nth_error row j
  | None => None
  end.

(** The values of column [j], row after row. *)
Definition column_values (j : nat) (rows : list (list Value)) : list Value :=
  flat_map (fun row => match nth_error row j with
                       | Some v => [v]
                       | None => []
                       end) rows.

(** No column name of type [str] has a period. *)
Definition no_period (cols : list Key) : Prop :=
  forall s, In (KStr s) cols -> contains_period s = false.


(** No part of a partitioned table is in memory. *)
Definition all_unloaded (entries : PyDict (@PartEntry WBType Media)) : Prop :=
  forall kv, In kv entries -> _part (snd kv) = None.

End SpecNotions.

Section SerializationNotions.
Context {WBType Media : Type}.
Context `{DT : Dtypes WBType} `{MB : MediaBase Media} `{CO : Collaborators}.

Local Abbreviation Tbl := (@Table WBType Media).

(** The fields [to_json] sets toward a run. *)
Definition run_fields (t : Tbl) : PyDict Value :=
  [(KStr "_type", VStr "table-file");
   (KStr "ncols", len_value (columns t));
   (KStr "nrows", len_value (data t))].

(** The fields [to_json] sets toward an artifact. *)
Definition artifact_fields (t : Tbl) (mapped_data : list (list Value))
    (column_types : Value) : PyDict Value :=
  [(KStr "_type", VStr artifact_type);
   (KStr "columns", VList (map key_value (columns t)));
   (KStr "data", VList (map VList mapped_data));
   (KStr "ncols", len_value (columns t));
   (KStr "nrows", len_value mapped_data);
   (KStr "column_types", column_types)].

Definition truncation_warning (t : Tbl) (max_rows : Z) : list Event :=
  if (Z.of_nat (length (data t)) >? max_rows)%Z
  then [EvWarning (WarnTruncating max_rows)]
  else [].


Definition table_payload (t : Tbl) : Value :=
  numpy_arrays_to_lists
    (table_json_value (mkTableJson (columns t) (py_slice_to (data t) MAX_ROWS))).

(** [from_json(to_json(t, artifact), artifact)] *)
Definition roundtrip (t : Tbl) (artifact : nat) : Result Tbl :=
  match fst (to_json t (DArtifact artifact)) with
  | Ok json => from_json json artifact
  | Raise e => Raise e
  end.

End SerializationNotions.

Section PartitionedNotions.
Context {WBType Media : Type}.
Variable artifact_get : nat -> string -> option (@Table WBType Media).

Local Abbreviation Tbl := (@Table WBType Media).
Local Abbreviation Entry := (@PartEntry WBType Media).
Local Abbreviation PT := (@PartitionedTable WBType Media).

(** The table an entry stands for. *)
Definition part_of (e : Entry) : option Tbl :=
  artifact_get (source_artifact e) (entry_path e).

Definition yield_event (ir : Z * list Value) : PEvent :=
  PYield (fst ir) (snd ir).

(** What walking the parts one after the other does: each is loaded, its
    rows are yielded under the running index, and it is freed. *)
Fixpoint part_events (start : Z) (parts : list (Key * Tbl)) : list PEvent :=
  match parts with
  | [] => []
  | (k, tbl) :: rest =>
      PLoad k
      :: map yield_event (enumerate_from start (data tbl))
      ++ PFree k
      :: part_events (start + Z.of_nat (length (data tbl))) rest
  end.

Definition all_rows (parts : list (Key * Tbl)) : list (list Value) :=
  flat_map (fun kt => data (snd kt)) parts.

(** Steps the walk of [parts] takes. *)
Fixpoint steps_of (parts : list (Key * Tbl)) : nat :=
  match parts with
  | [] => 0
  | (_, tbl) :: rest => S (length (data tbl)) + 1 + steps_of rest
  end.

Definition halted (g : Gen) : Prop :=
  match gen_ctrl g with
  | Finished | Failed _ => True
  | _ => False
  end.

(** An entry the walk can take: it is in the dictionary under [k], not in
    memory, and the artifact has the table [tbl] for it. *)
Definition resolves (ents : PyDict Entry) (k : Key) (tbl : Tbl) : Prop :=
  exists e, dict_get ents k = Some e /\ _part e = None /\ part_of e = Some tbl.

(** The table the walk gets for an entry: the one in memory when there is
    one, the artifact's otherwise. *)
Definition current_part (e : Entry) : option Tbl :=
  match _part e with
  | Some part => Some part
  | None => part_of e
  end.

(** The walk finds the table [tbl] under the key [k]. *)
Definition available (ents : PyDict Entry) (k : Key) (tbl : Tbl) : Prop :=
  exists e, dict_get ents k = Some e /\ current_part e = Some tbl.

(** What holds of the object between two steps of the generator. *)
Definition one_part_invariant (self : PT) (g : Gen) : Prop :=
  match gen_ctrl g with
  | AtLoopHead _ | Finished => all_unloaded (_loaded_part_entries self)
  | InPart k _ _ =>
      forall e', _part e' = None ->
                 all_unloaded (dict_set (_loaded_part_entries self) k e')
  | Failed _ => length (loaded self) <= 1
  end.

(** What holds of the generator's [part] between two steps: inside a part
    it refers to that part. *)
Definition frame_invariant (g : Gen) (part : option Key) : Prop :=
  match gen_ctrl g with
  | InPart k _ _ => part = Some k
  | _ => True
  end.

End PartitionedNotions.

(** ** More of the file: iteration over a Table *)

Section TableIteration.
Context {WBType Media : Type}.

(** [Table.iterrows] (lines 372-382) run to its end on a table that is not
    modified meanwhile: the pairs it yields, in order.  [self.data[ndx]]
    raises IndexError out of range. *)
Definition Table_iterrows (self : @Table WBType Media)
  : Result (list (Z * list Value)) :=
  map_r (fun ndx => match nth_error (data self) ndx with
                    | Some row => Ok (Z.of_nat ndx, row)
                    | None => Raise IndexError
                    end)
        (seq 0 (length (data self))).

End TableIteration.

(** ** More of the file: media logged in sequences (Audio, Image) *)

(** [x <-- m ;; k]: the rest [k] runs when [m] returns, and an exception of
    [m] is the exception of the whole. *)
Definition bind_r {A B : Type} (m : Result A) (k : A -> Result B) : Result B :=
  match m with
  | Ok a => k a
  | Raise e => Raise e
  end.

Notation "x <-- m ;; k" := (bind_r m (fun x => k))
  (at level 61, m at next level, right associativity) : py_scope.

(** [v is None] *)
Definition is_None (v : Value) : bool :=
  match v with
  | VNone => true
  | _ => false
  end.

(** What [logging.warning] is called with. *)
Inductive Logged : Type :=
| WarnImageSizes
    (* "Images sizes do not match. This will causes images to be display
       incorrectly in the UI." *)
| WarnOnlyUploaded (max_items : Z) (class_name : string).
    (* "Only %i %s will be uploaded." *)

(** The classes below inherit [Media.to_json]. *)
Inductive MediaKind : Type :=
| AudioKind
| ImageKind
| ImageMaskKind
| BoundingBoxes2DKind
| ClassesKind.

(** What these classes call outside this file: the [Media] base class,
    [wandb.util], [os.path], the run and the artifact. *)
Class Environment (Media : Type) : Type := {
  (* Media.__init__ *)
  media_init : Media;
  (* Media.to_json(self, run_or_artifact), reached through super() *)
  super_to_json : MediaKind -> Media -> Dest -> Result (PyDict Value);
  (* util.get_module(name, required=...) *)
  get_module_required : string -> Result unit;
  (* util.mkdir_exists_ok(path) *)
  mkdir_exists_ok : string -> Result unit;
  (* run.dir *)
  run_dir : nat -> string;
  (* os.path.join(a, b, ...) *)
  path_join : list string -> string;
  (* util.to_forward_slash_path(path) *)
  to_forward_slash_path : string -> string;
  (* bool(obj) for an object that is no builtin value *)
  obj_truthy : nat -> bool;
  (* obj == s, s in obj and list(obj), for a string s and such an object *)
  obj_eq_str : nat -> string -> bool;
  obj_contains : nat -> string -> Result bool;
  obj_iter : nat -> Result (list Value);
  (* artifact.add(classes, name): the path and the digest of the entry;
     the classes are given by their class set *)
  artifact_add_classes : nat -> Value -> string -> Result (Value * Value)
}.

Section Truth.
Context {Media : Type} `{EN : Environment Media}.

(** [bool(v)], the test of [if v:]. *)
Definition truthy (v : Value) : bool :=
  match v with
  | VNone => false
  | VBool b => b
  | VInt z => negb (z =? 0)%Z
  | VStr s => negb (String.eqb s "")
  | VList l => match l with [] => false | _ => true end
  | VDict d => match d with [] => false | _ => true end
  | VRich h | VObj h => obj_truthy h
  end.

End Truth.

Module Classes.
Section Model.
Context {Media : Type} `{EN : Environment Media}.

Definition artifact_type : string := "classes".

Record Classes : Type := mkClasses {
  _class_set : Value;
  media : Media
}.

(** [el == s] for a string [s]. *)
Definition eq_str (el : Value) (s : string) : bool :=
  match el with
  | VStr s' => String.eqb s' s
  | VRich h | VObj h => obj_eq_str h s
  | _ => false
  end.

(** [needle in s] for two strings. *)
Definition is_substring (needle s : string) : bool :=
  match String.index 0 needle s with
  | Some _ => true
  | None => false
  end.

(** [s in obj] for a string [s]. *)
Definition contains (s : string) (obj : Value) : Result bool :=
  match obj with
  | VDict d => Ok (existsb (fun kv => Key_eqb (fst kv) (KStr s)) d)
  | VList l => Ok (existsb (fun el => eq_str el s) l)
  | VStr s' => Ok (is_substring s s')
  | VRich h | VObj h => obj_contains h s
  | _ => Raise (TypeError (MsgText "argument is not iterable"))
  end.

(** The body of the loop of [Classes.__init__] (line 609). *)
Definition check_class_obj (class_obj : Value) : Result unit :=
  has_id <-- contains "id" class_obj ;;
  if has_id
  then
    has_name <-- contains "name" class_obj ;;
    if has_name then Ok tt else Raise (AssertionError "")
  else Raise (AssertionError "").

(** [for class_obj in class_set] *)
Definition iter_class_set (class_set : Value) : Result (list Value) :=
  match class_set with
  | VRich h | VObj h => obj_iter h
  | _ => iter_value class_set
  end.

(** [Classes(class_set)] (lines 601-610). *)
Definition new (class_set : Value) : Result Classes :=
  class_objs <-- iter_class_set class_set ;;
  _ <-- map_r check_class_obj class_objs ;;
  Ok (mkClasses class_set media_init).

(** [Classes.from_json] (lines 612-614). *)
Definition from_json (json_obj : PyDict Value) (source_artifact : nat)
  : Result Classes :=
  new (match dict_get json_obj (KStr "class_set") with
       | Some v => v
       | None => VNone
       end).

(** [Classes.to_json] (lines 616-625). *)
Definition to_json (self : Classes) (artifact : option Dest)
  : Result (PyDict Value) :=
  json_obj <-- match artifact with
               | Some a => super_to_json ClassesKind (media self) a
               | None => Ok []
               end ;;
  let json_obj := dict_set json_obj (KStr "_type") (VStr artifact_type) in
  let json_obj := dict_set json_obj (KStr "class_set") (_class_set self) in
  Ok json_obj.

End Model.
End Classes.

Module Audio.
Section Model.
Context {Media : Type} `{EN : Environment Media}.

Definition artifact_type : string := "audio-file".

Record Audio : Type := mkAudio {
  _duration : Value;
  _sample_rate : Value;
  _caption : Value;
  media : Media
}.

(** [Audio.to_json] (lines 526-535). *)
Definition to_json (self : Audio) (run : Dest) : Result (PyDict Value) :=
  json_dict <-- super_to_json AudioKind (media self) run ;;
  Ok (dict_update json_dict
        [(KStr "_type", VStr artifact_type);
         (KStr "sample_rate", _sample_rate self);
         (KStr "caption", _caption self)]).

(** [Audio.durations] (lines 564-566). *)
Definition durations (audio_list : list Audio) : Value :=
  VList (map _duration audio_list).

(** [Audio.sample_rates] (lines 568-570). *)
Definition sample_rates (audio_list : list Audio) : Value :=
  VList (map _sample_rate audio_list).

(** [Audio.captions] (lines 572-578). *)
Definition captions (audio_list : list Audio) : Value :=
  let captions := map _caption audio_list in
  if forallb is_None captions
  then VBool false
  else VList (map (fun c => if is_None c then VStr "" else c) captions).

(** [meta[k] = v] when [v] is true, as in [if v: meta[k] = v]. *)
Definition set_if_true (meta : PyDict Value) (k : string) (v : Value)
  : PyDict Value :=
  if truthy v then dict_set meta (KStr k) v else meta.

(** [Audio.seq_to_json] (lines 537-562); [run] is a run. *)
Definition seq_to_json (seq : list Audio) (run : nat) (key : Key) (step : Value)
  : Result (PyDict Value) :=
  let audio_list := seq in
  _ <-- get_module_required "soundfile" ;;
  let base_path := path_join [run_dir run; "media"; "audio"] in
  _ <-- mkdir_exists_ok base_path ;;
  audio <-- map_r (fun a => to_json a (DRun run)) audio_list ;;
  let meta := [(KStr "_type", VStr "audio");
               (KStr "count", len_value audio_list);
               (KStr "audio", VList (map VDict audio))] in
  let meta := set_if_true meta "sampleRates" (sample_rates audio_list) in
  let meta := set_if_true meta "durations" (durations audio_list) in
  let meta := set_if_true meta "captions" (captions audio_list) in
  Ok meta.

End Model.
End Audio.

Module Image.
Section Model.
Context {Media : Type} `{EN : Environment Media}.

Definition MAX_ITEMS : Z := 108.
Definition artifact_type : string := "image-file".

(** [BoundingBoxes2D]: [_val] is the list under "box_data". *)
Record BoundingBoxes2D : Type := mkBoundingBoxes2D {
  _val : Value;
  box_media : Media
}.

Record ImageMask : Type := mkImageMask {
  mask_media : Media
}.

(** [JSONMetadata.to_json] (lines 1198-1202) with the [type_name] of
    [BoundingBoxes2D] (lines 1270-1271). *)
Definition JSONMetadata_to_json (self : BoundingBoxes2D) (run : Dest)
  : Result (PyDict Value) :=
  json_dict <-- super_to_json BoundingBoxes2DKind (box_media self) run ;;
  Ok (dict_set json_dict (KStr "_type") (VStr "boxes2D")).

(** [BoundingBoxes2D.to_json] (lines 1335-1346). *)
Definition BoundingBoxes2D_to_json (self : BoundingBoxes2D) (run_or_artifact : Dest)
  : Result Value :=
  match run_or_artifact with
  | DRun _ =>
      json_dict <-- JSONMetadata_to_json self run_or_artifact ;;
      Ok (VDict json_dict)
  | DArtifact _ => Ok (_val self)
  | DOther _ => Raise (ValueError MsgToJsonAccepts)
  end.

(** [ImageMask.to_json] (lines 1424-1435). *)
Definition ImageMask_to_json (self : ImageMask) (run_or_artifact : Dest)
  : Result Value :=
  json_dict <-- super_to_json ImageMaskKind (mask_media self) run_or_artifact ;;
  match run_or_artifact with
  | DRun _ => Ok (VDict (dict_set json_dict (KStr "_type") (VStr "mask")))
  | DArtifact _ => Ok (VDict json_dict)
  | DOther _ => Raise (ValueError MsgToJsonAccepts)
  end.

(** [_image_size] is [self._image.size]. *)
Record Image : Type := mkImage {
  _grouping : Value;
  _caption : Value;
  _width : Value;
  _height : Value;
  _image_size : Z * Z;
  format : Value;
  _classes : option (@Classes.Classes Media);
  _boxes : option (PyDict BoundingBoxes2D);
  _masks : option (PyDict ImageMask);
  media : Media
}.

(** [{k: x.to_json(dest) for (k, x) in d.items()}] *)
Fixpoint group_to_json {A : Type} (item_to_json : A -> Result Value)
    (d : PyDict A) (res : PyDict Value) : Result (PyDict Value) :=
  match d with
  | [] => Ok res
  | (k, x) :: rest =>
      j <-- item_to_json x ;;
      group_to_json item_to_json rest (dict_set res k j)
  end.

(** [if d:] for an attribute that is [None] or a dictionary. *)
Definition nonempty {A : Type} (d : option (PyDict A)) : option (PyDict A) :=
  match d with
  | Some (kv :: rest) => Some (kv :: rest)
  | _ => None
  end.

Definition set_if_not_None (json_dict : PyDict Value) (k : string) (v : Value)
  : PyDict Value :=
  if is_None v then json_dict else dict_set json_dict (KStr k) v.

Definition set_if_true (json_dict : PyDict Value) (k : string) (v : Value)
  : PyDict Value :=
  if truthy v then dict_set json_dict (KStr k) v else json_dict.

Definition MsgClassesMustBePassed : Msg :=
  MsgText "classes must be passed to wandb.Image which have masks or bounding boxes when adding to artifacts".

(** [Image.to_json] (lines 959-1015). *)
Definition to_json (self : Image) (run_or_artifact : Dest)
  : Result (PyDict Value) :=
  json_dict <-- super_to_json ImageKind (media self) run_or_artifact ;;
  let json_dict := dict_set json_dict (KStr "_type") (VStr artifact_type) in
  let json_dict := dict_set json_dict (KStr "format") (format self) in
  let json_dict := set_if_not_None json_dict "width" (_width self) in
  let json_dict := set_if_not_None json_dict "height" (_height self) in
  let json_dict := set_if_true json_dict "grouping" (_grouping self) in
  let json_dict := set_if_true json_dict "caption" (_caption self) in
  json_dict <--
    match run_or_artifact with
    | DArtifact artifact =>
        match _masks self, _boxes self, _classes self with
        | Some _, _, None | _, Some _, None =>
            Raise (ValueError MsgClassesMustBePassed)
        | _, _, None => Ok json_dict
        | _, _, Some classes =>
            let class_name := path_join ["media"; "cls"] in
            classes_entry <--
              artifact_add_classes artifact (Classes._class_set classes) class_name ;;
            Ok (dict_set json_dict (KStr "classes")
                  (VDict [(KStr "type", VStr "classes-file");
                          (KStr "path", fst classes_entry);
                          (KStr "digest", snd classes_entry)]))
        end
    | DRun _ => Ok json_dict
    | DOther _ => Raise (ValueError MsgToJsonAccepts)
    end ;;
  json_dict <--
    match nonempty (_boxes self) with
    | Some boxes =>
        group <-- group_to_json (fun box => BoundingBoxes2D_to_json box run_or_artifact)
                                boxes [] ;;
        Ok (dict_set json_dict (KStr "boxes") (VDict group))
    | None => Ok json_dict
    end ;;
  match nonempty (_masks self) with
  | Some masks =>
      group <-- group_to_json (fun mask => ImageMask_to_json mask run_or_artifact)
                              masks [] ;;
      Ok (dict_set json_dict (KStr "masks") (VDict group))
  | None => Ok json_dict
  end.

(** The loop of [all_masks] and of [all_boxes]: one group, or [None], for
    each image. *)
Fixpoint all_groups {A : Type} (item_to_json : A -> Result Value)
    (attr : Image -> option (PyDict A)) (images : list Image)
  : Result (list Value) :=
  match images with
  | [] => Ok []
  | image :: rest =>
      group <-- match nonempty (attr image) with
                | Some d =>
                    g <-- group_to_json item_to_json d [] ;;
                    Ok (VDict g)
                | None => Ok VNone
                end ;;
      groups <-- all_groups item_to_json attr rest ;;
      Ok (group :: groups)
  end.

(** The value returned: the list when it is not empty and not all [None]. *)
Definition groups_or_False (groups : list Value) : Value :=
  if truthy (VList groups) && negb (forallb is_None groups)
  then VList groups
  else VBool false.

(** [Image.all_masks] (lines 1115-1130). *)
Definition all_masks (images : list Image) (run : nat) (run_key : Key)
    (step : Value) : Result Value :=
  all_mask_groups <-- all_groups (fun mask => ImageMask_to_json mask (DRun run))
                                 _masks images ;;
  Ok (groups_or_False all_mask_groups).

(** [Image.all_boxes] (lines 1132-1147). *)
Definition all_boxes (images : list Image) (run : nat) (run_key : Key)
    (step : Value) : Result Value :=
  all_box_groups <-- all_groups (fun box => BoundingBoxes2D_to_json box (DRun run))
                                _boxes images ;;
  Ok (groups_or_False all_box_groups).

(** [Image.all_captions] (lines 1149-1154). *)
Definition all_captions (images : list Image) : Result Value :=
  match images with
  | [] => Raise IndexError
  | first :: _ =>
      if negb (is_None (_caption first))
      then Ok (VList (map _caption images))
      else Ok (VBool false)
  end.

(** [Image.get_media_subdir] (lines 942-944). *)
Definition get_media_subdir : string := path_join ["media"; "images"].

Definition MsgFilesMustBeIn (media_dir path : string) : Msg :=
  MsgText ("Files in an array of Image's must be in the " ++ media_dir
           ++ " directory, not " ++ path).

(** The body of the loop over [jsons] (lines 1067-1075). *)
Definition check_path (obj : PyDict Value) : Result unit :=
  let expected := to_forward_slash_path get_media_subdir in
  path <-- getitem obj "path" ;;
  match path with
  | VStr p =>
      if negb (String.prefix expected p)
      then Raise (ValueError (MsgFilesMustBeIn get_media_subdir p))
      else Ok tt
  | _ => Raise (AttributeError "startswith")
  end.

(** [size_equals_image] (lines 1081-1083). *)
Definition size_equals_image (width height : Z) (image : Image) : bool :=
  let '(img_width, img_height) := _image_size image in
  (img_width =? width)%Z && (img_height =? height)%Z.

(** [Image.seq_to_json] (lines 1057-1113): what it returns or raises, and
    the warnings it has logged by then. *)
Definition seq_to_json (images : list Image) (run : nat) (key : Key)
    (step : Value) : Result (PyDict Value) * list Logged :=
  match
    (jsons <-- map_r (fun obj => to_json obj (DRun run)) images ;;
     _ <-- map_r check_path jsons ;;
     match images, jsons with
     | first :: _, first_json :: _ =>
         format <-- getitem first_json "format" ;;
         Ok (_image_size first, format)
     | _, _ => Raise IndexError
     end)
  with
  | Raise e => (Raise e, [])
  | Ok (width, height, format) =>
      let num_images_to_log := length images in
      let sizes_match := forallb (size_equals_image width height) images in
      let logged := if negb sizes_match then [WarnImageSizes] else [] in
      let meta := [(KStr "_type", VStr "images/separated");
                   (KStr "width", VInt width);
                   (KStr "height", VInt height);
                   (KStr "format", format);
                   (KStr "count", VInt (Z.of_nat num_images_to_log))] in
      (captions <-- all_captions images ;;
       let meta := set_if_true meta "captions" captions in
       all_masks <-- all_masks images run key step ;;
       let meta := set_if_true meta "all_masks" all_masks in
       all_boxes <-- all_boxes images run key step ;;
       let meta := set_if_true meta "all_boxes" all_boxes in
       Ok meta,
       logged)
  end.

End Model.
End Image.

(** ** More of the file: the values of a history row *)

(** The keys are distinct, as those of a dictionary are. *)
Fixpoint keys_distinct (keys : list Key) : bool :=
  match keys with
  | [] => true
  | k :: rest => negb (existsb (Key_eqb k) rest) && keys_distinct rest
  end.

(** A value made of [None], booleans, integers, strings, rich values, lists
    and dictionaries only: no array, tuple or other object in it. *)
Fixpoint builtin (val : Value) : bool :=
  match val with
  | VObj _ => false
  | VList l => forallb builtin l
  | VDict d =>
      keys_distinct (map fst d) && forallb (fun kv => builtin (snd kv)) d
  | _ => true
  end.

(** What [val_to_json] asks of the value it is given and what it calls on
    it.  A rich value is known by its identity; [Store] is all that these
    calls read and change: the objects, their files, the run.  The two
    functions of this file that work on objects of other libraries, a
    pandas DataFrame and a matplotlib or plotly figure, are part of the
    interface. *)
Class Logging (Store : Type) : Type := {
  (* util.get_full_typename(val) *)
  get_full_typename : Value -> string;
  (* util.is_pandas_data_frame(val) *)
  is_pandas_data_frame : Value -> bool;
  (* util.is_matplotlib_typename(typename) *)
  is_matplotlib_typename : string -> bool;
  (* util.is_plotly_typename(typename) *)
  is_plotly_typename : string -> bool;
  (* obj == "summary" for an object that is no builtin value *)
  obj_is_summary : nat -> bool;
  (* data_frame_to_json(df, run, key, step), lines 2059-2145 *)
  data_frame_to_json : Value -> nat -> Key -> Value -> Store -> Result Value * Store;
  (* Plotly.make_plot_media(val), lines 1478-1484: the Image or Plotly made *)
  make_plot_media : Value -> Store -> Result nat * Store;
  (* list(obj) for an object that is a Sequence and no list or str; None
     when it is no Sequence *)
  obj_sequence : nat -> option (list Value);
  (* isinstance(v, Media) *)
  is_Media : nat -> bool;
  (* isinstance(v, BatchableMedia) *)
  is_BatchableMedia : nat -> bool;
  (* isinstance(v, type(w)) *)
  isinstance_type_of : nat -> nat -> bool;
  (* v.MAX_ITEMS when hasattr(v, "MAX_ITEMS") *)
  MAX_ITEMS_of : nat -> option Z;
  (* v.__class__.__name__ *)
  class_name_of : nat -> string;
  (* v.is_bound() *)
  rich_is_bound : nat -> Store -> bool;
  (* v.bind_to_run(run, key, step) and v.bind_to_run(run, key, step, id_=i) *)
  rich_bind_to_run :
    nat -> nat -> Key -> Value -> option Z -> Store -> Result unit * Store;
  (* v.to_json(run) *)
  rich_to_json_run : nat -> nat -> Store -> Result Value * Store;
  (* v.seq_to_json(items, run, key, step) *)
  rich_seq_to_json :
    nat -> list Value -> nat -> Key -> Value -> Store -> Result Value * Store
}.

Definition MsgNamespace : Msg :=
  MsgText "val_to_json must be called with a namespace(a step number, or 'summary') argument".

Section History.
Context {Store : Type} `{LG : Logging Store}.

(** The state of these functions: the store and the warnings logged. *)
Definition LogState : Type := (Store * list Logged)%type.

(** A call of the interface. *)
Definition call {A : Type} (op : Store -> Result A * Store) : M LogState A :=
  fun s => let (r, store) := op (fst s) in (r, (store, snd s)).

(** [logging.warning(...)] *)
Definition log_warning (w : Logged) : M LogState unit :=
  fun s => (Ok tt, (fst s, snd s ++ [w])).

(** [isinstance(v, WBValue)] *)
Definition is_WBValue (v : Value) : bool :=
  match v with
  | VRich _ => true
  | _ => false
  end.

(** [list(val)] when [isinstance(val, Sequence)]: a list, a string or an
    object that is registered as one; no class of rich values is. *)
Definition as_sequence (val : Value) : option (list Value) :=
  match val with
  | VList l => Some l
  | VStr s => Some (map (fun c => VStr (String c EmptyString))
                        (list_ascii_of_string s))
  | VObj h => obj_sequence h
  | _ => None
  end.

(** [namespace == "summary"] *)
Definition is_summary (namespace : Value) : bool :=
  match namespace with
  | VStr s => String.eqb s "summary"
  | VRich h | VObj h => obj_is_summary h
  | _ => false
  end.

(** [prune_max_seq] (lines 2001-2010). *)
Definition prune_max_seq (seq : list Value) : M LogState (list Value) :=
  match seq with
  | [] => raise IndexError
  | VRich h :: _ | VObj h :: _ =>
      match MAX_ITEMS_of h with
      | Some max_items =>
          if (max_items <? Z.of_nat (length seq))%Z
          then
            log_warning (WarnOnlyUploaded max_items (class_name_of h)) ;;;
            ret (py_slice_to seq max_items)
          else ret seq
      | None => ret seq
      end
  | _ => ret seq
  end.

(** [for i, item in enumerate(items): item.bind_to_run(run, key, namespace,
    id_=i)], from index [i] on. *)
Fixpoint bind_items (run : nat) (key : Key) (namespace : Value) (i : Z)
    (items : list Value) : M LogState unit :=
  match items with
  | [] => ret tt
  | VRich h :: rest =>
      call (rich_bind_to_run h run key namespace (Some i)) ;;;
      bind_items run key namespace (i + 1) rest
  | _ :: _ => raise (AttributeError "bind_to_run")
  end.

(** The end of [val_to_json] (lines 2051-2056): [val] is the value after the
    branches above, [converted] the value the function was given. *)
Definition wbvalue_to_json (run : nat) (key : Key) (val converted : Value)
    (namespace : Value) : M LogState Value :=
  match val with
  | VRich h =>
      s <- get ;;
      (if is_Media h && negb (rich_is_bound h (fst s))
       then call (rich_bind_to_run h run key namespace None)
       else ret tt) ;;;
      call (rich_to_json_run h run)
  | _ => ret converted
  end.

(** [[f(v) for v in items]] *)
Fixpoint map_m {S A B : Type} (f : A -> M S B) (items : list A) : M S (list B) :=
  match items with
  | [] => ret []
  | v :: rest => y <- f v ;; ys <- map_m f rest ;; ret (y :: ys)
  end.

(** The body of [val_to_json] (lines 2013-2056); [elements] stands for the
    list comprehension of line 2049 over the items of the sequence. *)
Definition val_to_json_body (elements : list Value -> M LogState (list Value))
    (run : nat) (key : Key) (val : Value) (namespace : Value)
  : M LogState Value :=
  if is_None namespace
  then raise (ValueError MsgNamespace)
  else
    let converted := val in
    let typename := get_full_typename val in
    if is_pandas_data_frame val
    then
      if is_summary namespace
      then call (data_frame_to_json val run key namespace)
      else raise (AssertionError "We don't yet support DataFrames in History.")
    else if is_matplotlib_typename typename || is_plotly_typename typename
    then
      h <- call (make_plot_media val) ;;
      wbvalue_to_json run key (VRich h) converted namespace
    else
      match as_sequence val with
      | Some vals =>
          if forallb is_WBValue vals
          then
            match vals with
            | VRich h0 :: _ =>
                if is_BatchableMedia h0
                   && forallb (fun v => match v with
                                        | VRich h => isinstance_type_of h h0
                                        | _ => false
                                        end) vals
                then
                  items <- prune_max_seq vals ;;
                  bind_items run key namespace 0 items ;;;
                  match items with
                  | VRich h :: _ =>
                      call (rich_seq_to_json h items run key namespace)
                  | [] => raise IndexError
                  | _ :: _ => raise (AttributeError "seq_to_json")
                  end
                else v <- elements vals ;; ret (VList v)
            | _ => v <- elements vals ;; ret (VList v)
            end
          else wbvalue_to_json run key val converted namespace
      | None => wbvalue_to_json run key val converted namespace
      end.

(** [val_to_json] on an item of a sequence of rich values: a rich value is
    no Sequence, so the comprehension is not reached. *)
Definition val_to_json_item (run : nat) (key : Key) (namespace : Value)
    (val : Value) : M LogState Value :=
  val_to_json_body (fun _ => ret []) run key val namespace.

(** [val_to_json] (lines 2013-2056). *)
Definition val_to_json (run : nat) (key : Key) (val : Value) (namespace : Value)
  : M LogState Value :=
  val_to_json_body (map_m (val_to_json_item run key namespace))
                   run key val namespace.

(** The loop of [history_dict_to_json] (lines 1975-1980) over the items of
    the payload, a dictionary: [payload[key]] is the value of the item. *)
Fixpoint history_items (convert : Key -> Value -> M LogState Value)
    (items : list (Key * Value)) (payload : PyDict Value)
  : M LogState (PyDict Value) :=
  match items with
  | [] => ret payload
  | (key, val) :: rest =>
      new <- convert key val ;;
      history_items convert rest (dict_set payload key new)
  end.

(** [step] when it is given, [payload["_step"]] otherwise (lines
    1970-1972). *)
Definition step_of (payload : PyDict Value) (step : Value) : M LogState Value :=
  if is_None step then lift (getitem payload "_step") else ret step.

(** What [history_dict_to_json] puts in the place of a value. *)
Fixpoint history_value (run : nat) (step : Value) (key : Key) (val : Value)
  : M LogState Value :=
  match val with
  | VDict payload =>
      step <- step_of payload step ;;
      res <- history_items (history_value run step) payload payload ;;
      ret (VDict res)
  | _ => val_to_json run key val step
  end.

(** [history_dict_to_json] (lines 1967-1982). *)
Definition history_dict_to_json (run : nat) (payload : PyDict Value)
    (step : Value) : M LogState (PyDict Value) :=
  step <- step_of payload step ;;
  history_items (history_value run step) payload payload.

(** Values that [history_dict_to_json] has nothing to convert in. *)

(** Not a data frame, not a figure, not a rich value and not a sequence of
    rich values only. *)
Definition plain_leaf (val : Value) : bool :=
  negb (is_pandas_data_frame val)
  && negb (is_matplotlib_typename (get_full_typename val))
  && negb (is_plotly_typename (get_full_typename val))
  && negb (is_WBValue val)
  && match as_sequence val with
     | Some vals => negb (forallb is_WBValue vals)
     | None => true
     end.

(** A plain leaf, or a dictionary of plain values. *)
Fixpoint plain (val : Value) : bool :=
  match val with
  | VDict d =>
      keys_distinct (map fst d) && forallb (fun kv => plain (snd kv)) d
  | _ => plain_leaf val
  end.

(** The namespace [history_dict_to_json] works with. *)
Definition effective_step (payload : PyDict Value) (step : Value) : option Value :=
  if is_None step then dict_get payload (KStr "_step") else Some step.

End History.

(** ** A model of the environment

    As for the collaborators of [Table]: the theorems hold for every
    implementation of [Environment]; this one lets them be run. *)

Module SpecEnvironment.
Import SpecModel.

(** A staged medium serializes to its path; forward slashes everywhere. *)
Definition spec_environment : Environment MediaState := {|
  media_init := mkMediaState None None;
  super_to_json := fun _ m _ =>
    match staged m with
    | Some path => Ok [(KStr "path", VStr path)]
    | None => Raise (OtherError "value must be bound to a run")
    end;
  get_module_required := fun _ => Ok tt;
  mkdir_exists_ok := fun _ => Ok tt;
  run_dir := fun _ => "run";
  path_join := String.concat "/";
  to_forward_slash_path := fun path => path;
  obj_truthy := fun _ => true;
  obj_eq_str := fun _ _ => false;
  obj_contains := fun _ _ => Raise (TypeError (MsgText "argument is not iterable"));
  obj_iter := fun _ => Raise (TypeError (MsgText "object is not iterable"));
  artifact_add_classes := fun _ _ name =>
    Ok (VStr (name ++ ".classes.json"), VStr "digest")
|}.

Definition staged_at (path : string) : MediaState :=
  mkMediaState (Some path) (Some 7).

(** Two clips, the first without a caption. *)
Definition clip_plain : @Audio.Audio MediaState :=
  Audio.mkAudio VNone (VInt 44100) VNone (staged_at "media/audio/a.wav").

Definition clip_titled : @Audio.Audio MediaState :=
  Audio.mkAudio VNone (VInt 44100) (VStr "bird") (staged_at "media/audio/b.wav").

(** Images: without a caption, with one; with a mask and no classes; of
    another size; staged outside the media directory. *)
Definition image_plain : @Image.Image MediaState :=
  Image.mkImage VNone VNone (VInt 4) (VInt 3) (4, 3)%Z (VStr "png")
    None None None (staged_at "media/images/a.png").

Definition image_titled : @Image.Image MediaState :=
  Image.mkImage VNone (VStr "cat") (VInt 4) (VInt 3) (4, 3)%Z (VStr "png")
    None None None (staged_at "media/images/b.png").

Definition image_masked : @Image.Image MediaState :=
  Image.mkImage VNone VNone (VInt 4) (VInt 3) (4, 3)%Z (VStr "png")
    None None
    (Some [(KStr "ground_truth",
            Image.mkImageMask (staged_at "media/images/mask/m.png"))])
    (staged_at "media/images/c.png").

Definition image_wide : @Image.Image MediaState :=
  Image.mkImage VNone VNone (VInt 8) (VInt 3) (8, 3)%Z (VStr "png")
    None None None (staged_at "media/images/d.png").

Definition image_elsewhere : @Image.Image MediaState :=
  Image.mkImage VNone VNone (VInt 4) (VInt 3) (4, 3)%Z (VStr "png")
    None None None (staged_at "tmp/e.png").

End SpecEnvironment.

(** ** A model of the rich values that are logged

    For running the theorems on [val_to_json]: the store is the list of the
    values that are bound and the list of the calls made.  The values 0 to 9
    are of a batchable class "Pair" with [MAX_ITEMS = 2], the values 10 to 99
    are images, the others are media that are logged one by one. *)

Module SpecLogging.

Inductive Call : Type :=
| CallBind (h : nat) (id_ : option Z)
| CallToJson (h : nat)
| CallSeqToJson (h : nat) (count : nat).

Record SpecStore : Type := mkSpecStore {
  bound : list nat;
  calls : list Call
}.

Definition class_of (h : nat) : nat :=
  if (h <? 10)%nat then 0 else if (h <? 100)%nat then 1 else 2.

Definition spec_logging : Logging SpecStore := {|
  get_full_typename := fun _ => "builtins.object";
  is_pandas_data_frame := fun _ => false;
  is_matplotlib_typename := String.prefix "matplotlib.";
  is_plotly_typename := String.prefix "plotly.";
  obj_is_summary := fun _ => false;
  data_frame_to_json := fun _ _ _ _ st =>
    (Raise (OtherError "pandas is not installed"), st);
  make_plot_media := fun _ st =>
    (Raise (OtherError "plotly is not installed"), st);
  obj_sequence := fun _ => None;
  is_Media := fun _ => true;
  is_BatchableMedia := fun h => (h <? 100)%nat;
  isinstance_type_of := fun h h0 => Nat.eqb (class_of h) (class_of h0);
  MAX_ITEMS_of := fun h =>
    match class_of h with
    | 0 => Some 2%Z
    | 1 => Some Image.MAX_ITEMS
    | _ => None
    end;
  class_name_of := fun h =>
    match class_of h with
    | 0 => "Pair"
    | 1 => "Image"
    | _ => "Media"
    end;
  rich_is_bound := fun h st => existsb (Nat.eqb h) (bound st);
  rich_bind_to_run := fun h _ _ _ id_ st =>
    (Ok tt, mkSpecStore (h :: bound st) (calls st ++ [CallBind h id_]));
  rich_to_json_run := fun h _ st =>
    (Ok (VDict [(KStr "_type", VStr "rich"); (KStr "id", VInt (Z.of_nat h))]),
     mkSpecStore (bound st) (calls st ++ [CallToJson h]));
  rich_seq_to_json := fun h items _ _ _ st =>
    (Ok (VDict [(KStr "count", len_value items)]),
     mkSpecStore (bound st) (calls st ++ [CallSeqToJson h (length items)]))
|}.

Definition empty_state : @LogState SpecStore := (mkSpecStore [] [], []).

End SpecLogging.

(** ** Notions of the further properties *)

Section ImageNotions.
Context {Media : Type} `{EN : Environment Media}.

Local Abbreviation Img := (@Image.Image Media).

(** The fields [Image.to_json] has set before it looks at the
    destination. *)
Definition image_fields (self : Img) (base : PyDict Value) : PyDict Value :=
  Image.set_if_true
    (Image.set_if_true
       (Image.set_if_not_None
          (Image.set_if_not_None
             (dict_set (dict_set base (KStr "_type") (VStr Image.artifact_type))
                       (KStr "format") (Image.format self))
             "width" (Image._width self))
          "height" (Image._height self))
       "grouping" (Image._grouping self))
    "caption" (Image._caption self).

(** One image and the entry it gets in the list of groups. *)
Definition group_of {A : Type} (attr : Img -> option (PyDict A)) (image : Img)
    (g : Value) : Prop :=
  match Image.nonempty (attr image) with
  | None => g = VNone
  | Some d => exists gd, g = VDict gd
                         /\ forall k, In k (map fst gd) <-> In k (map fst d)
  end.

(** The summary before the captions, masks and boxes are added. *)
Definition image_meta (images : list Img) (first : Img) (format : Value)
  : PyDict Value :=
  [(KStr "_type", VStr "images/separated");
   (KStr "width", VInt (fst (Image._image_size first)));
   (KStr "height", VInt (snd (Image._image_size first)));
   (KStr "format", format);
   (KStr "count", VInt (Z.of_nat (length images)))].

(** The sizes of all images are the size of [first]. *)
Definition sizes_match (images : list Img) (first : Img) : bool :=
  forallb (Image.size_equals_image (fst (Image._image_size first))
                                   (snd (Image._image_size first))) images.

End ImageNotions.

Section LoggingNotions.
Context {Store : Type} `{LG : Logging Store}.

(** A value that is neither a data frame nor a figure. *)
Definition ordinary (val : Value) : Prop :=
  is_pandas_data_frame val = false
  /\ is_matplotlib_typename (get_full_typename val) = false
  /\ is_plotly_typename (get_full_typename val) = false.

End LoggingNotions.

(** The loop of [numpy_arrays_to_lists] over the items of a dictionary,
    each converted by [convert]. *)
Definition rebuilt_items (convert : Value -> Value) (d : list (Key * Value))
    (res : PyDict Value) : PyDict Value :=
  (fix items (d : list (Key * Value)) (res : PyDict Value) : PyDict Value :=
     match d with
     | [] => res
     | (key, val) :: rest => items rest (dict_set res key (convert val))
     end) d res.


Section PayloadNotions.
Context `{CO : Collaborators}.



End PayloadNotions.

Section BatchNotions.
Context {WBType Media : Type} `{DT : Dtypes WBType}.

(** The column types after a row, when the row is accepted: the descriptor
    narrowed by the dictionary of the row. *)
Definition narrowed (cols : list Key) (t : WBType) (row : list Value) : WBType :=
  assign t (VDict (dict_update [] (combine cols row))).

(** A row [add_data] accepts in a table with the columns [cols] and the
    column types [t]. *)
Definition accepted (cols : list Key) (t : WBType) (row : list Value) : Prop :=
  length row = length cols /\ isInvalid (narrowed cols t row) = false.

End BatchNotions.

(** The rich values [json_helper] serializes in a cell: the cell itself, or
    those under the keys of a dictionary, at any depth; not those in a
    list. *)
Fixpoint rich_in (val : Value) : list nat :=
  match val with
  | VRich h => [h]
  | VDict d => flat_map (fun kv => rich_in (snd kv)) d
  | _ => []
  end.

Section CellNotions.
Context `{CO : Collaborators}.

(** The loop of [json_helper] over the items of a dictionary (lines
    346-347). *)
Definition json_items (artifact : nat)
  : list (Key * Value) -> PyDict Value -> W (PyDict Value) :=
  fix items (d : list (Key * Value)) (res : PyDict Value) : W (PyDict Value) :=
    match d with
    | [] => ret_w res
    | (key, v) :: rest =>
        j <~ json_helper artifact v ;;
        items rest (dict_set res key j)
    end.

End CellNotions.
(** * Properties *)

(** ** Keys, dictionaries, slices *)

Lemma Key_eqb_eq (a b : Key) : Key_eqb a b = true <-> a = b.
Proof.
  destruct a as [s|z], b as [s'|z']; simpl; split; intro E;
    try discriminate; try (inversion E; subst).
  - apply String.eqb_eq in E. now subst.
  - apply String.eqb_refl.
  - apply Z.eqb_eq in E. now subst.
  - apply Z.eqb_refl.
Qed.

Lemma Key_eqb_refl (a : Key) : Key_eqb a a = true.
Proof. now apply Key_eqb_eq. Qed.

Lemma keys_eqb_eq (l l' : list Key) : list_eqb Key_eqb l l' = true <-> l = l'.
Proof.
  revert l'; induction l as [|x r IH]; intros [|y r']; simpl; split; intro E;
    try discriminate; try reflexivity.
  - apply andb_true_iff in E as [E1 E2].
    apply Key_eqb_eq in E1. apply IH in E2. now subst.
  - inversion E; subst. rewrite Key_eqb_refl. simpl. now apply IH.
Qed.

Lemma nth_error_lt {A : Type} (l : list A) (n : nat) (x : A) :
  nth_error l n = Some x -> n < length l.
Proof. intro E. apply nth_error_Some. congruence. Qed.

Lemma row_dict_from_combine (cols : list Key) :
  forall (pre cells : list Value) (acc : PyDict Value),
    length cells = length cols ->
    row_dict_from (length pre) cols (pre ++ cells) acc
    = Ok (dict_update acc (combine cols cells)).
Proof.
  induction cols as [|c cols IH]; intros pre cells acc L.
  - destruct cells; [reflexivity | discriminate].
  - destruct cells as [|v cells]; [discriminate|].
    simpl. rewrite nth_error_app2 by lia. rewrite Nat.sub_diag. simpl.
    replace (pre ++ v :: cells) with ((pre ++ [v]) ++ cells)
      by (rewrite <- app_assoc; reflexivity).
    replace (S (length pre)) with (length (pre ++ [v]))
      by (rewrite length_app; simpl; lia).
    rewrite IH by (simpl in L; lia). reflexivity.
Qed.

Lemma row_dict_combine (cols : list Key) (cells : list Value) :
  length cells = length cols ->
  row_dict cols cells = Ok (dict_update [] (combine cols cells)).
Proof.
  intro L. unfold row_dict.
  exact (row_dict_from_combine cols [] cells [] L).
Qed.

(** ** Table.add_data and Table.cast *)

Section TableFacts.
Context {WBType Media : Type}.
Context `{DT : Dtypes WBType} `{MB : MediaBase Media} `{CO : Collaborators}.

Local Abbreviation Tbl := (@Table WBType Media).

(** C1.  [add_data] on a row of the wrong length raises the shape error
    and leaves the table as it was; on a row of the right length whose
    column-name -> cell mapping narrows the column types to Invalid it
    raises the type error with the [explain] diagnostic and leaves the table
    as it was; otherwise it appends the row and keeps the narrowed
    descriptor as the column types. *)
Theorem add_data_outcomes (t : Tbl) (cells : list Value) :
  let mapping := VDict (dict_update [] (combine (columns t) cells)) in
  (length cells <> length (columns t) ->
     add_data cells t
     = (Raise (ValueError (MsgExpectsColumns (length (columns t)) (columns t))), t))
  /\ (length cells = length (columns t) ->
      isInvalid (assign (_column_types t) mapping) = true ->
      add_data cells t
      = (Raise (TypeError (MsgIncompatibleRow (explain (_column_types t) mapping))),
         t))
  /\ (length cells = length (columns t) ->
      isInvalid (assign (_column_types t) mapping) = false ->
      add_data cells t
      = (Ok tt, mkTable (columns t) (data t ++ [cells])
                        (assign (_column_types t) mapping) (media t))).
Proof.
  cbv zeta. repeat split.
  - intro L. unfold add_data, bind, get, raise.
    apply Nat.eqb_neq in L. now rewrite L.
  - intros L Inv. unfold add_data, _validate_data, bind, get, raise, lift.
    rewrite (proj2 (Nat.eqb_eq _ _) L). simpl.
    rewrite (row_dict_combine _ _ L). now rewrite Inv.
  - intros L Val. unfold add_data, _validate_data, bind, get, put, lift.
    rewrite (proj2 (Nat.eqb_eq _ _) L). simpl.
    rewrite (row_dict_combine _ _ L). now rewrite Val.
Qed.

Lemma list_index_lt (x : Key) (l : list Key) (n : nat) :
  list_index x l = Some n -> n < length l.
Proof.
  revert n; induction l as [|y r IH]; intros n E; simpl in *; [discriminate|].
  destruct (Key_eqb y x).
  - inversion E. lia.
  - destruct (list_index x r) as [m|]; [|discriminate].
    inversion E. specialize (IH m eq_refl). lia.
Qed.

Lemma cast_rows_raises (col_ndx : nat) :
  forall (rows : list (list Value)) (wbtype : WBType) (k : nat) (v : Value),
    (forall row, In row rows -> col_ndx < length row) ->
    nth_error (column_values col_ndx rows) k = Some v ->
    isInvalid (assign (fold_left assign (firstn k (column_values col_ndx rows)) wbtype) v)
    = true ->
    exists m, cast_rows col_ndx wbtype rows = Raise (TypeError m).
Proof.
  induction rows as [|row rows IH]; intros wbtype k v Len Nth Inv.
  - destruct k; discriminate.
  - assert (L : col_ndx < length row) by (apply Len; now left).
    destruct (nth_error row col_ndx) as [x|] eqn:Ex;
      [|apply nth_error_None in Ex; lia].
    unfold column_values in Nth, Inv. simpl in Nth, Inv. rewrite Ex in Nth, Inv.
    simpl in Nth, Inv. simpl. rewrite Ex.
    destruct (isInvalid (assign wbtype x)) eqn:Ix; [eauto|].
    destruct k as [|k].
    + simpl in Nth, Inv. inversion Nth; subst. congruence.
    + simpl in Nth, Inv.
      apply (IH (assign wbtype x) k v); auto.
      intros r Hr. apply Len. now right.
Qed.

Lemma cast_rows_keeps (col_name : Key) (dtype : WBType + Value) (optional : bool)
    (t : Tbl) :
  data (snd (cast col_name dtype optional t)) = data t
  /\ columns (snd (cast col_name dtype optional t)) = columns t.
Proof.
  unfold cast, bind, lift, get, put, raise, ret.
  destruct (type_from_dtype dtype); simpl; auto.
  destruct (list_index col_name (columns t)); simpl; auto.
  destruct (cast_rows _ _ _); simpl; auto.
  destruct (type_map_set _ _ _); simpl; auto.
Qed.

(** C6.  [cast] keeps every row, whatever it returns or raises; and when
    the table has a value in that column which the descriptor, narrowed by
    the values of the rows before it, does not accept, [cast] raises the
    type error and the table, its column types included, is as it was. *)
Theorem cast_incompatible (t : Tbl) (col_name : Key) (dtype : WBType + Value)
    (optional : bool) :
  data (snd (cast col_name dtype optional t)) = data t
  /\ forall (wbtype : WBType) (col_ndx k : nat) (v : Value),
      well_shaped t ->
      type_from_dtype dtype = Ok wbtype ->
      list_index col_name (columns t) = Some col_ndx ->
      let fresh := if optional then OptionalType wbtype else wbtype in
      let vals := column_values col_ndx (data t) in
      nth_error vals k = Some v ->
      isInvalid (assign (fold_left assign (firstn k vals) fresh) v) = true ->
      exists m, cast col_name dtype optional t = (Raise (TypeError m), t).
Proof.
  split; [apply cast_rows_keeps|].
  intros wbtype col_ndx k v WS Ty Ix fresh vals Nth Inv.
  assert (Len : forall row, In row (data t) -> col_ndx < length row).
  { intros row Hr. rewrite (WS row Hr). eapply list_index_lt; eauto. }
  destruct (@cast_rows_raises col_ndx (data t) fresh k v Len Nth Inv) as [m Hm].
  exists m. unfold cast, bind, lift, get, raise.
  rewrite Ty. simpl. rewrite Ix. fold fresh. now rewrite Hm.
Qed.
End TableFacts.

(** ** Table.__eq__ *)

Section TableEquality.
Context {WBType Media : Type}.
Context `{DT : Dtypes WBType} `{CO : Collaborators}.

Local Abbreviation Tbl := (@Table WBType Media).

(** The inner loop, on positions that exist in both rows: it falls
    through, and the cells were all found equal; or it returns [False] at
    two cells that differ; or it raises what the comparison of two cells
    raised. *)
Lemma eq_cols_cases (row other_row : list Value) (col_ndxs : list nat) :
  (forall j, In j col_ndxs -> j < length row /\ j < length other_row) ->
  (eq_cols row other_row col_ndxs = Ok None
   /\ forall j a b, In j col_ndxs -> nth_error row j = Some a ->
                    nth_error other_row j = Some b -> value_ne a b = Ok false)
  \/ (eq_cols row other_row col_ndxs = Ok (Some false)
      /\ exists j a b, In j col_ndxs /\ nth_error row j = Some a /\
                       nth_error other_row j = Some b /\ value_ne a b = Ok true)
  \/ (exists e j a b,
         eq_cols row other_row col_ndxs = Raise e
         /\ In j col_ndxs /\ nth_error row j = Some a /\
         nth_error other_row j = Some b /\ value_ne a b = Raise e).
Proof.
  induction col_ndxs as [|j js IH]; intro R.
  - left. split; [reflexivity|]. intros j a b [].
  - destruct (R j (or_introl eq_refl)) as [R1 R2].
    destruct (nth_error row j) as [a|] eqn:Ea;
      [|apply nth_error_None in Ea; lia].
    destruct (nth_error other_row j) as [b|] eqn:Eb;
      [|apply nth_error_None in Eb; lia].
    simpl. rewrite Ea, Eb.
    destruct (value_ne a b) as [[|]|e] eqn:Ne.
    + right; left. split; [reflexivity|]. exists j, a, b. simpl. auto.
    + destruct IH as [[E A]|[[E (j' & a' & b' & I & A)]
                            |(e & j' & a' & b' & E & I & A)]].
      * intros j' Hj. apply R. now right.
      * left. split; [exact E|].
        intros j' a' b' [<-|I] Ha Hb.
        -- congruence.
        -- eapply A; eauto.
      * right; left. split; [exact E|]. exists j', a', b'. simpl. tauto.
      * right; right. exists e, j', a', b'. simpl. tauto.
    + right; right. exists e, j, a, b. simpl. auto.
Qed.

Lemma eq_rows_cases (rows other_rows : list (list Value)) (row_ndxs : list nat) :
  (forall i, In i row_ndxs ->
             exists r r', nth_error rows i = Some r /\
                          nth_error other_rows i = Some r' /\
                          length r = length r') ->
  (eq_rows rows other_rows row_ndxs = Ok true
   /\ forall i j r r' a b,
       In i row_ndxs -> nth_error rows i = Some r ->
       nth_error other_rows i = Some r' ->
       nth_error r j = Some a -> nth_error r' j = Some b ->
       value_ne a b = Ok false)
  \/ (eq_rows rows other_rows row_ndxs = Ok false
      /\ exists i j r r' a b,
          In i row_ndxs /\ nth_error rows i = Some r /\
          nth_error other_rows i = Some r' /\
          nth_error r j = Some a /\ nth_error r' j = Some b /\
          value_ne a b = Ok true)
  \/ (exists e i j r r' a b,
         eq_rows rows other_rows row_ndxs = Raise e
         /\ In i row_ndxs /\ nth_error rows i = Some r /\
         nth_error other_rows i = Some r' /\
         nth_error r j = Some a /\ nth_error r' j = Some b /\
         value_ne a b = Raise e).
Proof.
  induction row_ndxs as [|i is_ IH]; intro R.
  - left. split; [reflexivity|]. intros i j r r' a b [].
  - destruct (R i (or_introl eq_refl)) as (r & r' & Er & Er' & L).
    simpl. rewrite Er, Er'.
    destruct (eq_cols_cases r r' (seq 0 (length r)))
      as [[E A]|[[E (j & a & b & I & Ha & Hb & Ne)]
                |(e & j & a & b & E & I & Ha & Hb & Ne)]].
    + intros j Hj. apply in_seq in Hj. lia.
    + rewrite E.
      destruct IH as [[E' A']|[[E' (i' & j' & q & q' & a & b & I & H)]
                              |(e & i' & j' & q & q' & a & b & E' & I & H)]].
      * intros i' Hi. apply R. now right.
      * left. split; [exact E'|].
        intros i' j q q' a b [<-|I] Hq Hq' Ha Hb.
        -- assert (q = r) by congruence. assert (q' = r') by congruence. subst.
           apply (A j a b); auto.
           apply in_seq. apply nth_error_lt in Ha. lia.
        -- eapply A'; eauto.
      * right; left. split; [exact E'|]. exists i', j', q, q', a, b. simpl. tauto.
      * right; right. exists e, i', j', q, q', a, b. simpl. tauto.
    + rewrite E. right; left. split; [reflexivity|].
      exists i, j, r, r', a, b. simpl. tauto.
    + rewrite E. right; right. exists e, i, j, r, r', a, b. simpl. tauto.
Qed.

Lemma eq_cols_not_true (row other_row : list Value) (col_ndxs : list nat) :
  eq_cols row other_row col_ndxs <> Ok (Some true).
Proof.
  induction col_ndxs as [|j js IH]; simpl; [discriminate|].
  destruct (nth_error row j) as [a|]; [|discriminate].
  destruct (nth_error other_row j) as [b|]; [|discriminate].
  destruct (value_ne a b) as [[|]|e]; [discriminate | exact IH | discriminate].
Qed.

(** The inner loop falls through exactly when every position it visits has
    a cell in both rows and the two are found equal. *)
Lemma eq_cols_none_iff (row other_row : list Value) (col_ndxs : list nat) :
  eq_cols row other_row col_ndxs = Ok None <->
  forall j, In j col_ndxs ->
            exists a b, nth_error row j = Some a /\ nth_error other_row j = Some b
                        /\ value_ne a b = Ok false.
Proof.
  induction col_ndxs as [|j js IH]; simpl.
  - split; [intros _ j [] | reflexivity].
  - destruct (nth_error row j) as [a|] eqn:Ea.
    2:{ split; [discriminate|]. intro H.
        destruct (H j (or_introl eq_refl)) as (a & b & Ha & _). congruence. }
    destruct (nth_error other_row j) as [b|] eqn:Eb.
    2:{ split; [discriminate|]. intro H.
        destruct (H j (or_introl eq_refl)) as (a' & b & _ & Hb & _). congruence. }
    destruct (value_ne a b) as [[|]|e] eqn:Ne.
    + split; [discriminate|]. intro H.
      destruct (H j (or_introl eq_refl)) as (a' & b' & Ha & Hb & Ne').
      congruence.
    + rewrite IH. split.
      * intros H j' [<-|I]; [exists a, b; auto | now apply H].
      * intros H j' I. apply H. now right.
    + split; [discriminate|]. intro H.
      destruct (H j (or_introl eq_refl)) as (a' & b' & Ha & Hb & Ne').
      congruence.
Qed.

Lemma eq_rows_true_iff (rows other_rows : list (list Value)) (row_ndxs : list nat) :
  eq_rows rows other_rows row_ndxs = Ok true <->
  forall i, In i row_ndxs ->
            exists r r', nth_error rows i = Some r /\ nth_error other_rows i = Some r'
                         /\ eq_cols r r' (seq 0 (length r)) = Ok None.
Proof.
  induction row_ndxs as [|i is_ IH]; simpl.
  - split; [intros _ i [] | reflexivity].
  - destruct (nth_error rows i) as [r|] eqn:Er.
    2:{ split; [discriminate|]. intro H.
        destruct (H i (or_introl eq_refl)) as (r & r' & Hr & _). congruence. }
    destruct (nth_error other_rows i) as [r'|] eqn:Er'.
    2:{ split; [discriminate|]. intro H.
        destruct (H i (or_introl eq_refl)) as (q & q' & _ & Hq' & _). congruence. }
    destruct (eq_cols r r' (seq 0 (length r))) as [[[|]|]|e] eqn:Ec.
    + exfalso. exact (eq_cols_not_true _ _ _ Ec).
    + split; [discriminate|]. intro H.
      destruct (H i (or_introl eq_refl)) as (q & q' & Hq & Hq' & E).
      congruence.
    + rewrite IH. split.
      * intros H i' [<-|I]; [exists r, r'; auto | now apply H].
      * intros H i' I. apply H. now right.
    + split; [discriminate|]. intro H.
      destruct (H i (or_introl eq_refl)) as (q & q' & Hq & Hq' & E).
      congruence.
Qed.

(** The inner loop stops at the first position whose cells are not found
    equal: with [False] when they differ, with the exception when their
    comparison raises. *)
Lemma eq_cols_first (row other_row : list Value) (pre post : list nat) (j : nat)
    (a b : Value) :
  (forall j', In j' pre ->
              exists a' b', nth_error row j' = Some a' /\
                            nth_error other_row j' = Some b' /\
                            value_ne a' b' = Ok false) ->
  nth_error row j = Some a -> nth_error other_row j = Some b ->
  value_ne a b <> Ok false ->
  eq_cols row other_row (pre ++ j :: post)
  = match value_ne a b with
    | Ok _ => Ok (Some false)
    | Raise e => Raise e
    end.
Proof.
  intros P Ha Hb Ne. induction pre as [|j' pre IH]; simpl.
  - rewrite Ha, Hb. destruct (value_ne a b) as [[|]|e]; congruence.
  - destruct (P j' (or_introl eq_refl)) as (a' & b' & Ha' & Hb' & E).
    rewrite Ha', Hb', E. apply IH. intros j'' I. apply P. now right.
Qed.

Lemma eq_rows_first (rows other_rows : list (list Value)) (pre post : list nat)
    (i : nat) (r r' : list Value) :
  (forall i', In i' pre ->
              exists q q', nth_error rows i' = Some q /\
                           nth_error other_rows i' = Some q' /\
                           eq_cols q q' (seq 0 (length q)) = Ok None) ->
  nth_error rows i = Some r -> nth_error other_rows i = Some r' ->
  eq_cols r r' (seq 0 (length r)) <> Ok None ->
  eq_rows rows other_rows (pre ++ i :: post)
  = match eq_cols r r' (seq 0 (length r)) with
    | Ok _ => Ok false
    | Raise e => Raise e
    end.
Proof.
  intros P Hr Hr' Ne. induction pre as [|i' pre IH]; simpl.
  - rewrite Hr, Hr'.
    destruct (eq_cols r r' (seq 0 (length r))) as [[[|]|]|e] eqn:E;
      try reflexivity; try congruence.
    exfalso. exact (eq_cols_not_true _ _ _ E).
  - destruct (P i' (or_introl eq_refl)) as (q & q' & Hq & Hq' & E).
    rewrite Hq, Hq', E. apply IH. intros i'' I. apply P. now right.
Qed.

Lemma seq_split (n i : nat) :
  i < n -> seq 0 n = seq 0 i ++ i :: seq (S i) (n - S i).
Proof.
  intro L. replace n with (i + S (n - S i)) at 1 by lia.
  rewrite seq_app. reflexivity.
Qed.

(** [t1 == t2] is [True] exactly when the headers agree and every cell of
    [t1] has at its place in [t2] a cell it is found equal to. *)
Lemma Table_eq_true_iff (t1 t2 : Tbl) :
  Table_eq t1 t2 = Ok true <->
  columns t1 = columns t2
  /\ type_ne (_column_types t1) (_column_types t2) = false
  /\ length (data t1) = length (data t2)
  /\ forall i j a, cell t1 i j = Some a ->
                   exists b, cell t2 i j = Some b /\ value_ne a b = Ok false.
Proof.
  unfold Table_eq.
  destruct (Nat.eqb_spec (length (data t1)) (length (data t2))) as [L|L]; simpl.
  2:{ split; [discriminate|]. intros (_ & _ & L' & _). contradiction. }
  destruct (list_eqb Key_eqb (columns t1) (columns t2)) eqn:C; simpl.
  2:{ split; [discriminate|].
      intros (C' & _). apply keys_eqb_eq in C'. congruence. }
  apply keys_eqb_eq in C.
  destruct (type_ne (_column_types t1) (_column_types t2)) eqn:Tn.
  { split; [discriminate|]. intros (_ & Tn' & _). discriminate. }
  rewrite eq_rows_true_iff. split.
  + intro H. repeat split; auto.
    intros i j a Ha. unfold cell in *.
    destruct (nth_error (data t1) i) as [r|] eqn:Er; [|discriminate].
    destruct (H i) as (q & q' & Hq & Hq' & E).
    { apply in_seq. apply nth_error_lt in Er. lia. }
    assert (q = r) by congruence. subst q. rewrite Hq'.
    destruct (proj1 (eq_cols_none_iff _ _ _) E j) as (a' & b & Ha' & Hb & Ne).
    { apply in_seq. apply nth_error_lt in Ha. lia. }
    exists b. split; [exact Hb | congruence].
  + intros (_ & _ & _ & H) i Hi. apply in_seq in Hi.
    destruct (nth_error (data t1) i) as [r|] eqn:Er;
      [|apply nth_error_None in Er; lia].
    destruct (nth_error (data t2) i) as [r'|] eqn:Er';
      [|apply nth_error_None in Er'; lia].
    exists r, r'. repeat split. apply eq_cols_none_iff.
    intros j Hj. apply in_seq in Hj.
    destruct (nth_error r j) as [a|] eqn:Ea;
      [|apply nth_error_None in Ea; lia].
    destruct (H i j a) as (b & Hb & Ne).
    { unfold cell. now rewrite Er. }
    unfold cell in Hb. rewrite Er' in Hb. exists a, b. auto.
Qed.

(** C7.  [t1 == t2] is [True] exactly when the column sequences are the
    same, the column-type descriptors are not different ([!=]), the numbers
    of rows are the same and every cell of [t1] has at its place in [t2] a
    cell whose comparison with it ([!=], the cells' own) says they are equal.
    Otherwise the comparison of tables whose rows have one cell per column
    returns [False], or it raises what the comparison of two of their cells
    raised; which of the two is decided by the first pair of cells, row by
    row and column by column, that is not found equal: [False] when the two
    differ, the exception when their comparison raises. *)
Theorem Table_eq_iff (t1 t2 : Tbl) :
  (Table_eq t1 t2 = Ok true <->
   columns t1 = columns t2
   /\ type_ne (_column_types t1) (_column_types t2) = false
   /\ length (data t1) = length (data t2)
   /\ forall i j a, cell t1 i j = Some a ->
                    exists b, cell t2 i j = Some b /\ value_ne a b = Ok false)
  /\ (well_shaped t1 -> well_shaped t2 ->
      Table_eq t1 t2 = Ok true \/ Table_eq t1 t2 = Ok false
      \/ exists i j a b e,
           cell t1 i j = Some a /\ cell t2 i j = Some b
           /\ value_ne a b = Raise e /\ Table_eq t1 t2 = Raise e)
  /\ (forall i j a b,
         columns t1 = columns t2 ->
         type_ne (_column_types t1) (_column_types t2) = false ->
         length (data t1) = length (data t2) ->
         (forall i' j' a',
             i' < i \/ (i' = i /\ j' < j) ->
             cell t1 i' j' = Some a' ->
             exists b', cell t2 i' j' = Some b' /\ value_ne a' b' = Ok false) ->
         cell t1 i j = Some a -> cell t2 i j = Some b ->
         value_ne a b <> Ok false ->
         Table_eq t1 t2 = match value_ne a b with
                          | Ok _ => Ok false
                          | Raise e => Raise e
                          end).
Proof.
  split; [exact (Table_eq_true_iff t1 t2)|split].
  - intros W1 W2. unfold Table_eq.
    destruct (Nat.eqb_spec (length (data t1)) (length (data t2))) as [L|L]; simpl;
      [|now right; left].
    destruct (list_eqb Key_eqb (columns t1) (columns t2)) eqn:C; simpl;
      [|now right; left].
    apply keys_eqb_eq in C.
    destruct (type_ne (_column_types t1) (_column_types t2)) eqn:Tn;
      [now right; left|].
    assert (R : forall i, In i (seq 0 (length (data t1))) ->
                exists r r', nth_error (data t1) i = Some r /\
                             nth_error (data t2) i = Some r' /\
                             length r = length r').
    { intros i Hi. apply in_seq in Hi.
      destruct (nth_error (data t1) i) as [r|] eqn:E1;
        [|apply nth_error_None in E1; lia].
      destruct (nth_error (data t2) i) as [r'|] eqn:E2;
        [|apply nth_error_None in E2; lia].
      exists r, r'. repeat split.
      rewrite (W1 r (nth_error_In _ _ E1)), (W2 r' (nth_error_In _ _ E2)).
      now rewrite C. }
    destruct (eq_rows_cases (data t1) (data t2) _ R)
      as [[E _]|[[E _]|(e & i & j & r & r' & a & b & E & _ & Hr & Hr' & Ha & Hb & Ne)]].
    + now left.
    + now right; left.
    + right; right. exists i, j, a, b, e. unfold cell. rewrite Hr, Hr'. auto.
  - intros i j a b C Tn L Before Ha Hb Ne. unfold Table_eq.
    rewrite L, Nat.eqb_refl, (proj2 (keys_eqb_eq _ _) C), Tn. simpl.
    unfold cell in Ha, Hb.
    destruct (nth_error (data t1) i) as [r|] eqn:Er; [|discriminate].
    destruct (nth_error (data t2) i) as [r'|] eqn:Er'; [|discriminate].
    assert (Li : i < length (data t2)) by (apply nth_error_lt in Er'; exact Er').
    assert (Lj : j < length r) by (apply nth_error_lt in Ha; exact Ha).
    assert (Ec : eq_cols r r' (seq 0 (length r))
                 = match value_ne a b with
                   | Ok _ => Ok (Some false)
                   | Raise e => Raise e
                   end).
    { rewrite (seq_split Lj). apply eq_cols_first; auto.
      intros j' I. apply in_seq in I.
      destruct (nth_error r j') as [a'|] eqn:Ea';
        [|apply nth_error_None in Ea'; lia].
      destruct (Before i j' a') as (b' & Hb' & E').
      { right. lia. }
      { unfold cell. now rewrite Er. }
      unfold cell in Hb'. rewrite Er' in Hb'. exists a', b'. auto. }
    rewrite (seq_split Li).
    rewrite (@eq_rows_first (data t1) (data t2) (seq 0 i) _ i r r'); auto.
    + rewrite Ec. destruct (value_ne a b) as [[|]|e]; reflexivity.
    + intros i' I. apply in_seq in I.
      destruct (nth_error (data t1) i') as [q|] eqn:Eq;
        [|apply nth_error_None in Eq; lia].
      destruct (nth_error (data t2) i') as [q'|] eqn:Eq';
        [|apply nth_error_None in Eq'; lia].
      exists q, q'. repeat split. apply eq_cols_none_iff.
      intros j' Ij. apply in_seq in Ij.
      destruct (nth_error q j') as [a'|] eqn:Ea';
        [|apply nth_error_None in Ea'; lia].
      destruct (Before i' j' a') as (b' & Hb' & E').
      { left. lia. }
      { unfold cell. now rewrite Eq. }
      unfold cell in Hb'. rewrite Eq' in Hb'. exists a', b'. auto.
    + rewrite Ec. destruct (value_ne a b) as [[|]|e]; congruence.
Qed.

End TableEquality.

(** ** Serialization: Table.to_json and Table._to_table_json *)

Lemma dict_get_set {V : Type} (d : PyDict V) (k k' : Key) (v : V) :
  dict_get (dict_set d k v) k' = if Key_eqb k k' then Some v else dict_get d k'.
Proof.
  induction d as [|[k0 v0] d IH]; simpl.
  - reflexivity.
  - destruct (Key_eqb k0 k) eqn:E0; simpl.
    + apply Key_eqb_eq in E0. subst k0.
      destruct (Key_eqb k k'); reflexivity.
    + rewrite IH. destruct (Key_eqb k0 k') eqn:E1; [|reflexivity].
      apply Key_eqb_eq in E1. subst k0.
      destruct (Key_eqb k k') eqn:E2; [|reflexivity].
      apply Key_eqb_eq in E2. subst k'. rewrite Key_eqb_refl in E0. discriminate.
Qed.

Lemma py_slice_to_firstn {A : Type} (l : list A) (stop : Z) :
  (0 <= stop)%Z -> py_slice_to l stop = firstn (Z.to_nat stop) l.
Proof.
  intro P. unfold py_slice_to.
  destruct (Z.ltb_spec stop 0) as [N|_]; [lia|].
  destruct (Z.le_ge_cases stop (Z.of_nat (length l))) as [Le|Ge].
  - now rewrite Z.min_l.
  - rewrite Z.min_r by lia. rewrite Nat2Z.id.
    rewrite firstn_all. symmetry. apply firstn_all2. lia.
Qed.

Lemma map_r_length {A B : Type} (f : A -> Result B) (xs : list A) (ys : list B) :
  map_r f xs = Ok ys -> length ys = length xs.
Proof.
  revert ys; induction xs as [|x r IH]; intros ys E; simpl in E.
  - inversion E. reflexivity.
  - destruct (f x); [|discriminate].
    destruct (map_r f r) as [ys'|]; [|discriminate].
    inversion E. simpl. now rewrite (IH ys' eq_refl).
Qed.


(** The events of a logging computation that returns. *)
Lemma map_w_ok {A B : Type} (f : A -> W B) (xs : list A) (ys : list B) :
  fst (map_w f xs) = Ok ys -> map_w f xs = (Ok ys, snd (map_w f xs)).
Proof. intro E. rewrite <- E. now destruct (map_w f xs). Qed.

Section Serialization.
Context {WBType Media : Type}.
Context `{DT : Dtypes WBType} `{MB : MediaBase Media} `{CO : Collaborators}.

Local Abbreviation Tbl := (@Table WBType Media).

Lemma check_columns_ok (cols : list Key) :
  no_period cols -> for_each_w cols check_column = (Ok tt, []).
Proof.
  induction cols as [|c cols IH]; intro NP; [reflexivity|].
  simpl. assert (E : check_column c = (Ok tt, [])).
  { destruct c as [s|z]; simpl; [|reflexivity].
    rewrite (NP s); [reflexivity | now left]. }
  rewrite E. simpl. rewrite IH; [reflexivity|].
  intros s Hs. apply NP. now right.
Qed.

Lemma check_columns_period (cols : list Key) (s : string) :
  In (KStr s) cols -> contains_period s = true ->
  exists s', In (KStr s') cols /\ contains_period s' = true /\
             for_each_w cols check_column
             = (Raise (ValueError (MsgInvalidColumnName s')), []).
Proof.
  induction cols as [|c cols IH]; intros I P; [destruct I|].
  simpl. destruct c as [s0|z]; simpl.
  - destruct (contains_period s0) eqn:P0.
    + exists s0. simpl. auto.
    + destruct I as [E|I]; [inversion E; congruence|].
      destruct (IH I P) as (s' & I' & P' & E). exists s'.
      rewrite E. simpl. auto.
  - destruct I as [E|I]; [discriminate|].
    destruct (IH I P) as (s' & I' & P' & E). exists s'.
    rewrite E. simpl. auto.
Qed.

Lemma to_json_run (t : Tbl) (run : nat) (base : PyDict Value) :
  Media_to_json TableClass (media t) (DRun run) = Ok base ->
  to_json t (DRun run)
  = (Ok (dict_update base (run_fields t)), [EvMediaToJson (DRun run)]).
Proof. intro B. unfold to_json. simpl. rewrite B. reflexivity. Qed.

Lemma to_json_other (t : Tbl) (h : nat) (base : PyDict Value) :
  Media_to_json TableClass (media t) (DOther h) = Ok base ->
  to_json t (DOther h)
  = (Raise (ValueError MsgToJsonAccepts), [EvMediaToJson (DOther h)]).
Proof. intro B. unfold to_json. simpl. rewrite B. reflexivity. Qed.

Lemma _to_table_json_eq (t : Tbl) (max_rows : Z) :
  _to_table_json t (Some max_rows)
  = (Ok (mkTableJson (columns t) (py_slice_to (data t) max_rows)),
     truncation_warning t max_rows).
Proof.
  unfold _to_table_json, truncation_warning.
  destruct (Z.of_nat (length (data t)) >? max_rows)%Z; reflexivity.
Qed.

Lemma to_json_artifact (t : Tbl) (artifact : nat) (base : PyDict Value)
    (mapped_data : list (list Value)) (column_types : Value) :
  Media_to_json TableClass (media t) (DArtifact artifact) = Ok base ->
  no_period (columns t) ->
  fst (map_w (map_w (json_helper artifact))
             (py_slice_to (data t) MAX_ARTIFACT_ROWS)) = Ok mapped_data ->
  type_to_json (_column_types t) artifact = Ok column_types ->
  to_json t (DArtifact artifact)
  = (Ok (dict_update base (artifact_fields t mapped_data column_types)),
     [EvMediaToJson (DArtifact artifact)]
     ++ truncation_warning t MAX_ARTIFACT_ROWS
     ++ snd (map_w (map_w (json_helper artifact))
                   (py_slice_to (data t) MAX_ARTIFACT_ROWS))
     ++ [EvTypeToJson artifact]).
Proof.
  intros B NP Cells Ty. unfold to_json. simpl. rewrite B. simpl.
  rewrite (check_columns_ok NP). simpl.
  rewrite _to_table_json_eq. simpl.
  rewrite (map_w_ok _ _ Cells). simpl. rewrite Ty. simpl.
  reflexivity.
Qed.
End Serialization.

Lemma dict_get_app {V : Type} (a b : PyDict V) (k : Key) :
  dict_get (a ++ b) k = match dict_get a k with
                        | Some v => Some v
                        | None => dict_get b k
                        end.
Proof.
  induction a as [|[k0 v0] a IH]; simpl; [reflexivity|].
  destruct (Key_eqb k0 k); [reflexivity | exact IH].
Qed.

(** After [d.update(u)] a key has the value [u] gives it last, and its value
    in [d] when [u] has none. *)
Lemma dict_get_update {V : Type} (u d : PyDict V) (k : Key) :
  dict_get (dict_update d u) k = match dict_get (rev u) k with
                                 | Some v => Some v
                                 | None => dict_get d k
                                 end.
Proof.
  unfold dict_update. revert d; induction u as [|[k0 v0] u IH]; intro d; simpl.
  - reflexivity.
  - rewrite IH, dict_get_app, dict_get_set. simpl.
    destruct (dict_get (rev u) k); [reflexivity|].
    destruct (Key_eqb k0 k); reflexivity.
Qed.

Lemma dict_get_rev_none {V : Type} (u : PyDict V) (k : Key) :
  dict_get u k = None -> dict_get (rev u) k = None.
Proof.
  induction u as [|[k0 v0] u IH]; simpl; [reflexivity|].
  destruct (Key_eqb k0 k) eqn:E; [discriminate|].
  intro N. rewrite dict_get_app, (IH N). simpl. now rewrite E.
Qed.

(** A field that [update] has just set. *)
Ltac updated_field := rewrite dict_get_update; reflexivity.

Section SerializationClaims.
Context {WBType Media : Type}.
Context `{DT : Dtypes WBType} `{MB : MediaBase Media} `{CO : Collaborators}.

Local Abbreviation Tbl := (@Table WBType Media).

(** C8, as amended.  When the [Media] base class returns its fields:
    toward a run, [to_json] returns them with [_type] "table-file", [ncols]
    and [nrows] (the number of rows of the table); toward an artifact, when
    no column name of type [str] has a period and the kept cells and the
    column types serialize, it returns them with [_type] "table", [columns],
    [data], [ncols], [nrows] and [column_types]; toward anything else it
    raises the ValueError "to_json accepts ...". *)
Theorem to_json_shapes (t : Tbl) :
  (forall run base,
      Media_to_json TableClass (media t) (DRun run) = Ok base ->
      exists json,
        fst (to_json t (DRun run)) = Ok json
        /\ dict_get json (KStr "_type") = Some (VStr "table-file")
        /\ dict_get json (KStr "ncols") = Some (VInt (Z.of_nat (length (columns t))))
        /\ dict_get json (KStr "nrows") = Some (VInt (Z.of_nat (length (data t))))
        /\ forall k, dict_get (run_fields t) k = None ->
                     dict_get json k = dict_get base k)
  /\ (forall artifact base mapped_data column_types,
         Media_to_json TableClass (media t) (DArtifact artifact) = Ok base ->
         no_period (columns t) ->
         fst (map_w (map_w (json_helper artifact))
                    (py_slice_to (data t) MAX_ARTIFACT_ROWS)) = Ok mapped_data ->
         type_to_json (_column_types t) artifact = Ok column_types ->
         exists json,
           fst (to_json t (DArtifact artifact)) = Ok json
           /\ dict_get json (KStr "_type") = Some (VStr "table")
           /\ dict_get json (KStr "columns")
              = Some (VList (map key_value (columns t)))
           /\ dict_get json (KStr "data") = Some (VList (map VList mapped_data))
           /\ dict_get json (KStr "ncols")
              = Some (VInt (Z.of_nat (length (columns t))))
           /\ dict_get json (KStr "nrows")
              = Some (VInt (Z.of_nat (length mapped_data)))
           /\ dict_get json (KStr "column_types") = Some column_types
           /\ forall k, dict_get (artifact_fields t mapped_data column_types) k = None ->
                        dict_get json k = dict_get base k)
  /\ (forall h base,
         Media_to_json TableClass (media t) (DOther h) = Ok base ->
         fst (to_json t (DOther h)) = Raise (ValueError MsgToJsonAccepts)).
Proof.
  split; [|split].
  - intros run base B. rewrite (to_json_run t run B). cbn [fst].
    eexists. split; [reflexivity|].
    repeat (split; [updated_field|]).
    intros k N. rewrite dict_get_update.
    now rewrite (dict_get_rev_none _ _ N).
  - intros artifact base mapped_data column_types B NP Cells Ty.
    rewrite (to_json_artifact t artifact B NP Cells Ty). cbn [fst].
    eexists. split; [reflexivity|].
    repeat (split; [updated_field|]).
    intros k N. rewrite dict_get_update.
    now rewrite (dict_get_rev_none _ _ N).
  - intros h base B. now rewrite (to_json_other t h B).
Qed.

(** C10.  Toward an artifact, a table with a period in a column name of
    type [str] gets no JSON: [to_json] raises, and the only call it has
    made by then is the one to the [Media] base class, which comes first;
    no cell and no column type has been serialized.  When the base class
    returned, the error is the ValueError naming the first such column.
    Toward a run the same table is serialized as any other. *)
Theorem to_json_period_guard (t : Tbl) (s : string) :
  In (KStr s) (columns t) -> contains_period s = true ->
  (forall artifact,
      exists e,
        to_json t (DArtifact artifact)
        = (Raise e, [EvMediaToJson (DArtifact artifact)])
        /\ forall base,
            Media_to_json TableClass (media t) (DArtifact artifact) = Ok base ->
            exists s', In (KStr s') (columns t) /\ contains_period s' = true /\
                       e = ValueError (MsgInvalidColumnName s'))
  /\ (forall run base,
         Media_to_json TableClass (media t) (DRun run) = Ok base ->
         to_json t (DRun run)
         = (Ok (dict_update base (run_fields t)), [EvMediaToJson (DRun run)])).
Proof.
  intros I P. split.
  - intro artifact. unfold to_json. simpl.
    destruct (Media_to_json TableClass (media t) (DArtifact artifact))
      as [base|e] eqn:B; simpl.
    + destruct (check_columns_period _ _ I P) as (s' & I' & P' & E).
      rewrite E. simpl. eexists. split; [reflexivity|].
      intros base' _. exists s'. auto.
    + exists e. split; [reflexivity|]. intros base' B'. discriminate.
  - intros run base B. exact (to_json_run t run B).
Qed.
End SerializationClaims.

(** ** Staging: bind_to_run *)

Section Binding.
Context {WBType Media : Type}.
Context `{DT : Dtypes WBType} `{MB : MediaBase Media} `{CO : Collaborators}.

Local Abbreviation Tbl := (@Table WBType Media).

End Binding.

(** ** Row caps *)

Section RowCaps.
Context {WBType Media : Type}.
Context `{DT : Dtypes WBType} `{MB : MediaBase Media} `{CO : Collaborators}.

Local Abbreviation Tbl := (@Table WBType Media).


End RowCaps.

(** ** Round trip through an artifact: Table.to_json, then Table.from_json *)






Section RoundTrip.
Context {WBType Media : Type}.
Context `{DT : Dtypes WBType} `{MB : MediaBase Media} `{CO : Collaborators}.

Local Abbreviation Tbl := (@Table WBType Media).

Lemma add_data_ok (row : list Value) (t t' : Tbl) :
  add_data row t = (Ok tt, t') ->
  columns t' = columns t /\ data t' = data t ++ [row].
Proof.
  unfold add_data, _validate_data, bind, get, put, raise, lift.
  destruct (negb (length row =? length (columns t))%nat); [discriminate|].
  simpl. destruct (row_dict (columns t) row) as [d|]; [|discriminate].
  destruct (isInvalid (assign (_column_types t) (VDict d))); [discriminate|].
  simpl. intro E. inversion E. simpl. auto.
Qed.

Lemma for_each_add_data (rows : list (list Value)) :
  forall (t t' : Tbl),
    for_each rows add_data t = (Ok tt, t') ->
    columns t' = columns t /\ data t' = data t ++ rows.
Proof.
  induction rows as [|row rows IH]; intros t t' E; simpl in E.
  - inversion E. rewrite app_nil_r. auto.
  - unfold bind in E. destruct (add_data row t) as [[[]|e] t1] eqn:A;
      [|discriminate].
    apply add_data_ok in A as [C D]. apply IH in E as [C' D'].
    rewrite C', D', C, D, <- app_assoc. auto.
Qed.

Lemma for_each_preserves {S A X : Type} (f : S -> X) (body : A -> M S unit) :
  (forall x s, f (snd (body x s)) = f s) ->
  forall l s, f (snd (for_each l body s)) = f s.
Proof.
  intros H l. induction l as [|x l IH]; intro s; simpl; [reflexivity|].
  unfold bind. specialize (H x s).
  destruct (body x s) as [[[]|e] s1]; simpl in *.
  - now rewrite IH.
  - exact H.
Qed.

Lemma cast_column_keeps (c : Key * bool * (WBType + Value)) (t : Tbl) :
  columns (snd (cast_column c t)) = columns t
  /\ data (snd (cast_column c t)) = data t.
Proof.
  destruct c as [[col_name opt] dt]. unfold cast_column, bind, ret.
  destruct (cast_rows_keeps col_name dt opt t) as [D C].
  destruct (cast col_name dt opt t) as [[wb|e] t1]; simpl in *; auto.
Qed.

Lemma Table_new_ok (cols : list Key) (rows : list (list Value)) (nt : Tbl) :
  Table_new cols rows = Ok nt -> columns nt = cols /\ data nt = rows.
Proof.
  unfold Table_new, _init_from_list, _make_column_types.
  unfold bind at 1. unfold get at 1. unfold bind at 1. unfold put at 1.
  unfold bind at 1. unfold bind at 1. unfold get at 1. unfold bind at 1.
  unfold put at 1. cbn [columns data _column_types media set_column_types].
  match goal with
  | |- context [for_each ?l cast_column ?t] =>
      pose proof (for_each_preserves columns cast_column
                    (fun x s => proj1 (cast_column_keeps x s)) l t) as C;
      pose proof (for_each_preserves data cast_column
                    (fun x s => proj2 (cast_column_keeps x s)) l t) as D;
      destruct (for_each l cast_column t) as [[[]|e] t1] eqn:F
  end; [|discriminate].
  simpl in C, D.
  destruct (for_each rows add_data t1) as [[[]|e] t2] eqn:A; [|discriminate].
  intro E. inversion E; subst t2.
  apply for_each_add_data in A as [C' D'].
  rewrite C', D', C, D. auto.
Qed.






End RoundTrip.

(** ** PartitionedTable.iterrows *)

Section PartitionedFacts.
Context {WBType Media : Type}.
Variable artifact_get : nat -> string -> option (@Table WBType Media).

Local Abbreviation Tbl := (@Table WBType Media).
Local Abbreviation Entry := (@PartEntry WBType Media).
Local Abbreviation PT := (@PartitionedTable WBType Media).

Lemma run_halted (fuel : nat) (self : PT) (g : Gen) :
  halted g -> run artifact_get fuel self g = ([], (self, g)).
Proof.
  intro H. destruct fuel; [reflexivity|]. simpl. unfold step.
  destruct g as [c n ctrl]. unfold halted in H. simpl in *.
  destruct ctrl; try contradiction; reflexivity.
Qed.

Lemma run_app (a b : nat) :
  forall (self : PT) (g : Gen),
    run artifact_get (a + b) self g
    = let '(evs, (self', g')) := run artifact_get a self g in
      let '(evs', final) := run artifact_get b self' g' in
      (evs ++ evs', final).
Proof.
  induction a as [|a IH]; intros self g.
  - simpl. now destruct (run artifact_get b self g).
  - simpl. destruct (step artifact_get self g) as [[evs [self1 g1]]|] eqn:St.
    + rewrite IH. destruct (run artifact_get a self1 g1) as [evs1 [self2 g2]].
      destruct (run artifact_get b self2 g2) as [evs2 final].
      now rewrite app_assoc.
    + assert (H : halted g).
      { unfold step in St. unfold halted.
        destruct (gen_ctrl g) as [[|k ps]|k [|row rows] ps| |e]; auto; try discriminate.
        - destruct (dict_get (_loaded_part_entries self) k); [|discriminate].
          destruct (get_part artifact_get p) as [e' [part|]];
            [|discriminate].
          destruct (gen_columns g); [|discriminate].
          destruct (negb _); discriminate.
        - destruct (dict_get (_loaded_part_entries self) k); discriminate. }
      now rewrite (@run_halted b self g H).
Qed.

Lemma yields_app (a b : list PEvent) : yields (a ++ b) = yields a ++ yields b.
Proof. unfold yields. apply flat_map_app. Qed.

Lemma yields_rows (start : Z) (rows : list (list Value)) :
  yields (map yield_event (enumerate_from start rows)) = enumerate_from start rows.
Proof.
  revert start; induction rows as [|row rows IH]; intro start; [reflexivity|].
  simpl. unfold yields in IH. now rewrite IH.
Qed.

Lemma enumerate_from_app (rows rows' : list (list Value)) :
  forall start,
    enumerate_from start (rows ++ rows')
    = enumerate_from start rows
      ++ enumerate_from (start + Z.of_nat (length rows)) rows'.
Proof.
  induction rows as [|row rows IH]; intro start.
  - simpl. now rewrite Z.add_0_r.
  - simpl length. rewrite Nat2Z.inj_succ. simpl. rewrite IH.
    do 3 f_equal. lia.
Qed.

Lemma yields_part_events (parts : list (Key * Tbl)) :
  forall start,
    yields (part_events start parts) = enumerate_from start (all_rows parts).
Proof.
  induction parts as [|[k tbl] parts IH]; intro start; [reflexivity|].
  simpl part_events. unfold all_rows. simpl flat_map.
  change (PLoad k :: ?l) with ([PLoad k] ++ l).
  rewrite yields_app, yields_app.
  change (PFree k :: ?l) with ([PFree k] ++ l).
  rewrite yields_app, yields_rows, IH, enumerate_from_app. reflexivity.
Qed.

(** The indices of an enumeration are [start], [start + 1], ... *)
Lemma enumerate_from_indices (rows : list (list Value)) :
  forall start,
    map fst (enumerate_from start rows)
    = map (fun i => (start + Z.of_nat i)%Z) (seq 0 (length rows)).
Proof.
  induction rows as [|row rows IH]; intro start; [reflexivity|].
  simpl. rewrite Z.add_0_r. f_equal. rewrite IH, <- seq_shift, map_map.
  apply map_ext. intro i. lia.
Qed.

Lemma dict_set_set {V : Type} (d : PyDict V) (k : Key) (v1 v2 : V) :
  dict_set (dict_set d k v1) k v2 = dict_set d k v2.
Proof.
  induction d as [|[k0 v0] d IH]; simpl.
  - now rewrite Key_eqb_refl.
  - destruct (Key_eqb k0 k) eqn:E; simpl; rewrite E; [reflexivity|].
    now rewrite IH.
Qed.

Lemma dict_set_same {V : Type} (d : PyDict V) (k : Key) (v : V) :
  dict_get d k = Some v -> dict_set d k v = d.
Proof.
  induction d as [|[k0 v0] d IH]; simpl; [discriminate|].
  destruct (Key_eqb k0 k) eqn:E.
  - intro H. inversion H. reflexivity.
  - intro H. now rewrite (IH H).
Qed.

Lemma dict_get_in_nodup {V : Type} (d : PyDict V) (k : Key) (v : V) :
  NoDup (map fst d) -> In (k, v) d -> dict_get d k = Some v.
Proof.
  induction d as [|[k0 v0] d IH]; simpl; intros N I; [contradiction|].
  inversion N as [|? ? Nin N']; subst.
  destruct I as [E|I].
  - inversion E; subst. now rewrite Key_eqb_refl.
  - destruct (Key_eqb k0 k) eqn:E.
    + apply Key_eqb_eq in E; subst. exfalso. apply Nin.
      change k with (fst (k, v)). now apply in_map.
    + now apply IH.
Qed.

Lemma run_rows (rows : list (list Value)) :
  forall (self : PT) (c : option (list Key)) (n : Z) (k : Key) (ps : list Key),
    run artifact_get (length rows) self (mkGen c n (InPart k rows ps))
    = (map yield_event (enumerate_from n rows),
       (self, mkGen c (n + Z.of_nat (length rows)) (InPart k [] ps))).
Proof.
  induction rows as [|row rows IH]; intros self c n k ps.
  - simpl. now rewrite Z.add_0_r.
  - simpl length. simpl run. unfold step. cbn [gen_ctrl gen_columns gen_ndx].
    rewrite IH, Nat2Z.inj_succ.
    replace (n + Z.succ (Z.of_nat (length rows)))%Z
      with (n + 1 + Z.of_nat (length rows))%Z by lia.
    reflexivity.
Qed.

Lemma walk_part (path : string) (ents : PyDict Entry) (c : option (list Key))
    (n : Z) (k : Key) (tbl : Tbl) (ps : list Key) :
  resolves artifact_get ents k tbl ->
  c = None \/ c = Some (columns tbl) ->
  run artifact_get (S (length (data tbl)) + 1) (mkPartitionedTable path ents)
      (mkGen c n (AtLoopHead (k :: ps)))
  = (PLoad k :: map yield_event (enumerate_from n (data tbl)) ++ [PFree k],
     (mkPartitionedTable path ents,
      mkGen (Some (columns tbl)) (n + Z.of_nat (length (data tbl)))
            (AtLoopHead ps))).
Proof.
  intros (e & G & U & P) C.
  change (S (length (data tbl)) + 1) with (1 + (length (data tbl) + 1)).
  rewrite run_app.
  assert (St : run artifact_get 1 (mkPartitionedTable path ents)
                   (mkGen c n (AtLoopHead (k :: ps)))
               = ([PLoad k],
                  (mkPartitionedTable path
                     (dict_set ents k
                        (mkPartEntry (entry_path e) (source_artifact e) (Some tbl))),
                   mkGen (Some (columns tbl)) n (InPart k (data tbl) ps)))).
  { simpl run. unfold step. cbn [gen_ctrl _loaded_part_entries]. rewrite G.
    unfold get_part. rewrite U. fold (part_of artifact_get e). rewrite P.
    cbn [gen_columns gen_ndx parts_path].
    destruct C as [->| ->]; [reflexivity|].
    rewrite (proj2 (keys_eqb_eq _ _) eq_refl). reflexivity. }
  rewrite St. rewrite run_app, run_rows.
  simpl run. unfold step. cbn [gen_ctrl _loaded_part_entries].
  rewrite dict_get_set, Key_eqb_refl.
  cbn [gen_columns gen_ndx parts_path free entry_path source_artifact].
  rewrite dict_set_set. unfold free. cbn [entry_path source_artifact].
  replace (mkPartEntry (entry_path e) (source_artifact e) None) with e
    by (destruct e; simpl in U; now subst).
  rewrite (dict_set_same _ _ G). reflexivity.
Qed.

Lemma walk_parts (path : string) (ents : PyDict Entry) (cols : list Key)
    (tail : list Key) (pre : list (Key * Tbl)) :
  forall (c : option (list Key)) (n : Z),
    Forall (fun kt => resolves artifact_get ents (fst kt) (snd kt) /\ columns (snd kt) = cols) pre ->
    c = None \/ c = Some cols ->
    run artifact_get (steps_of pre) (mkPartitionedTable path ents)
        (mkGen c n (AtLoopHead (map fst pre ++ tail)))
    = (part_events n pre,
       (mkPartitionedTable path ents,
        mkGen (match pre with [] => c | _ => Some cols end)
              (n + Z.of_nat (length (all_rows pre))) (AtLoopHead tail))).
Proof.
  induction pre as [|[k tbl] pre IH]; intros c n F C.
  - simpl. now rewrite Z.add_0_r.
  - inversion F as [|? ? H F']; subst. destruct H as [R Ec]. simpl in R, Ec.
    change (steps_of ((k, tbl) :: pre))
      with ((S (length (data tbl)) + 1) + steps_of pre).
    rewrite run_app. simpl map. simpl app.
    assert (C' : c = None \/ c = Some (columns tbl)) by (rewrite Ec; exact C).
    rewrite (@walk_part path ents c n k tbl (map fst pre ++ tail) R C').
    rewrite Ec, (IH (Some cols)) by auto.
    simpl part_events. unfold all_rows. simpl flat_map.
    rewrite length_app, Nat2Z.inj_add, Z.add_assoc.
    replace (match pre with [] | _ => Some cols end) with (Some cols)
      by now destruct pre.
    cbn [app]. rewrite <- app_assoc. reflexivity.
Qed.

(** *** At most one part in memory *)

Lemma all_unloaded_set (d : PyDict Entry) (k : Key) (e' : Entry) :
  all_unloaded d -> _part e' = None -> all_unloaded (dict_set d k e').
Proof.
  induction d as [|[k0 v0] d IH]; intros A U kv I; simpl in I.
  - destruct I as [<-|[]]. exact U.
  - destruct (Key_eqb k0 k).
    + destruct I as [<-|I]; [exact U|]. apply A. now right.
    + destruct I as [<-|I]; [apply (A (k0, v0)); now left|].
      apply IH; auto. intros kv' I'. apply A. now right.
Qed.

Lemma all_unloaded_loaded (path : string) (d : PyDict Entry) :
  all_unloaded d -> loaded (mkPartitionedTable path d) = [].
Proof.
  unfold loaded. simpl. induction d as [|[k0 v0] d IH]; intro A; [reflexivity|].
  pose proof (A (k0, v0) (or_introl eq_refl)) as U. simpl in U.
  simpl. rewrite U. apply IH.
  intros kv I. apply A. now right.
Qed.

Lemma one_loaded (path : string) (d : PyDict Entry) (k : Key) (e' : Entry) :
  all_unloaded (dict_set d k e') ->
  length (loaded (mkPartitionedTable path d)) <= 1.
Proof.
  induction d as [|[k0 v0] d IH]; intro A; [simpl; lia|].
  simpl in A. destruct (Key_eqb k0 k).
  - assert (A' : all_unloaded d) by (intros kv I; apply A; now right).
    pose proof (all_unloaded_loaded path A') as L.
    unfold loaded in *. simpl in *. destruct (_part v0); simpl; rewrite L; simpl; lia.
  - assert (U : _part v0 = None) by (apply (A (k0, v0)); now left).
    assert (A' : all_unloaded (dict_set d k e')) by (intros kv I; apply A; now right).
    specialize (IH A'). unfold loaded in *. simpl in *. now rewrite U.
Qed.

Lemma invariant_bound (self : PT) (g : Gen) :
  one_part_invariant self g -> length (loaded self) <= 1.
Proof.
  unfold one_part_invariant. destruct self as [path d]. simpl.
  destruct (gen_ctrl g) as [ps|k rows ps| |e]; intro I.
  - rewrite (all_unloaded_loaded path I). simpl. lia.
  - apply (@one_loaded path d k (mkPartEntry "" 0 None)). now apply I.
  - rewrite (all_unloaded_loaded path I). simpl. lia.
  - exact I.
Qed.

Lemma step_invariant (self self' : PT) (g g' : Gen) (evs : list PEvent) :
  one_part_invariant self g ->
  step artifact_get self g = Some (evs, (self', g')) ->
  one_part_invariant self' g'.
Proof.
  destruct self as [path d]. destruct g as [c n ctrl].
  unfold one_part_invariant, step. simpl.
  destruct ctrl as [[|k ps]|k [|row rows] ps| |e]; intros I St;
    try discriminate.
  - inversion St; subst. exact I.
  - destruct (dict_get d k) as [entry|].
    + destruct (get_part artifact_get entry) as [entry' part].
      assert (Fail : length (loaded (mkPartitionedTable path (dict_set d k entry'))) <= 1).
      { apply (@one_loaded path _ k (mkPartEntry "" 0 None)).
        rewrite dict_set_set. now apply all_unloaded_set. }
      destruct part as [part|].
      * destruct c as [cols|].
        -- destruct (negb (list_eqb Key_eqb cols (columns part)));
             inversion St; subst; simpl; auto.
           intros e' U. rewrite dict_set_set. now apply all_unloaded_set.
        -- inversion St; subst; simpl.
           intros e' U. rewrite dict_set_set. now apply all_unloaded_set.
      * inversion St; subst; simpl. exact Fail.
    + unfold fail in St. inversion St; subst; simpl.
      rewrite (all_unloaded_loaded path I). simpl. lia.
  - destruct (dict_get d k) as [entry|].
    + inversion St; subst; simpl. now apply I.
    + unfold fail in St. inversion St; subst; simpl.
      apply (@one_loaded path d k (mkPartEntry "" 0 None)). now apply I.
  - inversion St; subst. simpl. exact I.
Qed.

Lemma run_invariant (fuel : nat) :
  forall (self : PT) (g : Gen),
    one_part_invariant self g ->
    one_part_invariant (fst (snd (run artifact_get fuel self g)))
                       (snd (snd (run artifact_get fuel self g))).
Proof.
  induction fuel as [|fuel IH]; intros self g I; [exact I|].
  simpl. destruct (step artifact_get self g) as [[evs [self1 g1]]|] eqn:St;
    [|exact I].
  specialize (IH self1 g1 (@step_invariant _ _ _ _ _ I St)).
  destruct (run artifact_get fuel self1 g1) as [evs' [self2 g2]]. exact IH.
Qed.

(** *** The walk from a freshly built object *)

Lemma resolves_all (ents : PyDict Entry) :
  NoDup (map fst ents) -> all_unloaded ents ->
  forall (sub : PyDict Entry) (tables : list Tbl),
    incl sub ents ->
    Forall2 (fun kv tbl => part_of artifact_get (snd kv) = Some tbl) sub tables ->
    Forall (fun kt => resolves artifact_get ents (fst kt) (snd kt))
           (combine (map fst sub) tables).
Proof.
  intros N A sub tables Inc F. induction F as [|[k e] tbl sub tables P F IH].
  - constructor.
  - simpl. constructor.
    + exists e. simpl. repeat split; auto.
      * apply dict_get_in_nodup; auto. apply Inc. now left.
      * apply (A (k, e)). apply Inc. now left.
    + apply IH. intros kv I. apply Inc. now right.
Qed.

Lemma combine_keys (sub : PyDict Entry) (tables : list Tbl) :
  length sub = length tables ->
  map fst (combine (map fst sub) tables) = map fst sub.
Proof.
  revert tables; induction sub as [|kv sub IH]; intros [|tbl tables] L;
    simpl in *; try discriminate; [reflexivity|].
  f_equal. apply IH. lia.
Qed.

Lemma Forall_and_columns (ents : PyDict Entry) (cols : list Key)
    (parts : list (Key * Tbl)) :
  Forall (fun kt => resolves artifact_get ents (fst kt) (snd kt)) parts ->
  (forall kt, In kt parts -> columns (snd kt) = cols) ->
  Forall (fun kt => resolves artifact_get ents (fst kt) (snd kt) /\ columns (snd kt) = cols) parts.
Proof.
  intros F C. apply Forall_forall. intros kt I. split; [|now apply C].
  now apply (proj1 (Forall_forall _ _) F).
Qed.

(** *** The walk from any state of the entries *)

Lemma get_part_current (e : Entry) :
  snd (get_part artifact_get e) = current_part artifact_get e
  /\ free (fst (get_part artifact_get e)) = free e.
Proof.
  unfold get_part, current_part, part_of, free.
  destruct (_part e); simpl; auto.
Qed.

Lemma walk_part_any (path : string) (ents : PyDict Entry) (c : option (list Key))
    (n : Z) (k : Key) (tbl : Tbl) (ps : list Key) :
  available artifact_get ents k tbl ->
  c = None \/ c = Some (columns tbl) ->
  exists evs e,
    dict_get ents k = Some e
    /\ run artifact_get (S (length (data tbl)) + 1) (mkPartitionedTable path ents)
           (mkGen c n (AtLoopHead (k :: ps)))
       = (evs,
          (mkPartitionedTable path (dict_set ents k (free e)),
           mkGen (Some (columns tbl)) (n + Z.of_nat (length (data tbl)))
                 (AtLoopHead ps)))
    /\ yields evs = enumerate_from n (data tbl).
Proof.
  intros (e & G & P) C.
  change (S (length (data tbl)) + 1) with (1 + (length (data tbl) + 1)).
  rewrite run_app.
  destruct (get_part_current e) as [Cur Fr].
  destruct (get_part artifact_get e) as [e' part] eqn:Gp. simpl in Cur, Fr.
  rewrite P in Cur. subst part.
  assert (St : exists loads,
             yields loads = []
             /\ run artifact_get 1 (mkPartitionedTable path ents)
                    (mkGen c n (AtLoopHead (k :: ps)))
                = (loads,
                   (mkPartitionedTable path (dict_set ents k e'),
                    mkGen (Some (columns tbl)) n (InPart k (data tbl) ps)))).
  { exists (match _part e with None => [PLoad k] | Some _ => [] end).
    split; [destruct (_part e); reflexivity|].
    simpl run. unfold step. cbn [gen_ctrl _loaded_part_entries]. rewrite G, Gp.
    cbn [gen_columns gen_ndx parts_path].
    destruct C as [->| ->]; [now rewrite app_nil_r|].
    rewrite (proj2 (keys_eqb_eq _ _) eq_refl). simpl. now rewrite app_nil_r. }
  destruct St as (loads & Yl & St). rewrite St.
  rewrite run_app, run_rows.
  simpl run. unfold step. cbn [gen_ctrl _loaded_part_entries].
  rewrite dict_get_set, Key_eqb_refl.
  cbn [gen_columns gen_ndx parts_path]. rewrite dict_set_set, Fr.
  eexists. exists e. split; [exact G|]. split; [reflexivity|].
  rewrite !yields_app, Yl, yields_rows. simpl. now rewrite app_nil_r.
Qed.

Lemma walk_parts_any (path : string) (cols : list Key) (tail : list Key)
    (pre : list (Key * Tbl)) :
  forall (ents : PyDict Entry) (c : option (list Key)) (n : Z),
    NoDup (map fst pre) ->
    Forall (fun kt => available artifact_get ents (fst kt) (snd kt)
                      /\ columns (snd kt) = cols) pre ->
    c = None \/ c = Some cols ->
    exists evs ents',
      run artifact_get (steps_of pre) (mkPartitionedTable path ents)
          (mkGen c n (AtLoopHead (map fst pre ++ tail)))
      = (evs,
         (mkPartitionedTable path ents',
          mkGen (match pre with [] => c | _ => Some cols end)
                (n + Z.of_nat (length (all_rows pre))) (AtLoopHead tail)))
      /\ yields evs = enumerate_from n (all_rows pre)
      /\ forall k', ~ In k' (map fst pre) -> dict_get ents' k' = dict_get ents k'.
Proof.
  induction pre as [|[k tbl] pre IH]; intros ents c n N F C.
  - exists [], ents. simpl. rewrite Z.add_0_r. auto.
  - inversion F as [|? ? H F']; subst.
    inversion N as [|? ? Nin N']; subst.
    destruct H as [R Ec]. simpl in R, Ec.
    assert (C' : c = None \/ c = Some (columns tbl)) by (rewrite Ec; exact C).
    destruct (@walk_part_any path ents c n k tbl (map fst pre ++ tail) R C')
      as (evs1 & e & G & Run1 & Y1).
    assert (Same : forall k', k' <> k ->
                   dict_get (dict_set ents k (free e)) k' = dict_get ents k').
    { intros k' Ne. rewrite dict_get_set.
      destruct (Key_eqb k k') eqn:E; [|reflexivity].
      apply Key_eqb_eq in E. congruence. }
    destruct (IH (dict_set ents k (free e)) (Some cols)
                 (n + Z.of_nat (length (data tbl)))%Z N') as (evs2 & ents' & Run2 & Y2 & Keep).
    { apply Forall_forall. intros [k' tbl'] I.
      destruct (proj1 (Forall_forall _ _) F' _ I) as [(e' & G' & P') Ec'].
      split; [|exact Ec']. exists e'. split; [|exact P'].
      simpl. rewrite Same; [exact G'|].
      intros ->. apply Nin. change k with (fst (k, tbl')). now apply in_map. }
    { now right. }
    exists (evs1 ++ evs2), ents'.
    change (steps_of ((k, tbl) :: pre))
      with ((S (length (data tbl)) + 1) + steps_of pre).
    rewrite run_app. simpl map. simpl app. rewrite Run1, Ec, Run2.
    unfold all_rows. simpl flat_map.
    rewrite length_app, Nat2Z.inj_add, Z.add_assoc.
    replace (match pre with [] | _ => Some cols end) with (Some cols)
      by now destruct pre.
    split; [reflexivity|]. split.
    + rewrite yields_app, Y1, Y2, enumerate_from_app. reflexivity.
    + intros k' Nk. rewrite Keep by (intro I; apply Nk; now right).
      apply Same. intros ->. apply Nk. now left.
Qed.

(** C9.  For a partitioned table whose first parts have the columns of the
    first one and are followed by a part with other columns: [iterrows]
    yields the rows of the parts before that one, under their running
    indices, and then raises the ValueError on the non-matching columns,
    which ends the generator. *)
Theorem iterrows_mismatch (self : PT) (k0 kq : Key) (first q : Tbl)
    (more : list (Key * Tbl)) (post : list Key) :
  let pre := (k0, first) :: more in
  let err := ValueError (MsgNonMatchingColumns (columns first) (columns q)) in
  map fst (_loaded_part_entries self) = map fst pre ++ kq :: post ->
  NoDup (map fst (_loaded_part_entries self)) ->
  Forall (fun kt => available artifact_get (_loaded_part_entries self)
                              (fst kt) (snd kt)) pre ->
  available artifact_get (_loaded_part_entries self) kq q ->
  (forall kt, In kt more -> columns (snd kt) = columns first) ->
  columns q <> columns first ->
  forall fuel, steps_of pre + 1 <= fuel ->
    exists evs self' g,
      run artifact_get fuel self (iterrows self) = (evs ++ [PRaise err], (self', g))
      /\ gen_ctrl g = Failed err
      /\ yields evs = enumerate_from 0 (all_rows pre).
Proof.
  intros pre err Keys N F Aq C D fuel Le. destruct self as [path ents].
  cbn [_loaded_part_entries] in Keys, N, F, Aq.
  assert (Npre : NoDup (map fst pre) /\ ~ In kq (map fst pre)).
  { rewrite Keys in N. split.
    - exact (NoDup_app_remove_r _ _ N).
    - intro I. apply NoDup_remove_2 in N. apply N. apply in_or_app. now left. }
  destruct Npre as [Npre Nq].
  assert (R : Forall (fun kt => available artifact_get ents (fst kt) (snd kt)
                                /\ columns (snd kt) = columns first) pre).
  { apply Forall_forall. intros kt I. split.
    - now apply (proj1 (Forall_forall _ _) F).
    - destruct I as [<-|I]; [reflexivity | now apply C]. }
  destruct (@walk_parts_any path (columns first) (kq :: post) pre ents None 0
              Npre R (or_introl eq_refl)) as (evs & ents' & Run & Y & Keep).
  replace fuel with (steps_of pre + (1 + (fuel - steps_of pre - 1))) by lia.
  unfold iterrows. simpl _loaded_part_entries. rewrite Keys.
  rewrite run_app, Run, run_app.
  destruct Aq as (e & G & P). rewrite <- (Keep kq Nq) in G.
  destruct (get_part_current e) as [Cur _].
  destruct (get_part artifact_get e) as [e' part] eqn:Gp. simpl in Cur.
  rewrite P in Cur. subst part.
  assert (St : exists loads,
             yields loads = []
             /\ run artifact_get 1 (mkPartitionedTable path ents')
                    (mkGen (Some (columns first))
                           (0 + Z.of_nat (length (all_rows pre)))
                           (AtLoopHead (kq :: post)))
                = (loads ++ [PRaise err],
                   (mkPartitionedTable path (dict_set ents' kq e'),
                    mkGen (Some (columns first))
                          (0 + Z.of_nat (length (all_rows pre))) (Failed err)))).
  { exists (match _part e with None => [PLoad kq] | Some _ => [] end).
    split; [destruct (_part e); reflexivity|].
    simpl run. unfold step. cbn [gen_ctrl _loaded_part_entries]. rewrite G, Gp.
    cbn [gen_columns gen_ndx parts_path].
    destruct (list_eqb Key_eqb (columns first) (columns q)) eqn:E.
    - apply keys_eqb_eq in E. congruence.
    - simpl. now rewrite app_nil_r. }
  destruct St as (loads & Yl & St). unfold pre at 1. cbv iota. rewrite St.
  rewrite run_halted by exact I.
  exists (evs ++ loads). do 2 eexists.
  split; [now rewrite app_nil_r, app_assoc|]. split; [reflexivity|].
  rewrite yields_app, Yl, Y. apply app_nil_r.
Qed.
(** *** The parts in memory, with the one the generator refers to *)

Lemma in_memory_le (self : PT) (part : option Key) :
  length (in_memory self part) <= S (length (loaded self)).
Proof.
  unfold in_memory. destruct part as [k|]; [|lia].
  destruct (existsb (Key_eqb k) (loaded self)); simpl; lia.
Qed.

Lemma loaded_cases (path : string) (d : PyDict Entry) (k : Key) (e' : Entry) :
  all_unloaded (dict_set d k e') ->
  loaded (mkPartitionedTable path d) = []
  \/ loaded (mkPartitionedTable path d) = [k].
Proof.
  induction d as [|[k0 v0] d IH]; intro A; [now left|].
  simpl in A. destruct (Key_eqb k0 k) eqn:E.
  - apply Key_eqb_eq in E. subst k0.
    assert (A' : all_unloaded d) by (intros kv I; apply A; now right).
    pose proof (all_unloaded_loaded path A') as L.
    unfold loaded in *. simpl in *. destruct (_part v0); simpl; rewrite L; auto.
  - assert (U : _part v0 = None) by (apply (A (k0, v0)); now left).
    assert (A' : all_unloaded (dict_set d k e')) by (intros kv I; apply A; now right).
    specialize (IH A'). unfold loaded in *. simpl in *. now rewrite U.
Qed.

Lemma in_memory_same (self : PT) (k : Key) :
  loaded self = [] \/ loaded self = [k] ->
  length (in_memory self (Some k)) <= 1.
Proof.
  unfold in_memory. intros [-> | ->]; simpl; [lia|].
  rewrite Key_eqb_refl. simpl. lia.
Qed.

(** One step keeps what holds between the steps, and bounds what is in
    memory while it runs and after it. *)
Lemma step_memory (self self' : PT) (g g' : Gen) (evs : list PEvent)
    (part : option Key) :
  one_part_invariant self g -> frame_invariant g part ->
  step artifact_get self g = Some (evs, (self', g')) ->
  frame_invariant g' (frame_part artifact_get self g part)
  /\ length (in_memory self' part) <= 2
  /\ length (in_memory self' (frame_part artifact_get self g part)) <= 1.
Proof.
  destruct self as [path d]. destruct g as [c n ctrl].
  unfold one_part_invariant, frame_invariant, frame_part, step.
  cbn [gen_ctrl gen_columns gen_ndx _loaded_part_entries parts_path].
  destruct ctrl as [[|k ps]|k [|row rows] ps| |e]; intros I J St;
    try discriminate.
  - inversion St; subst. cbn [gen_ctrl].
    pose proof (in_memory_le (mkPartitionedTable path d) part) as Le.
    pose proof (all_unloaded_loaded path I) as L.
    rewrite L in Le. cbn [length] in Le.
    split; [exact Logic.I|]. split; [lia|].
    unfold in_memory. rewrite L. simpl. lia.
  - destruct (dict_get d k) as [entry|].
    + destruct (get_part artifact_get entry) as [entry' p]. cbn [snd].
      assert (A : forall e', _part e' = None ->
                             all_unloaded (dict_set (dict_set d k entry') k e')).
      { intros e' U. rewrite dict_set_set. now apply all_unloaded_set. }
      pose proof (@one_loaded path (dict_set d k entry') k _
                    (A (@mkPartEntry WBType Media "" 0 None) eq_refl)) as L1.
      pose proof (@loaded_cases path (dict_set d k entry') k _
                    (A (@mkPartEntry WBType Media "" 0 None) eq_refl)) as Lc.
      assert (Two : length (in_memory (mkPartitionedTable path (dict_set d k entry'))
                                      part) <= 2).
      { pose proof (in_memory_le (mkPartitionedTable path (dict_set d k entry'))
                                 part). lia. }
      destruct p as [p|].
      * assert (One : length (in_memory (mkPartitionedTable path (dict_set d k entry'))
                                        (Some k)) <= 1)
          by (apply in_memory_same; exact Lc).
        destruct c as [cols|].
        -- destruct (negb (list_eqb Key_eqb cols (columns p)));
             inversion St; subst; cbn [gen_ctrl]; auto.
        -- inversion St; subst; cbn [gen_ctrl]; auto.
      * inversion St; subst; cbn [gen_ctrl].
        split; [exact Logic.I|]. split; [exact Two|]. exact L1.
    + unfold fail in St. inversion St; subst; cbn [gen_ctrl].
      pose proof (in_memory_le (mkPartitionedTable path d) part) as Le.
      rewrite (all_unloaded_loaded path I) in Le. cbn [length] in Le.
      split; [exact Logic.I|]. split; lia.
  - subst part.
    assert (One : length (in_memory (mkPartitionedTable path d) (Some k)) <= 1).
    { apply in_memory_same.
      apply (@loaded_cases path d k (mkPartEntry "" 0 None)). now apply I. }
    destruct (dict_get d k) as [entry|].
    + inversion St; subst; cbn [gen_ctrl].
      pose proof (in_memory_le
                    (mkPartitionedTable path (dict_set d k (free entry)))
                    (Some k)) as Le.
      rewrite (@all_unloaded_loaded path (dict_set d k (free entry))) in Le
        by (now apply I).
      cbn [length] in Le. split; [exact Logic.I|]. split; lia.
    + unfold fail in St. inversion St; subst; cbn [gen_ctrl].
      split; [exact Logic.I|]. split; lia.
  - subst part. inversion St; subst; cbn [gen_ctrl].
    assert (One : length (in_memory (mkPartitionedTable path d) (Some k)) <= 1).
    { apply in_memory_same.
      apply (@loaded_cases path d k (mkPartEntry "" 0 None)). now apply I. }
    split; [reflexivity|]. split; lia.
Qed.

Lemma memory_along_bound (fuel : nat) :
  forall (self : PT) (g : Gen) (part : option Key),
    one_part_invariant self g -> frame_invariant g part ->
    Forall (fun m => length (fst m) <= 2 /\ length (snd m) <= 1)
           (memory_along artifact_get fuel self g part).
Proof.
  induction fuel as [|fuel IH]; intros self g part I J; [constructor|].
  simpl. destruct (step artifact_get self g) as [[evs [self1 g1]]|] eqn:St;
    [|constructor].
  destruct (@step_memory _ _ _ _ _ part I J St) as (J1 & Two & One).
  cbv zeta. constructor; [split; assumption|].
  apply IH; [exact (@step_invariant _ _ _ _ _ I St) | exact J1].
Qed.

(** *** The walk of parts with identical columns *)

Lemma available_all (ents : PyDict Entry) :
  NoDup (map fst ents) ->
  forall (sub : PyDict Entry) (tables : list Tbl),
    incl sub ents ->
    Forall2 (fun kv tbl => current_part artifact_get (snd kv) = Some tbl) sub tables ->
    Forall (fun kt => available artifact_get ents (fst kt) (snd kt))
           (combine (map fst sub) tables).
Proof.
  intros N sub tables Inc F. induction F as [|[k e] tbl sub tables P F IH].
  - constructor.
  - simpl. constructor.
    + exists e. simpl. split; [|exact P].
      apply dict_get_in_nodup; auto. apply Inc. now left.
    + apply IH. intros kv I. apply Inc. now right.
Qed.

Lemma current_unloaded (ents : PyDict Entry) (tables : list Tbl) :
  all_unloaded ents ->
  Forall2 (fun kv tbl => current_part artifact_get (snd kv) = Some tbl) ents tables ->
  Forall2 (fun kv tbl => part_of artifact_get (snd kv) = Some tbl) ents tables.
Proof.
  intros A F. induction F as [|kv tbl ents tables P F IH]; constructor.
  - unfold current_part in P. now rewrite (A kv (or_introl eq_refl)) in P.
  - apply IH. intros kv' I. apply A. now right.
Qed.

(** C4, as amended.  For a partitioned table whose entries stand for
    tables that all have the same columns, in the same order: run to its
    end, [iterrows] yields the rows of the parts under the indices 0, 1, ...,
    total - 1, whatever parts are in memory when it starts.  When none is,
    it loads each part when the walk reaches it, yields its rows and frees
    its entry before it takes the next one, and after any number of steps at
    most one entry holds its part.  Counting also the part the generator
    itself refers to, which is the one it walked last until [get_part] has
    returned the next: at most two parts are in memory while a step runs, and
    at most one after each step. *)
Theorem iterrows_continuous (self : PT) (tables : list Tbl) (cols : list Key) :
  NoDup (map fst (_loaded_part_entries self)) ->
  Forall2 (fun kv tbl => current_part artifact_get (snd kv) = Some tbl)
          (_loaded_part_entries self) tables ->
  (forall tbl, In tbl tables -> columns tbl = cols) ->
  let parts := combine (map fst (_loaded_part_entries self)) tables in
  let rows := all_rows parts in
  (forall fuel, steps_of parts + 1 <= fuel ->
     exists evs self' g,
       run artifact_get fuel self (iterrows self) = (evs ++ [PStop], (self', g))
       /\ gen_ctrl g = Finished
       /\ yields (evs ++ [PStop]) = enumerate_from 0 rows)
  /\ map fst (enumerate_from 0 rows) = map Z.of_nat (seq 0 (length rows))
  /\ (all_unloaded (_loaded_part_entries self) ->
      (forall fuel, steps_of parts + 1 <= fuel ->
         exists g,
           run artifact_get fuel self (iterrows self)
           = (part_events 0 parts ++ [PStop], (self, g))
           /\ gen_ctrl g = Finished)
      /\ (forall fuel,
             length (loaded (fst (snd (run artifact_get fuel self
                                           (iterrows self))))) <= 1)
      /\ (forall fuel,
             Forall (fun m => length (fst m) <= 2 /\ length (snd m) <= 1)
                    (memory_along artifact_get fuel self (iterrows self) None))).
Proof.
  intros N F C parts rows. destruct self as [path ents]. simpl in *.
  assert (Cp : forall kt, In kt parts -> columns (snd kt) = cols).
  { intros [k tbl] I. apply C. eapply in_combine_r; eauto. }
  split; [|split].
  - intros fuel Le.
    assert (R : Forall (fun kt => available artifact_get ents (fst kt) (snd kt)
                                  /\ columns (snd kt) = cols) parts).
    { apply Forall_forall. intros kt I. split; [|now apply Cp].
      apply (proj1 (Forall_forall _ _)
                   (available_all N (incl_refl ents) F) kt I). }
    assert (Np : NoDup (map fst parts)).
    { unfold parts. now rewrite (combine_keys ents tables (Forall2_length F)). }
    destruct (@walk_parts_any path cols [] parts ents None 0 Np R
                (or_introl eq_refl)) as (evs & ents' & Run & Y & _).
    replace fuel with (steps_of parts + (1 + (fuel - steps_of parts - 1))) by lia.
    unfold iterrows. simpl _loaded_part_entries.
    rewrite <- (combine_keys ents tables (Forall2_length F)).
    fold parts. rewrite <- (app_nil_r (map fst parts)).
    rewrite run_app, Run.
    rewrite run_app. simpl run at 1. unfold step. cbn [gen_ctrl].
    rewrite run_halted by exact I.
    exists evs. do 2 eexists. split; [reflexivity|]. split; [reflexivity|].
    rewrite yields_app, Y. apply app_nil_r.
  - rewrite enumerate_from_indices. apply map_ext. intro i. lia.
  - intro A. split; [|split].
    + intros fuel Le.
      assert (R : Forall (fun kt => resolves artifact_get ents (fst kt) (snd kt)
                                    /\ columns (snd kt) = cols) parts).
      { apply Forall_and_columns; [|exact Cp].
        apply resolves_all; auto; [apply incl_refl|].
        now apply current_unloaded. }
      replace fuel with (steps_of parts + (1 + (fuel - steps_of parts - 1))) by lia.
      unfold iterrows. simpl _loaded_part_entries.
      rewrite <- (combine_keys ents tables (Forall2_length F)).
      fold parts. rewrite <- (app_nil_r (map fst parts)).
      rewrite run_app, (walk_parts path [] (c := None) 0 R) by auto.
      rewrite run_app. simpl run at 1. unfold step. cbn [gen_ctrl].
      rewrite run_halted by exact I.
      eexists. split; reflexivity.
    + intro fuel.
      apply invariant_bound with (g := snd (snd (run artifact_get fuel
                                             (mkPartitionedTable path ents)
                                             (iterrows (mkPartitionedTable path ents))))).
      apply run_invariant. exact A.
    + intro fuel. apply memory_along_bound; [exact A | exact Logic.I].
Qed.
End PartitionedFacts.

(** * Further properties of the file *)

(** ** Rows and columns of a Table *)

Section TableShape.
Context {WBType Media : Type}.
Context `{DT : Dtypes WBType} `{MB : MediaBase Media} `{CO : Collaborators}.

Local Abbreviation Tbl := (@Table WBType Media).

Lemma well_shaped_same (t t' : Tbl) :
  columns t' = columns t -> data t' = data t -> well_shaped t -> well_shaped t'.
Proof. unfold well_shaped. intros C D WS row I. rewrite C. apply WS. now rewrite <- D. Qed.

Lemma well_shaped_append (t t' : Tbl) (row : list Value) :
  columns t' = columns t -> data t' = data t ++ [row] ->
  length row = length (columns t) -> well_shaped t -> well_shaped t'.
Proof.
  unfold well_shaped. intros C D L WS r I. rewrite C. rewrite D in I.
  apply in_app_or in I as [I|[<-|[]]]; auto.
Qed.

Lemma add_data_cases (row : list Value) (t : Tbl) :
  (exists e, add_data row t = (Raise e, t))
  \/ (length row = length (columns t)
      /\ exists t', add_data row t = (Ok tt, t')
                    /\ columns t' = columns t /\ data t' = data t ++ [row]
                    /\ media t' = media t).
Proof.
  unfold add_data, _validate_data, bind, get, put, raise, lift.
  destruct (Nat.eqb_spec (length row) (length (columns t))) as [L|L]; simpl;
    [|eauto].
  destruct (row_dict (columns t) row) as [d|e]; [|eauto].
  destruct (isInvalid (assign (_column_types t) (VDict d))); [eauto|].
  right. split; [exact L|]. eexists. split; [reflexivity|]. simpl. auto.
Qed.

Lemma Table_bind_to_run_keeps (run : nat) (key : string) (step : Z) (t : Tbl)
    (w : World) :
  columns (fst (snd (Table_bind_to_run run key step (t, w)))) = columns t
  /\ data (fst (snd (Table_bind_to_run run key step (t, w)))) = data t.
Proof.
  unfold Table_bind_to_run, bind, self_get, self_put, in_world, fresh_id, lift.
  cbn [fst snd].
  change (_to_table_json t None) with (_to_table_json t (Some MAX_ROWS)).
  rewrite _to_table_json_eq. cbn [fst snd emit].
  destruct (set_file (media t) _ ".table.json") as [m|e]; cbn [fst snd]; auto.
  destruct (Media_bind_to_run TableClass m run key step); cbn [fst snd]; auto.
Qed.

(** X1.  Every method that changes a table keeps its columns and keeps each
    row as long as the list of columns: [add_data] (whether it appends the row
    or raises), [cast] and [bind_to_run]. *)
Theorem mutators_keep_shape (t : Tbl) :
  well_shaped t ->
  (forall row,
      well_shaped (snd (add_data row t))
      /\ columns (snd (add_data row t)) = columns t)
  /\ (forall col_name dtype optional,
         well_shaped (snd (cast col_name dtype optional t))
         /\ columns (snd (cast col_name dtype optional t)) = columns t)
  /\ (forall run key step w,
         well_shaped (fst (snd (Table_bind_to_run run key step (t, w))))
         /\ columns (fst (snd (Table_bind_to_run run key step (t, w))))
            = columns t).
Proof.
  intro WS. split; [|split].
  - intro row.
    destruct (add_data_cases row t) as [[e E]|(L & t' & E & C & D & _)];
      rewrite E; simpl; [auto|].
    split; [eapply well_shaped_append; eauto | exact C].
  - intros col_name dtype optional.
    destruct (cast_rows_keeps col_name dtype optional t) as [D C].
    split; [eapply well_shaped_same; eauto | exact C].
  - intros r key s w.
    destruct (Table_bind_to_run_keeps r key s t w) as [C D].
    split; [eapply well_shaped_same; eauto | exact C].
Qed.

Lemma for_each_add_data_lengths (rows : list (list Value)) :
  forall (t t' : Tbl),
    for_each rows add_data t = (Ok tt, t') ->
    Forall (fun row => length row = length (columns t)) rows.
Proof.
  induction rows as [|row rows IH]; intros t t' E; [constructor|].
  simpl in E. unfold bind in E.
  destruct (add_data_cases row t) as [[e A]|(L & t1 & A & C & D & _)];
    rewrite A in E; [discriminate|].
  constructor; [exact L|]. rewrite <- C. exact (IH t1 t' E).
Qed.

Lemma for_each_add_data_raises (rows : list (list Value)) :
  forall (t : Tbl) (row : list Value),
    In row rows -> length row <> length (columns t) ->
    exists e, fst (for_each rows add_data t) = Raise e.
Proof.
  intros t row I L.
  destruct (for_each rows add_data t) as [[[]|e] t'] eqn:E; [|simpl; eauto].
  apply for_each_add_data_lengths in E.
  exfalso. apply L. exact (proj1 (Forall_forall _ _) E row I).
Qed.

(** The constructor, as the loop over the rows on the table the casts of the
    columns leave. *)
Lemma Table_new_rows (cols : list Key) (rows : list (list Value)) :
  exists r (t1 : Tbl),
    (r = Ok tt -> columns t1 = cols /\ data t1 = [])
    /\ Table_new cols rows
       = match r with
         | Raise e => Raise e
         | Ok _ => match for_each rows add_data t1 with
                   | (Ok _, self) => Ok self
                   | (Raise e, _) => Raise e
                   end
         end.
Proof.
  unfold Table_new, _init_from_list, _make_column_types.
  unfold bind at 1. unfold get at 1. unfold bind at 1. unfold put at 1.
  unfold bind at 1. unfold bind at 1. unfold get at 1. unfold bind at 1.
  unfold put at 1. cbn [columns data _column_types media set_column_types].
  match goal with
  | |- context [for_each ?l cast_column ?t] =>
      pose proof (for_each_preserves columns cast_column
                    (fun x s => proj1 (cast_column_keeps x s)) l t) as C;
      pose proof (for_each_preserves data cast_column
                    (fun x s => proj2 (cast_column_keeps x s)) l t) as D;
      destruct (for_each l cast_column t) as [[[]|e] t1] eqn:F
  end.
  - exists (Ok tt), t1. split; [intros _; simpl in C, D; auto|reflexivity].
  - exists (Raise e), t1. split; [discriminate | reflexivity].
Qed.

(** What the constructor returns, and when it raises. *)
Lemma Table_new_cases (cols : list Key) (rows : list (list Value)) :
  (forall nt : Tbl,
      Table_new cols rows = Ok nt ->
      columns nt = cols /\ data nt = rows /\ well_shaped nt)
  /\ (forall row,
         In row rows -> length row <> length cols ->
         exists e, @Table_new WBType Media _ _ cols rows = Raise e).
Proof.
  destruct (Table_new_rows cols rows) as (r & t1 & Init & New). split.
  - intros nt E. rewrite New in E. destruct r as [[]|e]; [|discriminate].
    destruct (Init eq_refl) as [C D].
    destruct (for_each rows add_data t1) as [[[]|e] t2] eqn:A; [|discriminate].
    inversion E; subst t2.
    pose proof (for_each_add_data_lengths _ _ A) as Ls.
    apply for_each_add_data in A as [C' D'].
    rewrite D in D'. simpl in D'. rewrite C in C'.
    repeat split; auto.
    intros row I. rewrite C', <- C. rewrite D' in I.
    exact (proj1 (Forall_forall _ _) Ls row I).
  - intros row I L. rewrite New. destruct r as [[]|e]; [|eauto].
    destruct (Init eq_refl) as [C D]. rewrite <- C in L.
    destruct (for_each_add_data_raises rows t1 row I L) as [e E].
    destruct (for_each rows add_data t1) as [[[]|e'] t2]; simpl in E;
      [discriminate | eauto].
Qed.

(** X2.  When the constructor [Table(columns=cols, data=rows)] returns, the
    table has these columns and these rows, every row as long as [cols]; and
    when some row has another length, the constructor raises. *)
Theorem Table_new_shape (cols : list Key) (rows : list (list Value)) :
  (forall nt : Tbl,
      Table_new cols rows = Ok nt ->
      columns nt = cols /\ data nt = rows /\ well_shaped nt)
  /\ (forall row,
         In row rows -> length row <> length cols ->
         exists e, @Table_new WBType Media _ _ cols rows = Raise e).
Proof. exact (Table_new_cases cols rows). Qed.
End TableShape.

(** ** Table.cast when it succeeds *)

Section CastFacts.
Context {WBType Media : Type}.
Context `{DT : Dtypes WBType} `{MB : MediaBase Media} `{CO : Collaborators}.

Local Abbreviation Tbl := (@Table WBType Media).

Lemma cast_rows_ok (col_ndx : nat) :
  forall (rows : list (list Value)) (wbtype : WBType),
    (forall row, In row rows -> col_ndx < length row) ->
    (forall k v,
        nth_error (column_values col_ndx rows) k = Some v ->
        isInvalid (assign (fold_left assign (firstn k (column_values col_ndx rows))
                                     wbtype) v) = false) ->
    cast_rows col_ndx wbtype rows
    = Ok (fold_left assign (column_values col_ndx rows) wbtype).
Proof.
  induction rows as [|row rows IH]; intros wbtype Len Val; [reflexivity|].
  assert (L : col_ndx < length row) by (apply Len; now left).
  destruct (nth_error row col_ndx) as [x|] eqn:Ex;
    [|apply nth_error_None in Ex; lia].
  unfold column_values in *. simpl in *. rewrite Ex in *. simpl in *.
  pose proof (Val 0 x eq_refl) as V0. simpl in V0. rewrite V0.
  apply IH.
  - intros r Hr. apply Len. now right.
  - intros k v Nth. exact (Val (S k) v Nth).
Qed.

(** X3.  [cast] on a column the table does not have raises the ValueError of
    [list.index] and leaves the table as it was.  On a column of the table,
    when the descriptor, narrowed by the values of the column one row after
    the other, accepts each of them, [cast] returns the descriptor narrowed
    by all of them and records it as the type of that column, and changes
    nothing else. *)
Theorem cast_commits (t : Tbl) (col_name : Key) (dtype : WBType + Value)
    (optional : bool) (wbtype : WBType) :
  type_from_dtype dtype = Ok wbtype ->
  let fresh := if optional then OptionalType wbtype else wbtype in
  (list_index col_name (columns t) = None ->
   cast col_name dtype optional t = (Raise (ValueError (MsgNotInList col_name)), t))
  /\ (forall col_ndx types',
         well_shaped t ->
         list_index col_name (columns t) = Some col_ndx ->
         let vals := column_values col_ndx (data t) in
         (forall k v,
             nth_error vals k = Some v ->
             isInvalid (assign (fold_left assign (firstn k vals) fresh) v) = false) ->
         type_map_set (_column_types t) col_name (fold_left assign vals fresh)
         = Ok types' ->
         cast col_name dtype optional t
         = (Ok (fold_left assign vals fresh),
            mkTable (columns t) (data t) types' (media t))).
Proof.
  intros Ty fresh. split.
  - intro N. unfold cast, bind, lift, get, raise. rewrite Ty. simpl.
    now rewrite N.
  - intros col_ndx types' WS Ix vals Val Tm.
    assert (Len : forall row, In row (data t) -> col_ndx < length row).
    { intros row Hr. rewrite (WS row Hr). eapply list_index_lt; eauto. }
    unfold cast, bind, lift, get, put, ret. rewrite Ty. simpl. rewrite Ix.
    fold fresh. rewrite (@cast_rows_ok col_ndx (data t) fresh Len Val).
    fold vals. rewrite Tm. reflexivity.
Qed.
End CastFacts.

(** ** Tables within the row caps *)

Section WithinCaps.
Context {WBType Media : Type}.
Context `{DT : Dtypes WBType} `{MB : MediaBase Media} `{CO : Collaborators}.

Local Abbreviation Tbl := (@Table WBType Media).



End WithinCaps.

(** ** Table.iterrows *)

Section IterationFacts.
Context {WBType Media : Type}.

Local Abbreviation Tbl := (@Table WBType Media).

Lemma iterrows_from (rows : list (list Value)) :
  forall (pre : list (list Value)),
    map_r (fun ndx => match nth_error (pre ++ rows) ndx with
                      | Some row => Ok (Z.of_nat ndx, row)
                      | None => Raise IndexError
                      end)
          (seq (length pre) (length rows))
    = Ok (enumerate_from (Z.of_nat (length pre)) rows).
Proof.
  induction rows as [|row rows IH]; intro pre; [reflexivity|].
  simpl. rewrite nth_error_app2 by lia. rewrite Nat.sub_diag. simpl.
  specialize (IH (pre ++ [row])).
  rewrite <- app_assoc, length_app in IH. simpl in IH.
  rewrite Nat.add_1_r in IH. rewrite IH.
  do 3 f_equal. lia.
Qed.

Lemma enumerate_from_rows (rows : list (list Value)) :
  forall start, map snd (enumerate_from start rows) = rows.
Proof.
  induction rows as [|row rows IH]; intro start; [reflexivity|].
  simpl. now rewrite IH.
Qed.

(** X5.  [Table.iterrows] never raises: it yields every row of the table
    once, in the order of the table, under the indices 0, 1, ..., n - 1. *)
Theorem Table_iterrows_enumerates (t : Tbl) :
  Table_iterrows t = Ok (enumerate_from 0 (data t))
  /\ map snd (enumerate_from 0 (data t)) = data t
  /\ map fst (enumerate_from 0 (data t))
     = map Z.of_nat (seq 0 (length (data t))).
Proof.
  split; [|split].
  - exact (iterrows_from (data t) []).
  - apply enumerate_from_rows.
  - rewrite enumerate_from_indices. apply map_ext. intro i. lia.
Qed.
End IterationFacts.

(** ** Table.from_json *)

Section FromJsonFacts.
Context {WBType Media : Type}.
Context `{DT : Dtypes WBType} `{MB : MediaBase Media} `{CO : Collaborators}.

Local Abbreviation Tbl := (@Table WBType Media).

Lemma valid_columns_inv (v : Value) (cols : list Key) :
  valid_columns v = Ok cols -> v = VList (map key_value cols).
Proof.
  destruct v as [| | | |l| | |]; try discriminate. simpl. intro E. f_equal.
  revert cols E. induction l as [|x l IH]; intros cols E; simpl in E.
  - inversion E. reflexivity.
  - destruct (valid_column x) as [k|] eqn:Ek; [|discriminate].
    destruct (map_r valid_column l) as [ks|]; [|discriminate].
    inversion E; subst. simpl. rewrite <- (IH ks eq_refl). f_equal.
    destruct x; try discriminate; inversion Ek; reflexivity.
Qed.

(** The [columns] argument the constructor has accepted: [None], for the
    default columns, or the list of the columns. *)
Lemma columns_arg_inv (v : Value) (cols : list Key) :
  columns_arg v = Ok cols ->
  (v = VNone /\ cols = default_columns) \/ v = VList (map key_value cols).
Proof.
  destruct v as [| | | |l| | |]; try discriminate.
  - intro E. inversion E. now left.
  - intro E. right. now apply valid_columns_inv.
Qed.

(** What [from_json] has read when it returns. *)
Lemma from_json_ok (json_obj : PyDict Value) (source_artifact : nat) (t : Tbl) :
  from_json json_obj source_artifact = Ok t ->
  exists rows_v rows nt,
    dict_get json_obj (KStr "data") = Some rows_v
    /\ iter_value rows_v = Ok rows
    /\ map_r (from_json_row source_artifact) rows = Ok (data nt)
    /\ (exists cols_v, dict_get json_obj (KStr "columns") = Some cols_v
                       /\ columns_arg cols_v = Ok (columns nt))
    /\ Table_new (columns nt) (data nt) = Ok nt
    /\ match dict_get json_obj (KStr "column_types") with
       | None | Some VNone => t = nt
       | Some column_types =>
           exists ct, type_from_dict column_types source_artifact = Ok ct
                      /\ t = set_column_types nt ct
       end.
Proof.
  unfold from_json, getitem.
  destruct (dict_get json_obj (KStr "data")) as [rows_v|]; [|discriminate].
  destruct (iter_value rows_v) as [rows|] eqn:Iter; [|discriminate].
  destruct (map_r (from_json_row source_artifact) rows) as [rows'|] eqn:Rows;
    [|discriminate].
  destruct (dict_get json_obj (KStr "columns")) as [cols_v|]; [|discriminate].
  destruct (columns_arg cols_v) as [cols|] eqn:Cols; [|discriminate].
  destruct (Table_new cols rows') as [nt|] eqn:New; [|discriminate].
  destruct (Table_new_ok _ _ New) as [C D].
  intro E. exists rows_v, rows, nt. subst cols rows'.
  split; [reflexivity|]. split; [exact Iter|]. split; [exact Rows|].
  split; [exists cols_v; auto|]. split; [exact New|].
  destruct (dict_get json_obj (KStr "column_types")) as [cj|];
    [|now inversion E].
  destruct cj; try (now inversion E);
    (match type of E with
     | context [type_from_dict ?j ?a] =>
         destruct (type_from_dict j a) as [ct|]; [|discriminate]
     end; inversion E; eauto).
Qed.

(** X6.  [from_json] looks up "data" before "columns" and raises the
    KeyError of the first of them that is missing.  A table it returns has
    the columns the JSON lists, or the default columns Input, Output and
    Expected when the JSON has [null] there; it has one row for each row of
    the JSON, made of that row's cells read one by one, and every row is as
    long as the list of columns. *)
Theorem from_json_shape (json_obj : PyDict Value) (source_artifact : nat) :
  (dict_get json_obj (KStr "data") = None ->
   @from_json WBType Media _ _ _ json_obj source_artifact
   = Raise (KeyError (KStr "data")))
  /\ (forall rows_v rows rows',
         dict_get json_obj (KStr "data") = Some rows_v ->
         iter_value rows_v = Ok rows ->
         map_r (from_json_row source_artifact) rows = Ok rows' ->
         dict_get json_obj (KStr "columns") = None ->
         @from_json WBType Media _ _ _ json_obj source_artifact
         = Raise (KeyError (KStr "columns")))
  /\ (forall t : Tbl,
         from_json json_obj source_artifact = Ok t ->
         well_shaped t
         /\ (dict_get json_obj (KStr "columns")
             = Some (VList (map key_value (columns t)))
             \/ (dict_get json_obj (KStr "columns") = Some VNone
                 /\ columns t = default_columns))
         /\ exists rows_v rows,
             dict_get json_obj (KStr "data") = Some rows_v
             /\ iter_value rows_v = Ok rows
             /\ map_r (from_json_row source_artifact) rows = Ok (data t)
             /\ length (data t) = length rows).
Proof.
  split; [|split].
  - intro N. unfold from_json, getitem. now rewrite N.
  - intros rows_v rows rows' D I R N. unfold from_json, getitem.
    now rewrite D, I, R, N.
  - intros t E.
    destruct (from_json_ok _ _ E) as (rows_v & rows & nt & D & I & R & C & New & Ct).
    assert (Same : columns t = columns nt /\ data t = data nt).
    { destruct (dict_get json_obj (KStr "column_types")) as [cj|];
        [|subst; auto].
      destruct cj; try (destruct Ct as (ct & _ & ->); auto); subst; auto. }
    destruct Same as [Sc Sd].
    destruct (@Table_new_cases WBType Media _ _ (columns nt) (data nt))
      as [Shape _].
    destruct (Shape nt New) as (_ & _ & WS).
    split; [eapply well_shaped_same; eauto|].
    split.
    { destruct C as (cols_v & Gc & Ca). rewrite Sc.
      destruct (columns_arg_inv _ Ca) as [[-> Dc]| ->]; auto. }
    exists rows_v, rows. rewrite Sd. repeat split; auto.
    exact (map_r_length _ _ R).
Qed.

(** X7.  The column types of a table [from_json] returns.  Without
    "column_types" in the JSON, or with [null] there, the table is the one
    the constructor builds from the columns and rows read, with the types it
    infers.  Otherwise the descriptor read from "column_types" replaces the
    inferred one as it is: the rows are not checked against it. *)
Theorem from_json_column_types (json_obj : PyDict Value) (source_artifact : nat)
    (t : Tbl) :
  from_json json_obj source_artifact = Ok t ->
  match dict_get json_obj (KStr "column_types") with
  | None | Some VNone => Table_new (columns t) (data t) = Ok t
  | Some column_types =>
      type_from_dict column_types source_artifact = Ok (_column_types t)
      /\ exists nt, Table_new (columns t) (data t) = Ok nt
                    /\ t = set_column_types nt (_column_types t)
  end.
Proof.
  intro E.
  destruct (from_json_ok _ _ E) as (rows_v & rows & nt & D & I & R & C & New & Ct).
  destruct (dict_get json_obj (KStr "column_types")) as [cj|];
    [|now subst].
  destruct cj; try (now subst);
    destruct Ct as (ct & Tf & ->); simpl; split; auto; exists nt; auto.
Qed.
End FromJsonFacts.

(** ** PartitionedTable: the entries [from_json] builds *)

Lemma dict_set_keys {V : Type} (d : PyDict V) (k k' : Key) (v : V) :
  In k' (map fst (dict_set d k v)) <-> k' = k \/ In k' (map fst d).
Proof.
  induction d as [|[k0 v0] d IH]; simpl.
  - intuition.
  - destruct (Key_eqb k0 k) eqn:E; simpl.
    + apply Key_eqb_eq in E. subst k0. intuition.
    + rewrite IH. intuition.
Qed.

Lemma dict_set_nodup {V : Type} (d : PyDict V) (k : Key) (v : V) :
  NoDup (map fst d) -> NoDup (map fst (dict_set d k v)).
Proof.
  induction d as [|[k0 v0] d IH]; simpl; intro N.
  - constructor; [intros [] | constructor].
  - inversion N as [|? ? Nin N']; subst.
    destruct (Key_eqb k0 k) eqn:E; simpl; constructor; auto.
    intro I. apply dict_set_keys in I as [->|I]; [|contradiction].
    rewrite Key_eqb_refl in E. discriminate.
Qed.

Lemma dict_set_new {V : Type} (d : PyDict V) (k : Key) (v : V) :
  ~ In k (map fst d) -> dict_set d k v = d ++ [(k, v)].
Proof.
  induction d as [|[k0 v0] d IH]; simpl; intro N; [reflexivity|].
  destruct (Key_eqb k0 k) eqn:E.
  - apply Key_eqb_eq in E. subst. exfalso. apply N. now left.
  - rewrite IH; [reflexivity|]. intro I. apply N. now right.
Qed.

Section PartitionedEntries.
Context {WBType Media : Type}.
Variable artifact_get : nat -> string -> option (@Table WBType Media).

Local Abbreviation Tbl := (@Table WBType Media).
Local Abbreviation Entry := (@PartEntry WBType Media).
Local Abbreviation PT := (@PartitionedTable WBType Media).

(** The loop of [from_json] from the entries it has so far. *)
Lemma add_entries (path : string) (artifact : nat) (entries : list string) :
  forall (acc : PyDict Entry),
    let self := fold_left (fun instance entry => _add_part_entry instance entry artifact)
                          entries (mkPartitionedTable path acc) in
    parts_path self = path
    /\ (NoDup (map fst acc) -> NoDup (map fst (_loaded_part_entries self)))
    /\ (all_unloaded acc -> all_unloaded (_loaded_part_entries self))
    /\ (forall k, In k (map fst (_loaded_part_entries self))
                  <-> In k (map fst acc) \/ exists p, k = KStr p /\ In p entries)
    /\ (forall k, (forall p, In p entries -> k <> KStr p) ->
                  dict_get (_loaded_part_entries self) k = dict_get acc k)
    /\ (forall p, In p entries ->
                  dict_get (_loaded_part_entries self) (KStr p)
                  = Some (mkPartEntry p artifact None))
    /\ (NoDup entries ->
        (forall p, In p entries -> ~ In (KStr p) (map fst acc)) ->
        _loaded_part_entries self
        = acc ++ map (fun p => (KStr p, mkPartEntry p artifact None)) entries).
Proof.
  induction entries as [|p entries IH]; intro acc; simpl.
  - repeat split; auto.
    + intros [I|(p & _ & [])]; exact I.
    + intros p [].
    + intros _ _. now rewrite app_nil_r.
  - change (_add_part_entry (mkPartitionedTable path acc) p artifact)
      with (mkPartitionedTable path
              (dict_set acc (KStr p) (@mkPartEntry WBType Media p artifact None))).
    destruct (IH (dict_set acc (KStr p) (mkPartEntry p artifact None)))
      as (P & N & U & K & O & G & E).
    split; [exact P|]. split; [|split; [|split; [|split; [|split]]]].
    + intro Na. apply N. now apply dict_set_nodup.
    + intro Ua. apply U. now apply all_unloaded_set.
    + intro k. rewrite K, dict_set_keys. split.
      * intros [[->|I]|(q & -> & I)]; eauto.
      * intros [I|(q & -> & [<-|I])]; eauto.
    + intros k Nk. rewrite O by (intros q I; apply Nk; now right).
      rewrite dict_get_set.
      destruct (Key_eqb (KStr p) k) eqn:Ek; [|reflexivity].
      apply Key_eqb_eq in Ek. exfalso. apply (Nk p); auto.
    + intros q [<-|I]; [|now apply G].
      destruct (in_dec string_dec p entries) as [I|NI]; [now apply G|].
      rewrite O.
      * now rewrite dict_get_set, Key_eqb_refl.
      * intros q I Eq. inversion Eq; subst. contradiction.
    + intros Nd Fresh. inversion Nd as [|? ? Nin Nd']; subst.
      rewrite E; auto.
      * rewrite dict_set_new by (apply Fresh; now left).
        now rewrite <- app_assoc.
      * intros q I Iq. apply dict_set_keys in Iq as [Eq|Iq].
        -- inversion Eq; subst. contradiction.
        -- apply (Fresh q); auto.
Qed.

(** The entries [from_json] has added, one per path. *)
Lemma entries_built (path : string) (entries : list string) (artifact : nat) :
  let self : PT := PartitionedTable_from_json path entries artifact in
  parts_path self = path
  /\ NoDup (map fst (_loaded_part_entries self))
  /\ all_unloaded (_loaded_part_entries self)
  /\ loaded self = []
  /\ (forall k, In k (map fst (_loaded_part_entries self))
                <-> exists p, k = KStr p /\ In p entries)
  /\ (forall p, In p entries ->
                dict_get (_loaded_part_entries self) (KStr p)
                = Some (mkPartEntry p artifact None))
  /\ (NoDup entries ->
      _loaded_part_entries self
      = map (fun p => (KStr p, mkPartEntry p artifact None)) entries).
Proof.
  unfold PartitionedTable_from_json.
  destruct (add_entries path artifact entries []) as (P & N & U & K & _ & G & E).
  cbv zeta.
  assert (A : all_unloaded (@nil (Key * Entry))) by (intros kv []).
  repeat split; auto.
  - apply N. constructor.
  - pose proof (U A) as Un.
    destruct (fold_left _ entries _) as [path' d]. simpl in *.
    exact (all_unloaded_loaded path' Un).
  - intro I. apply K in I as [[]|I]. exact I.
  - intro I. apply K. now right.
Qed.

(** X8.  The [PartitionedTable] that [from_json] builds from the entries of
    the manifest keeps the path, has one entry per distinct path, under the
    key of that path and in the order of the listing, and no entry has its
    table in memory. *)
Theorem from_json_entries (path : string) (entries : list string) (artifact : nat) :
  let self : PT := PartitionedTable_from_json path entries artifact in
  parts_path self = path
  /\ NoDup (map fst (_loaded_part_entries self))
  /\ all_unloaded (_loaded_part_entries self)
  /\ loaded self = []
  /\ (forall k, In k (map fst (_loaded_part_entries self))
                <-> exists p, k = KStr p /\ In p entries)
  /\ (forall p, In p entries ->
                dict_get (_loaded_part_entries self) (KStr p)
                = Some (mkPartEntry p artifact None))
  /\ (NoDup entries ->
      _loaded_part_entries self
      = map (fun p => (KStr p, mkPartEntry p artifact None)) entries).
Proof. exact (entries_built path entries artifact). Qed.

Lemma all_rows_combine (keys : list Key) (tables : list Tbl) :
  length keys = length tables ->
  all_rows (combine keys tables) = concat (map data tables).
Proof.
  revert tables; induction keys as [|k keys IH]; intros [|tbl tables] L;
    simpl in *; try discriminate; [reflexivity|].
  unfold all_rows in *. simpl. rewrite IH by lia. reflexivity.
Qed.

(** X9.  [from_json], then [iterrows]: when the paths the manifest lists are
    distinct and the artifact has a table for each, all with the same
    columns, the iteration over the object [from_json] returns loads, walks
    and frees the parts in the order of the listing, ends, leaves the object
    as [from_json] built it, and yields the rows of the tables, one table
    after the other, under the indices 0, 1, 2, ... *)
Theorem from_json_then_iterrows (path : string) (entries : list string)
    (artifact : nat) (tables : list Tbl) (cols : list Key) :
  NoDup entries ->
  Forall2 (fun p tbl => artifact_get artifact p = Some tbl /\ columns tbl = cols)
          entries tables ->
  let self := PartitionedTable_from_json path entries artifact in
  let parts := combine (map KStr entries) tables in
  forall fuel, steps_of parts + 1 <= fuel ->
    exists g,
      run artifact_get fuel self (iterrows self)
      = (part_events 0 parts ++ [PStop], (self, g))
      /\ gen_ctrl g = Finished
      /\ yields (part_events 0 parts ++ [PStop])
         = enumerate_from 0 (concat (map data tables)).
Proof.
  intros Nd F self parts fuel Le.
  destruct (entries_built path entries artifact)
    as (P & N & U & _ & _ & G & E).
  fold self in P, N, U, G, E. specialize (E Nd).
  destruct self as [path' ents]. simpl in P, N, U, G, E. subst path'.
  assert (Keys : map fst ents = map fst parts).
  { unfold parts. rewrite E, map_map. simpl.
    clear - F. induction F; simpl; [reflexivity | now f_equal]. }
  assert (R : Forall (fun kt => resolves artifact_get ents (fst kt) (snd kt)
                                /\ columns (snd kt) = cols) parts).
  { unfold parts. clear - F G.
    assert (G' : forall p, In p entries ->
                 dict_get ents (KStr p) = Some (mkPartEntry p artifact None))
      by exact G.
    clear G. induction F as [|p tbl entries tables [Hp Hc] F IH]; simpl;
      constructor.
    - split; [|exact Hc]. exists (mkPartEntry p artifact None). simpl.
      repeat split; auto. apply G'. now left.
    - apply IH. intros q I. apply G'. now right. }
  assert (Run : run artifact_get fuel (mkPartitionedTable path ents)
                    (iterrows (mkPartitionedTable path ents))
                = (part_events 0 parts ++ [PStop],
                   (mkPartitionedTable path ents,
                    mkGen (match parts with [] => None | _ => Some cols end)
                          (0 + Z.of_nat (length (all_rows parts))) Finished))).
  { replace fuel with (steps_of parts + (1 + (fuel - steps_of parts - 1))) by lia.
    unfold iterrows. simpl _loaded_part_entries. rewrite Keys.
    rewrite <- (app_nil_r (map fst parts)).
    rewrite run_app, (walk_parts path [] (c := None) 0 R) by auto.
    rewrite run_app. simpl run at 1. unfold step. cbn [gen_ctrl].
    rewrite run_halted by exact I. reflexivity. }
  destruct parts as [|kt parts'] eqn:Ep.
  - exists (mkGen None 0 Finished). split; [exact Run|]. split; [reflexivity|].
    assert (tables = [] \/ entries = []) as [->| ->].
    { unfold parts in Ep. destruct entries, tables; auto; discriminate. }
    + reflexivity.
    + inversion F. reflexivity.
  - exists (mkGen (Some cols) (0 + Z.of_nat (length (all_rows (kt :: parts')))) Finished).
    split; [exact Run|]. split; [reflexivity|].
    rewrite yields_app, yields_part_events, app_nil_r. rewrite <- Ep.
    unfold parts. rewrite all_rows_combine; [reflexivity|].
    rewrite length_map. exact (Forall2_length F).
Qed.
End PartitionedEntries.

(** ** PartitionedTable.iterrows: what an iteration that fails leaves *)

Section PartitionedFailures.
Context {WBType Media : Type}.
Variable artifact_get : nat -> string -> option (@Table WBType Media).

Local Abbreviation Tbl := (@Table WBType Media).
Local Abbreviation Entry := (@PartEntry WBType Media).
Local Abbreviation PT := (@PartitionedTable WBType Media).

Lemma loaded_set_one (path : string) (d : PyDict Entry) (k : Key) (e' : Entry)
    (tbl : Tbl) :
  all_unloaded d -> In k (map fst d) -> _part e' = Some tbl ->
  loaded (mkPartitionedTable path (dict_set d k e')) = [k].
Proof.
  unfold loaded. cbn [_loaded_part_entries].
  induction d as [|[k0 v0] d IH]; intros A I P; [destruct I|].
  assert (A' : all_unloaded d) by (intros kv Hk; apply A; now right).
  pose proof (all_unloaded_loaded path A') as L. unfold loaded in L.
  cbn [_loaded_part_entries] in L.
  simpl. destruct (Key_eqb k0 k) eqn:E; simpl.
  - apply Key_eqb_eq in E. subst k0. rewrite P. simpl. now rewrite L.
  - pose proof (A (k0, v0) (or_introl eq_refl)) as U0. simpl in U0. rewrite U0.
    apply IH; auto. destruct I as [Ek|I]; [|exact I].
    simpl in Ek. subst k0. rewrite Key_eqb_refl in E. discriminate.
Qed.

(** X10.  After the ValueError on non-matching columns, the part whose
    columns did not match is still in memory: [iterrows] loaded it for the
    comparison and raises before it reaches [free].  It is the only part in
    memory when none was at the start. *)
Theorem mismatch_leaves_part_loaded (self : PT) (k0 kq : Key) (first q : Tbl)
    (more : list (Key * Tbl)) (post : list Key) :
  let pre := (k0, first) :: more in
  map fst (_loaded_part_entries self) = map fst pre ++ kq :: post ->
  all_unloaded (_loaded_part_entries self) ->
  Forall (fun kt => resolves artifact_get (_loaded_part_entries self)
                             (fst kt) (snd kt)) pre ->
  resolves artifact_get (_loaded_part_entries self) kq q ->
  (forall kt, In kt more -> columns (snd kt) = columns first) ->
  columns q <> columns first ->
  forall fuel, steps_of pre + 1 <= fuel ->
    let self' := fst (snd (run artifact_get fuel self (iterrows self))) in
    loaded self' = [kq]
    /\ exists e, dict_get (_loaded_part_entries self') kq = Some e
                 /\ _part e = Some q.
Proof.
  intros pre Keys A F Rq C D fuel Le. cbv zeta. destruct self as [path ents].
  cbn [_loaded_part_entries] in Keys, A, F, Rq.
  assert (R : Forall (fun kt => resolves artifact_get ents (fst kt) (snd kt)
                                /\ columns (snd kt) = columns first) pre).
  { apply Forall_forall. intros kt I. split.
    - now apply (proj1 (Forall_forall _ _) F).
    - destruct I as [<-|I]; [reflexivity | now apply C]. }
  replace fuel with (steps_of pre + (1 + (fuel - steps_of pre - 1))) by lia.
  unfold iterrows. cbn [_loaded_part_entries]. rewrite Keys.
  rewrite run_app.
  rewrite (walk_parts path (kq :: post) (c := None) 0 R) by auto.
  rewrite run_app.
  destruct Rq as (e & G & U & P).
  assert (St : run artifact_get 1 (mkPartitionedTable path ents)
                   (mkGen (Some (columns first))
                          (0 + Z.of_nat (length (all_rows pre)))
                          (AtLoopHead (kq :: post)))
               = ([PLoad kq;
                   PRaise (ValueError (MsgNonMatchingColumns (columns first)
                                                              (columns q)))],
                  (mkPartitionedTable path
                     (dict_set ents kq
                        (mkPartEntry (entry_path e) (source_artifact e) (Some q))),
                   mkGen (Some (columns first))
                         (0 + Z.of_nat (length (all_rows pre)))
                         (Failed (ValueError (MsgNonMatchingColumns
                                                (columns first) (columns q))))))).
  { simpl run. unfold step. cbn [gen_ctrl _loaded_part_entries]. rewrite G.
    unfold get_part. rewrite U. fold (part_of artifact_get e). rewrite P.
    cbn [gen_columns gen_ndx parts_path].
    destruct (list_eqb Key_eqb (columns first) (columns q)) eqn:E.
    - apply keys_eqb_eq in E. congruence.
    - reflexivity. }
  change (match pre with [] => None | _ => Some (columns first) end)
    with (Some (columns first)).
  rewrite St.
  rewrite run_halted by exact I. cbn [fst snd app]. split.
  - eapply loaded_set_one; eauto.
    + rewrite Keys. apply in_or_app. right. now left.
    + reflexivity.
  - cbn [_loaded_part_entries]. rewrite dict_get_set, Key_eqb_refl.
    eexists. split; reflexivity.
Qed.

Lemma loaded_head (path : string) (d : PyDict Entry) (k : Key) (rest : list Key)
    (e e' : Entry) (tbl : Tbl) :
  map fst d = k :: rest -> dict_get d k = Some e -> _part e = None ->
  _part e' = Some tbl ->
  loaded (mkPartitionedTable path (dict_set d k e'))
  = k :: loaded (mkPartitionedTable path d).
Proof.
  unfold loaded. cbn [_loaded_part_entries].
  destruct d as [|[k0 v0] d]; [discriminate|]. simpl.
  intros K G U P. inversion K; subst. rewrite Key_eqb_refl in *.
  inversion G; subst. simpl. now rewrite U, P.
Qed.

(** X11.  The bound of one part in memory needs a start with none in
    memory: when the first part is not in memory and the artifact has it,
    the first step of [iterrows] loads it beside every part that already was
    in memory, so a part some earlier iteration has left loaded makes two. *)
Theorem stale_part_stays_loaded (self : PT) (k1 : Key) (rest : list Key)
    (tbl1 : Tbl) :
  map fst (_loaded_part_entries self) = k1 :: rest ->
  resolves artifact_get (_loaded_part_entries self) k1 tbl1 ->
  let self' := fst (snd (run artifact_get 1 self (iterrows self))) in
  loaded self' = k1 :: loaded self
  /\ (loaded self <> [] -> 2 <= length (loaded self')).
Proof.
  intros K (e & G & U & P). destruct self as [path ents].
  cbn [_loaded_part_entries] in *.
  assert (St : fst (snd (run artifact_get 1 (mkPartitionedTable path ents)
                             (iterrows (mkPartitionedTable path ents))))
               = mkPartitionedTable path
                   (dict_set ents k1
                      (mkPartEntry (entry_path e) (source_artifact e) (Some tbl1)))).
  { unfold iterrows. cbn [_loaded_part_entries]. rewrite K.
    simpl run. unfold step. cbn [gen_ctrl _loaded_part_entries]. rewrite G.
    unfold get_part. rewrite U. fold (part_of artifact_get e). rewrite P.
    reflexivity. }
  cbv zeta. rewrite St.
  rewrite (@loaded_head path ents k1 rest e
             (mkPartEntry (entry_path e) (source_artifact e) (Some tbl1))
             tbl1 K G U eq_refl).
  split; [reflexivity|]. intro Ne. simpl.
  destruct (loaded (mkPartitionedTable path ents)); [congruence | simpl; lia].
Qed.

(** X12.  A part the artifact does not have: [get_part] gets [None] for it
    and reading its columns raises AttributeError.  [iterrows] has by then
    yielded the rows of the parts before it, under their running indices,
    and the error ends the generator. *)
Theorem iterrows_missing_part (self : PT) (pre : list (Key * Tbl)) (kq : Key)
    (post : list Key) (cols : list Key) (e : Entry) :
  map fst (_loaded_part_entries self) = map fst pre ++ kq :: post ->
  NoDup (map fst (_loaded_part_entries self)) ->
  Forall (fun kt => available artifact_get (_loaded_part_entries self)
                              (fst kt) (snd kt)
                    /\ columns (snd kt) = cols) pre ->
  dict_get (_loaded_part_entries self) kq = Some e ->
  current_part artifact_get e = None ->
  forall fuel, steps_of pre + 1 <= fuel ->
    exists evs self' g,
      run artifact_get fuel self (iterrows self)
      = (evs ++ [PRaise (AttributeError "columns")], (self', g))
      /\ gen_ctrl g = Failed (AttributeError "columns")
      /\ yields evs = enumerate_from 0 (all_rows pre)
      /\ forall fuel', run artifact_get fuel' self' g = ([], (self', g)).
Proof.
  intros Keys N F G Cur fuel Le. destruct self as [path ents].
  cbn [_loaded_part_entries] in Keys, N, F, G.
  assert (Npre : NoDup (map fst pre) /\ ~ In kq (map fst pre)).
  { rewrite Keys in N. split.
    - exact (NoDup_app_remove_r _ _ N).
    - intro I. apply NoDup_remove_2 in N. apply N. apply in_or_app. now left. }
  destruct Npre as [Npre Nq].
  destruct (@walk_parts_any _ _ artifact_get path cols (kq :: post) pre ents None 0
              Npre F (or_introl eq_refl)) as (evs & ents' & Run & Y & Keep).
  replace fuel with (steps_of pre + (1 + (fuel - steps_of pre - 1))) by lia.
  unfold iterrows. cbn [_loaded_part_entries]. rewrite Keys.
  rewrite run_app, Run, run_app.
  rewrite <- (Keep kq Nq) in G.
  destruct (get_part_current artifact_get e) as [Cur' _].
  destruct (get_part artifact_get e) as [e' part] eqn:Gp. simpl in Cur'.
  rewrite Cur in Cur'. subst part.
  assert (St : exists loads,
             yields loads = []
             /\ forall c n,
                 run artifact_get 1 (mkPartitionedTable path ents')
                     (mkGen c n (AtLoopHead (kq :: post)))
                 = (loads ++ [PRaise (AttributeError "columns")],
                    (mkPartitionedTable path (dict_set ents' kq e'),
                     mkGen c n (Failed (AttributeError "columns"))))).
  { exists (match _part e with None => [PLoad kq] | Some _ => [] end).
    split; [destruct (_part e); reflexivity|]. intros c n.
    simpl run. unfold step. cbn [gen_ctrl _loaded_part_entries]. rewrite G, Gp.
    cbn [gen_columns gen_ndx parts_path]. now rewrite app_nil_r. }
  destruct St as (loads & Yl & St). rewrite St.
  rewrite run_halted by exact I.
  exists (evs ++ loads). do 2 eexists.
  split; [now rewrite app_nil_r, app_assoc|]. split; [reflexivity|].
  split; [rewrite yields_app, Yl, Y; apply app_nil_r|].
  intro fuel'. apply run_halted. exact I.
Qed.
End PartitionedFailures.

(** ** Audio: captions and the summary of a sequence *)

Lemma bind_r_ok {A B : Type} (m : Result A) (k : A -> Result B) (b : B) :
  bind_r m k = Ok b -> exists a, m = Ok a /\ k a = Ok b.
Proof. destruct m as [a|e]; simpl; [eauto | discriminate]. Qed.

Lemma is_None_iff (v : Value) : is_None v = true <-> v = VNone.
Proof. destruct v; simpl; split; intro E; try discriminate; reflexivity. Qed.

Section AudioFacts.
Context {Media : Type} `{EN : Environment Media}.

Local Abbreviation Clip := (@Audio.Audio Media).

Lemma forallb_is_None (l : list Value) :
  forallb is_None l = true <-> Forall (fun c => c = VNone) l.
Proof.
  rewrite forallb_forall, Forall_forall. split; intros H x I.
  - apply is_None_iff. now apply H.
  - apply is_None_iff. now apply H.
Qed.

(** X13.  [Audio.captions] returns [False] exactly when no clip has a
    caption.  Otherwise it returns a list with one entry per clip, in the
    order of the clips: the caption of the clip, and the empty string for
    a clip that has none, so no entry of the list is [None]. *)
Theorem Audio_captions_cases (audio_list : list Clip) :
  (Audio.captions audio_list = VBool false
   <-> Forall (fun a => Audio._caption a = VNone) audio_list)
  /\ (Exists (fun a => Audio._caption a <> VNone) audio_list ->
      exists l,
        Audio.captions audio_list = VList l
        /\ length l = length audio_list
        /\ Forall (fun c => c <> VNone) l
        /\ forall i a,
            nth_error audio_list i = Some a ->
            nth_error l i = Some (match Audio._caption a with
                                  | VNone => VStr ""
                                  | c => c
                                  end)).
Proof.
  unfold Audio.captions.
  destruct (forallb is_None (map Audio._caption audio_list)) eqn:E.
  - apply forallb_is_None in E. rewrite Forall_map in E. split.
    + split; auto.
    + intro Ex. apply Exists_exists in Ex as (a & I & N).
      exfalso. apply N. exact (proj1 (Forall_forall _ _) E a I).
  - split.
    + split; [discriminate|]. intro F.
      assert (T : forallb is_None (map Audio._caption audio_list) = true)
        by (apply forallb_is_None; now rewrite Forall_map).
      congruence.
    + intros _. eexists. split; [reflexivity|]. rewrite !length_map.
      split; [reflexivity|]. split.
      * rewrite !Forall_map. apply Forall_forall. intros a _.
        destruct (Audio._caption a); simpl; discriminate.
      * intros i a Nth. rewrite map_map.
        rewrite nth_error_map, Nth. simpl.
        destruct (Audio._caption a); reflexivity.
Qed.

Lemma set_if_true_get (meta : PyDict Value) (k : string) (v : Value) (k' : Key) :
  dict_get (Audio.set_if_true meta k v) k'
  = if truthy v && Key_eqb (KStr k) k' then Some v else dict_get meta k'.
Proof.
  unfold Audio.set_if_true. destruct (truthy v); simpl; [|reflexivity].
  apply dict_get_set.
Qed.

(** X14.  The summary [Audio.seq_to_json] returns when the soundfile
    module is there, the directory can be made and every clip serializes:
    "count" is the number of clips and "audio" holds their JSON in order;
    "sampleRates" and "durations" are there as soon as there is a clip, with
    one entry per clip, [None] included; "captions" is there only when some
    clip has a caption. *)
Theorem Audio_seq_to_json_meta (seq : list Clip) (run : nat) (key : Key)
    (step : Value) (jsons : list (PyDict Value)) :
  get_module_required "soundfile" = Ok tt ->
  mkdir_exists_ok (path_join [run_dir run; "media"; "audio"]) = Ok tt ->
  map_r (fun a => Audio.to_json a (DRun run)) seq = Ok jsons ->
  exists meta,
    Audio.seq_to_json seq run key step = Ok meta
    /\ dict_get meta (KStr "_type") = Some (VStr "audio")
    /\ dict_get meta (KStr "count") = Some (VInt (Z.of_nat (length seq)))
    /\ dict_get meta (KStr "audio") = Some (VList (map VDict jsons))
    /\ length jsons = length seq
    /\ dict_get meta (KStr "sampleRates")
       = match seq with
         | [] => None
         | _ => Some (VList (map Audio._sample_rate seq))
         end
    /\ dict_get meta (KStr "durations")
       = match seq with
         | [] => None
         | _ => Some (VList (map Audio._duration seq))
         end
    /\ dict_get meta (KStr "captions")
       = if forallb is_None (map Audio._caption seq)
         then None
         else Some (Audio.captions seq).
Proof.
  intros Mod Dir Js. unfold Audio.seq_to_json. rewrite Mod. simpl.
  rewrite Dir. simpl. rewrite Js. simpl.
  eexists. split; [reflexivity|].
  rewrite !set_if_true_get. cbn [dict_get Key_eqb String.eqb Ascii.eqb Bool.eqb].
  rewrite !andb_false_r, !andb_true_r.
  split; [reflexivity|]. split; [reflexivity|]. split; [reflexivity|].
  split; [exact (map_r_length _ _ Js)|].
  split; [|split].
  - destruct seq; reflexivity.
  - destruct seq; reflexivity.
  - unfold Audio.captions.
    destruct (forallb is_None (map Audio._caption seq)) eqn:E; [reflexivity|].
    destruct seq as [|a seq']; [discriminate|]. reflexivity.
Qed.
End AudioFacts.

(** ** Image: serialization, and the summary of a sequence *)

Section ImageFacts.
Context {Media : Type} `{EN : Environment Media}.

Local Abbreviation Img := (@Image.Image Media).

Lemma Image_set_if_true_get (meta : PyDict Value) (k : string) (v : Value)
    (k' : Key) :
  dict_get (Image.set_if_true meta k v) k'
  = if truthy v && Key_eqb (KStr k) k' then Some v else dict_get meta k'.
Proof.
  unfold Image.set_if_true. destruct (truthy v); simpl; [|reflexivity].
  apply dict_get_set.
Qed.

Lemma set_if_not_None_get (meta : PyDict Value) (k : string) (v : Value)
    (k' : Key) :
  dict_get (Image.set_if_not_None meta k v) k'
  = if negb (is_None v) && Key_eqb (KStr k) k' then Some v else dict_get meta k'.
Proof.
  unfold Image.set_if_not_None. destruct (is_None v); simpl; [reflexivity|].
  apply dict_get_set.
Qed.

Lemma image_fields_type (self : Img) (base : PyDict Value) :
  dict_get (image_fields self base) (KStr "_type") = Some (VStr "image-file")
  /\ dict_get (image_fields self base) (KStr "format") = Some (Image.format self).
Proof.
  unfold image_fields.
  rewrite !Image_set_if_true_get, !set_if_not_None_get, !dict_get_set.
  cbn [Key_eqb String.eqb Ascii.eqb Bool.eqb].
  rewrite !andb_false_r. auto.
Qed.

(** What the last two steps of [to_json] (boxes, masks) leave of the
    fields set before. *)
Lemma boxes_masks_keep (self : Img) (dest : Dest) (d json : PyDict Value) (k : Key) :
  bind_r
    match Image.nonempty (Image._boxes self) with
    | Some boxes =>
        bind_r (Image.group_to_json
                  (fun box => Image.BoundingBoxes2D_to_json box dest) boxes [])
               (fun group => Ok (dict_set d (KStr "boxes") (VDict group)))
    | None => Ok d
    end
    (fun json_dict =>
       match Image.nonempty (Image._masks self) with
       | Some masks =>
           bind_r (Image.group_to_json
                     (fun mask => Image.ImageMask_to_json mask dest) masks [])
                  (fun group => Ok (dict_set json_dict (KStr "masks") (VDict group)))
       | None => Ok json_dict
       end) = Ok json ->
  k <> KStr "boxes" -> k <> KStr "masks" ->
  dict_get json k = dict_get d k.
Proof.
  intros E Nb Nm.
  assert (Kb : Key_eqb (KStr "boxes") k = false).
  { destruct (Key_eqb (KStr "boxes") k) eqn:Ek; [|reflexivity].
    apply Key_eqb_eq in Ek. congruence. }
  assert (Km : Key_eqb (KStr "masks") k = false).
  { destruct (Key_eqb (KStr "masks") k) eqn:Ek; [|reflexivity].
    apply Key_eqb_eq in Ek. congruence. }
  apply bind_r_ok in E as (j1 & E1 & E2).
  assert (G1 : dict_get j1 k = dict_get d k).
  { destruct (Image.nonempty (Image._boxes self)) as [boxes|].
    - apply bind_r_ok in E1 as (g & _ & E1). inversion E1; subst.
      now rewrite dict_get_set, Kb.
    - now inversion E1. }
  rewrite <- G1.
  destruct (Image.nonempty (Image._masks self)) as [masks|].
  - apply bind_r_ok in E2 as (g & _ & E2). inversion E2; subst.
    now rewrite dict_get_set, Km.
  - now inversion E2.
Qed.

(** [Image.to_json] toward each kind of destination. *)
Lemma Image_to_json_cases (self : Img) :
  (forall artifact base,
      super_to_json ImageKind (Image.media self) (DArtifact artifact) = Ok base ->
      Image._classes self = None ->
      Image._masks self <> None \/ Image._boxes self <> None ->
      Image.to_json self (DArtifact artifact)
      = Raise (ValueError Image.MsgClassesMustBePassed))
  /\ (forall h base,
         super_to_json ImageKind (Image.media self) (DOther h) = Ok base ->
         Image.to_json self (DOther h) = Raise (ValueError MsgToJsonAccepts))
  /\ (forall dest json,
         Image.to_json self dest = Ok json ->
         dict_get json (KStr "_type") = Some (VStr "image-file")
         /\ dict_get json (KStr "format") = Some (Image.format self)
         /\ forall artifact classes,
             dest = DArtifact artifact ->
             Image._classes self = Some classes ->
             exists path digest,
               artifact_add_classes artifact (Classes._class_set classes)
                                    (path_join ["media"; "cls"])
               = Ok (path, digest)
               /\ dict_get json (KStr "classes")
                  = Some (VDict [(KStr "type", VStr "classes-file");
                                 (KStr "path", path);
                                 (KStr "digest", digest)])).
Proof.
  split; [|split].
  - intros artifact base B C MB. unfold Image.to_json. rewrite B. simpl.
    rewrite C.
    destruct (Image._masks self), (Image._boxes self); try reflexivity.
    destruct MB; congruence.
  - intros h base B. unfold Image.to_json. rewrite B. reflexivity.
  - intros dest json E. unfold Image.to_json in E.
    apply bind_r_ok in E as (base & B & E). fold (image_fields self base) in E.
    apply bind_r_ok in E as (d & D & E).
    pose proof (fun k => @boxes_masks_keep self dest d json k E) as Keep.
    destruct (image_fields_type self base) as [Ty Fo].
    assert (Dk : forall k, k <> KStr "classes" ->
                           dict_get d k = dict_get (image_fields self base) k).
    { intros k Nk. destruct dest as [r|a|h]; [now inversion D| |discriminate].
      destruct (Image._classes self) as [c|].
      - assert (D' : bind_r (artifact_add_classes a (Classes._class_set c)
                                                  (path_join ["media"; "cls"]))
                            (fun classes_entry =>
                               Ok (dict_set (image_fields self base) (KStr "classes")
                                     (VDict [(KStr "type", VStr "classes-file");
                                             (KStr "path", fst classes_entry);
                                             (KStr "digest", snd classes_entry)])))
                     = Ok d)
          by (destruct (Image._masks self), (Image._boxes self); exact D).
        apply bind_r_ok in D' as (entry & _ & D'). inversion D'; subst.
        rewrite dict_get_set.
        destruct (Key_eqb (KStr "classes") k) eqn:Ek; [|reflexivity].
        apply Key_eqb_eq in Ek. congruence.
      - destruct (Image._masks self), (Image._boxes self);
          try discriminate. now inversion D. }
    split; [|split].
    + rewrite Keep, Dk by discriminate. exact Ty.
    + rewrite Keep, Dk by discriminate. exact Fo.
    + intros artifact classes -> C. rewrite C in D.
      assert (D' : bind_r (artifact_add_classes artifact (Classes._class_set classes)
                                                (path_join ["media"; "cls"]))
                          (fun classes_entry =>
                             Ok (dict_set (image_fields self base) (KStr "classes")
                                   (VDict [(KStr "type", VStr "classes-file");
                                           (KStr "path", fst classes_entry);
                                           (KStr "digest", snd classes_entry)])))
                   = Ok d)
        by (destruct (Image._masks self), (Image._boxes self); exact D).
      apply bind_r_ok in D' as ([path digest] & Add & D'). inversion D'; subst.
      exists path, digest. split; [exact Add|].
      rewrite Keep by discriminate.
      now rewrite dict_get_set, Key_eqb_refl.
Qed.

(** X15.  [Image.to_json] and its destination, once the base class has
    returned its fields.  Toward an artifact, an image that has masks or
    boxes and no classes raises the ValueError "classes must be passed ...".
    Toward anything that is neither a run nor an artifact it raises the
    ValueError "to_json accepts ...".  Whenever it returns, the JSON has
    "_type" "image-file" and the format of the image; toward an artifact,
    for an image with classes, the classes have been added to the artifact
    under the name media/cls and "classes" refers to that entry. *)
Theorem Image_to_json_destinations (self : Img) :
  (forall artifact base,
      super_to_json ImageKind (Image.media self) (DArtifact artifact) = Ok base ->
      Image._classes self = None ->
      Image._masks self <> None \/ Image._boxes self <> None ->
      Image.to_json self (DArtifact artifact)
      = Raise (ValueError Image.MsgClassesMustBePassed))
  /\ (forall h base,
         super_to_json ImageKind (Image.media self) (DOther h) = Ok base ->
         Image.to_json self (DOther h) = Raise (ValueError MsgToJsonAccepts))
  /\ (forall dest json,
         Image.to_json self dest = Ok json ->
         dict_get json (KStr "_type") = Some (VStr "image-file")
         /\ dict_get json (KStr "format") = Some (Image.format self)
         /\ forall artifact classes,
             dest = DArtifact artifact ->
             Image._classes self = Some classes ->
             exists path digest,
               artifact_add_classes artifact (Classes._class_set classes)
                                    (path_join ["media"; "cls"])
               = Ok (path, digest)
               /\ dict_get json (KStr "classes")
                  = Some (VDict [(KStr "type", VStr "classes-file");
                                 (KStr "path", path);
                                 (KStr "digest", digest)])).
Proof. exact (Image_to_json_cases self). Qed.

Lemma group_to_json_keys {A : Type} (f : A -> Result Value) (d : PyDict A) :
  forall (res gd : PyDict Value),
    Image.group_to_json f d res = Ok gd ->
    forall k, In k (map fst gd) <-> In k (map fst res) \/ In k (map fst d).
Proof.
  induction d as [|[k0 x] d IH]; intros res gd E k; simpl in E.
  - inversion E; subst. simpl. intuition.
  - apply bind_r_ok in E as (j & _ & E). rewrite (IH _ _ E k).
    rewrite dict_set_keys. simpl. intuition.
Qed.

Lemma all_groups_aligned {A : Type} (f : A -> Result Value)
    (attr : Img -> option (PyDict A)) (images : list Img) :
  forall groups,
    Image.all_groups f attr images = Ok groups ->
    Forall2 (group_of attr) images groups.
Proof.
  induction images as [|image images IH]; intros groups E; simpl in E.
  - inversion E. constructor.
  - apply bind_r_ok in E as (g & G & E).
    apply bind_r_ok in E as (gs & Gs & E). inversion E; subst.
    constructor; [|now apply IH].
    unfold group_of. destruct (Image.nonempty (attr image)) as [d|].
    + apply bind_r_ok in G as (gd & Gd & G). inversion G; subst.
      exists gd. split; [reflexivity|]. intro k.
      rewrite (group_to_json_keys _ _ _ Gd k). simpl. intuition.
    + now inversion G.
Qed.

Lemma groups_or_False_cases {A : Type} (attr : Img -> option (PyDict A))
    (images : list Img) (groups : list Value) :
  Forall2 (group_of attr) images groups ->
  (Image.groups_or_False groups = VBool false
   /\ Forall (fun image => Image.nonempty (attr image) = None) images)
  \/ (Image.groups_or_False groups = VList groups
      /\ Exists (fun image => Image.nonempty (attr image) <> None) images).
Proof.
  intro F. unfold Image.groups_or_False.
  assert (All : forallb is_None groups = true
                <-> Forall (fun image => Image.nonempty (attr image) = None) images).
  { induction F as [|image g images groups G F IH]; simpl.
    - split; auto.
    - rewrite andb_true_iff, IH. unfold group_of in G.
      destruct (Image.nonempty (attr image)) as [d|] eqn:Ne.
      + destruct G as (gd & -> & _). simpl. split.
        * intros [? _]. discriminate.
        * intro H. inversion H; subst. congruence.
      + subst g. simpl. split.
        * intros [_ H]. constructor; auto.
        * intro H. inversion H; auto. }
  destruct (forallb is_None groups) eqn:N.
  - left. rewrite andb_false_r. split; [reflexivity | now apply All].
  - right. split; [destruct groups; [discriminate | reflexivity]|].
    clear All. induction F as [|image g images groups G F IH]; [discriminate|].
    unfold group_of in G. simpl in N.
    destruct (Image.nonempty (attr image)) as [d|] eqn:Ne.
    + apply Exists_cons_hd. congruence.
    + subst g. simpl in N. apply Exists_cons_tl. now apply IH.
Qed.

(** X16.  What [Image.all_masks] and [Image.all_boxes] return when the
    masks or boxes serialize: [False] when no image has any; otherwise a list
    with one entry per image, in the order of the images, [None] for an
    image without masks (boxes) and for the others a dictionary with the
    keys of the image's masks (boxes). *)
Theorem Image_groups_aligned (images : list Img) (run : nat) (run_key : Key)
    (step : Value) :
  (forall v,
      Image.all_masks images run run_key step = Ok v ->
      (v = VBool false
       /\ Forall (fun image => Image.nonempty (Image._masks image) = None) images)
      \/ exists groups,
          v = VList groups
          /\ Exists (fun image => Image.nonempty (Image._masks image) <> None) images
          /\ Forall2 (group_of Image._masks) images groups)
  /\ (forall v,
         Image.all_boxes images run run_key step = Ok v ->
         (v = VBool false
          /\ Forall (fun image => Image.nonempty (Image._boxes image) = None) images)
         \/ exists groups,
             v = VList groups
             /\ Exists (fun image => Image.nonempty (Image._boxes image) <> None) images
             /\ Forall2 (group_of Image._boxes) images groups).
Proof.
  split; intros v E.
  - unfold Image.all_masks in E. apply bind_r_ok in E as (groups & G & E).
    inversion E; subst. apply all_groups_aligned in G.
    destruct (groups_or_False_cases G) as [[-> F]|[-> Ex]]; [now left|].
    right. exists groups. auto.
  - unfold Image.all_boxes in E. apply bind_r_ok in E as (groups & G & E).
    inversion E; subst. apply all_groups_aligned in G.
    destruct (groups_or_False_cases G) as [[-> F]|[-> Ex]]; [now left|].
    right. exists groups. auto.
Qed.
End ImageFacts.

Section ImageSequence.
Context {Media : Type} `{EN : Environment Media}.

Local Abbreviation Img := (@Image.Image Media).

Lemma map_r_raise {A B : Type} (f : A -> Result B) (xs : list A) (x : A) (e : Exn) :
  In x xs -> f x = Raise e -> exists e', map_r f xs = Raise e'.
Proof.
  induction xs as [|y xs IH]; intros I E; [destruct I|]. simpl.
  destruct I as [->|I].
  - rewrite E. eauto.
  - destruct (f y); [|eauto]. destruct (IH I E) as [e' ->]. eauto.
Qed.

Lemma seq_to_json_unfold (images : list Img) (run : nat) (key : Key)
    (step : Value) (first : Img) (rest : list Img) (jsons : list (PyDict Value))
    (first_json : PyDict Value) (format : Value) :
  images = first :: rest ->
  map_r (fun obj => Image.to_json obj (DRun run)) images = Ok (first_json :: jsons) ->
  (forall obj, In obj (first_json :: jsons) -> Image.check_path obj = Ok tt) ->
  dict_get first_json (KStr "format") = Some format ->
  Image.seq_to_json images run key step
  = (bind_r (Image.all_captions images) (fun captions =>
       bind_r (Image.all_masks images run key step) (fun all_masks =>
         bind_r (Image.all_boxes images run key step) (fun all_boxes =>
           Ok (Image.set_if_true
                 (Image.set_if_true
                    (Image.set_if_true (image_meta images first format)
                                       "captions" captions)
                    "all_masks" all_masks)
                 "all_boxes" all_boxes)))),
     if negb (sizes_match images first) then [WarnImageSizes] else []).
Proof.
  intros -> Js Paths Fmt. unfold Image.seq_to_json. rewrite Js.
  cbn [bind_r].
  assert (P : exists us, map_r Image.check_path (first_json :: jsons) = Ok us).
  { clear Js Fmt. induction (first_json :: jsons) as [|o os IH]; simpl; [eauto|].
    rewrite (Paths o (or_introl eq_refl)).
    destruct IH as [us ->]; [|eauto]. intros obj I. apply Paths. now right. }
  destruct P as [us ->]. cbn [bind_r]. unfold getitem. rewrite Fmt.
  cbn [bind_r]. unfold sizes_match, image_meta.
  destruct (Image._image_size first) as [w h]. reflexivity.
Qed.

(** X17.  [Image.seq_to_json].  With no image it raises IndexError.  When
    the JSON of some image has a path that does not start with the media
    directory of images, it raises and has logged nothing.  When every image
    serializes under that directory and the masks and boxes serialize, it
    returns the summary, whether the sizes of the images agree or not:
    images of different sizes only add the warning.  The summary has the
    number of images, the width and height of the first image and its
    format; "captions" is there exactly when the first image has a caption,
    and then holds the caption of every image, [None] for one without. *)
Theorem Image_seq_to_json_meta (images : list Img) (run : nat) (key : Key)
    (step : Value) :
  (images = [] -> Image.seq_to_json images run key step = (Raise IndexError, []))
  /\ (forall jsons obj p,
         map_r (fun o => Image.to_json o (DRun run)) images = Ok jsons ->
         In obj jsons ->
         dict_get obj (KStr "path") = Some (VStr p) ->
         String.prefix (to_forward_slash_path Image.get_media_subdir) p = false ->
         exists e, Image.seq_to_json images run key step = (Raise e, []))
  /\ (forall first rest jsons masks boxes,
         images = first :: rest ->
         map_r (fun o => Image.to_json o (DRun run)) images = Ok jsons ->
         (forall obj, In obj jsons -> Image.check_path obj = Ok tt) ->
         Image.all_masks images run key step = Ok masks ->
         Image.all_boxes images run key step = Ok boxes ->
         exists meta,
           Image.seq_to_json images run key step
           = (Ok meta,
              if sizes_match images first then [] else [WarnImageSizes])
           /\ dict_get meta (KStr "_type") = Some (VStr "images/separated")
           /\ dict_get meta (KStr "count")
              = Some (VInt (Z.of_nat (length images)))
           /\ dict_get meta (KStr "width")
              = Some (VInt (fst (Image._image_size first)))
           /\ dict_get meta (KStr "height")
              = Some (VInt (snd (Image._image_size first)))
           /\ dict_get meta (KStr "format") = Some (Image.format first)
           /\ dict_get meta (KStr "captions")
              = if is_None (Image._caption first)
                then None
                else Some (VList (map Image._caption images))).
Proof.
  split; [|split].
  - intros ->. reflexivity.
  - intros jsons obj p Js I Path Pre. unfold Image.seq_to_json. rewrite Js.
    cbn [bind_r].
    assert (Bad : Image.check_path obj
                  = Raise (ValueError (Image.MsgFilesMustBeIn Image.get_media_subdir p))).
    { unfold Image.check_path, getitem. rewrite Path. cbn [bind_r].
      now rewrite Pre. }
    destruct (map_r_raise Image.check_path jsons obj I Bad) as [e' ->].
    cbn [bind_r]. eexists. reflexivity.
  - intros first rest jsons masks boxes Im Js Paths Ms Bs.
    destruct jsons as [|first_json jsons].
    { subst images. simpl in Js.
      destruct (Image.to_json first (DRun run)); [|discriminate].
      destruct (map_r _ rest); discriminate. }
    assert (Fj : Image.to_json first (DRun run) = Ok first_json).
    { subst images. simpl in Js.
      destruct (Image.to_json first (DRun run)) as [j|]; [|discriminate].
      destruct (map_r _ rest); [|discriminate]. now inversion Js. }
    destruct (Image_to_json_cases first) as (_ & _ & Fields).
    destruct (Fields _ _ Fj) as (_ & Fmt & _).
    rewrite (seq_to_json_unfold run key step Im Js Paths Fmt).
    rewrite Ms, Bs.
    assert (Caps : Image.all_captions images
                   = Ok (if is_None (Image._caption first)
                         then VBool false
                         else VList (map Image._caption images))).
    { rewrite Im. unfold Image.all_captions.
      destruct (is_None (Image._caption first)); reflexivity. }
    rewrite Caps. cbn [bind_r].
    assert (Cap : forall (caps : Value) (k : Key),
               k <> KStr "captions" ->
               dict_get (Image.set_if_true
                           (Image.set_if_true
                              (Image.set_if_true (image_meta images first (Image.format first))
                                                 "captions" caps)
                              "all_masks" masks)
                           "all_boxes" boxes) k
               = if truthy boxes && Key_eqb (KStr "all_boxes") k then Some boxes
                 else if truthy masks && Key_eqb (KStr "all_masks") k then Some masks
                 else dict_get (image_meta images first (Image.format first)) k).
    { intros caps k Nk. rewrite !Image_set_if_true_get.
      destruct (Key_eqb (KStr "captions") k) eqn:Ek;
        [apply Key_eqb_eq in Ek; congruence|].
      now rewrite andb_false_r. }
    destruct (sizes_match images first); cbn [negb];
      (destruct (is_None (Image._caption first)) eqn:Nc;
       eexists; (split; [reflexivity|]);
       repeat (split; [rewrite Cap by discriminate;
                       cbn [Key_eqb String.eqb Ascii.eqb Bool.eqb];
                       rewrite !andb_false_r; reflexivity|]);
       rewrite !Image_set_if_true_get;
       cbn [Key_eqb String.eqb Ascii.eqb Bool.eqb];
       rewrite !andb_false_r, ?andb_true_r; cbn [truthy]).
    + reflexivity.
    + subst images. reflexivity.
    + reflexivity.
    + subst images. reflexivity.
Qed.
End ImageSequence.

(** ** prune_max_seq and val_to_json *)

Section ValToJson.
Context {Store : Type} `{LG : Logging Store}.

Local Abbreviation St := (@LogState Store).

Lemma py_slice_to_prefix {A : Type} (l : list A) (stop : Z) :
  py_slice_to l stop = firstn (length (py_slice_to l stop)) l.
Proof.
  unfold py_slice_to. set (n := Z.to_nat _).
  rewrite length_firstn.
  destruct (Nat.le_ge_cases n (length l)) as [Le|Ge].
  - now rewrite Nat.min_l.
  - rewrite Nat.min_r by lia. rewrite firstn_all. apply firstn_all2. lia.
Qed.

(** The two outcomes of [prune_max_seq] on a sequence that is not empty. *)
Lemma prune_max_seq_cases (first : Value) (rest : list Value) (s : St) :
  (prune_max_seq (first :: rest) s = (Ok (first :: rest), s)
   /\ forall h m,
       first = VRich h \/ first = VObj h -> MAX_ITEMS_of h = Some m ->
       (Z.of_nat (length (first :: rest)) <= m)%Z)
  \/ exists h m,
      (first = VRich h \/ first = VObj h)
      /\ MAX_ITEMS_of h = Some m
      /\ (m < Z.of_nat (length (first :: rest)))%Z
      /\ prune_max_seq (first :: rest) s
         = (Ok (py_slice_to (first :: rest) m),
            (fst s, snd s ++ [WarnOnlyUploaded m (class_name_of h)])).
Proof.
  assert (Obj : forall h,
             first = VRich h \/ first = VObj h ->
             prune_max_seq (first :: rest) s
             = match MAX_ITEMS_of h with
               | Some m =>
                   if (m <? Z.of_nat (length (first :: rest)))%Z
                   then (Ok (py_slice_to (first :: rest) m),
                         (fst s, snd s ++ [WarnOnlyUploaded m (class_name_of h)]))
                   else (Ok (first :: rest), s)
               | None => (Ok (first :: rest), s)
               end).
  { intros h [->| ->]; unfold prune_max_seq, bind, log_warning, ret;
      (destruct (MAX_ITEMS_of h) as [m|]; [|reflexivity]);
      destruct (m <? _)%Z; reflexivity. }
  assert (Cases : forall h,
             first = VRich h \/ first = VObj h ->
             (prune_max_seq (first :: rest) s = (Ok (first :: rest), s)
              /\ forall h' m,
                  first = VRich h' \/ first = VObj h' -> MAX_ITEMS_of h' = Some m ->
                  (Z.of_nat (length (first :: rest)) <= m)%Z)
             \/ exists h' m,
                 (first = VRich h' \/ first = VObj h')
                 /\ MAX_ITEMS_of h' = Some m
                 /\ (m < Z.of_nat (length (first :: rest)))%Z
                 /\ prune_max_seq (first :: rest) s
                    = (Ok (py_slice_to (first :: rest) m),
                       (fst s, snd s ++ [WarnOnlyUploaded m (class_name_of h')]))).
  { intros h Hh. rewrite (Obj h Hh).
    assert (Only : forall h', first = VRich h' \/ first = VObj h' -> h' = h)
      by (intros h' Hh'; destruct Hh as [->| ->], Hh' as [Eq|Eq]; congruence).
    destruct (MAX_ITEMS_of h) as [m|] eqn:Hm.
    - destruct (Z.ltb_spec m (Z.of_nat (length (first :: rest)))) as [Lt|Ge].
      + right. exists h, m. rewrite Hm. auto.
      + left. split; [reflexivity|]. intros h' m' Hh' Hm'.
        rewrite (Only h' Hh') in Hm'. congruence.
    - left. split; [reflexivity|]. intros h' m' Hh' Hm'.
      rewrite (Only h' Hh') in Hm'. congruence. }
  destruct first as [| | | | | |h|h];
    try (left; split; [reflexivity | intros h m [Eq|Eq]; discriminate]).
  - apply (Cases h). now left.
  - apply (Cases h). now right.
Qed.

(** X18.  [prune_max_seq] on an empty sequence raises IndexError.  On any
    other it returns a prefix of the sequence and changes nothing besides
    the log: the whole sequence, with nothing logged, when its first item has
    no [MAX_ITEMS] or has one that is not less than the length; otherwise the
    slice [seq[:MAX_ITEMS]], which for a [MAX_ITEMS] that is not negative is
    the first [MAX_ITEMS] items, with one warning. *)
Theorem prune_max_seq_prefix (seq : list Value) (s : St) :
  (seq = [] -> prune_max_seq seq s = (Raise IndexError, s))
  /\ (seq <> [] ->
      exists items logged,
        prune_max_seq seq s = (Ok items, (fst s, snd s ++ logged))
        /\ items = firstn (length items) seq
        /\ (logged = [] -> items = seq)
        /\ ((forall h, hd VNone seq = VRich h \/ hd VNone seq = VObj h ->
                       MAX_ITEMS_of h = None) ->
            items = seq /\ logged = [])
        /\ forall h max_items,
            (hd VNone seq = VRich h \/ hd VNone seq = VObj h) ->
            MAX_ITEMS_of h = Some max_items ->
            (Z.of_nat (length seq) <= max_items -> items = seq /\ logged = [])%Z
            /\ (max_items < Z.of_nat (length seq) ->
                items = py_slice_to seq max_items
                /\ logged = [WarnOnlyUploaded max_items (class_name_of h)])%Z
            /\ (0 <= max_items < Z.of_nat (length seq) ->
                items = firstn (Z.to_nat max_items) seq
                /\ length items = Z.to_nat max_items)%Z).
Proof.
  split; [intros ->; reflexivity|]. intro Ne.
  destruct seq as [|first rest]; [congruence|]. clear Ne.
  destruct (prune_max_seq_cases first rest s) as [[E Le]|(h & m & Hh & Hm & Lt & E)].
  - exists (first :: rest), []. rewrite app_nil_r.
    split; [rewrite E; now destruct s|].
    split; [now rewrite firstn_all|]. split; [auto|]. split; [auto|].
    intros h m Hh Hm. specialize (Le h m Hh Hm).
    split; [auto|]. split; intro; lia.
  - exists (py_slice_to (first :: rest) m), [WarnOnlyUploaded m (class_name_of h)].
    split; [exact E|]. split; [apply py_slice_to_prefix|].
    split; [discriminate|]. split.
    { intro No. rewrite (No h Hh) in Hm. discriminate. }
    intros h' m' Hh' Hm'. cbn [hd] in Hh'.
    assert (h' = h) by (destruct Hh as [->| ->], Hh' as [Eq|Eq]; congruence).
    subst h'. rewrite Hm in Hm'. inversion Hm'; subst m'.
    split; [lia|]. split; [auto|]. intro R. rewrite py_slice_to_firstn by lia.
    split; [reflexivity|].
    rewrite length_firstn. lia.
Qed.

Lemma val_to_json_ordinary (elements : list Value -> M St (list Value))
    (run : nat) (key : Key) (val namespace : Value) :
  namespace <> VNone -> ordinary val ->
  val_to_json_body elements run key val namespace
  = match as_sequence val with
    | Some vals =>
        if forallb is_WBValue vals
        then
          match vals with
          | VRich h0 :: _ =>
              if is_BatchableMedia h0
                 && forallb (fun v => match v with
                                      | VRich h => isinstance_type_of h h0
                                      | _ => false
                                      end) vals
              then
                bind (prune_max_seq vals) (fun items =>
                  bind (bind_items run key namespace 0 items) (fun _ =>
                    match items with
                    | VRich h :: _ =>
                        call (rich_seq_to_json h items run key namespace)
                    | [] => raise IndexError
                    | _ :: _ => raise (AttributeError "seq_to_json")
                    end))
              else bind (elements vals) (fun v => ret (VList v))
          | _ => bind (elements vals) (fun v => ret (VList v))
          end
        else wbvalue_to_json run key val val namespace
    | None => wbvalue_to_json run key val val namespace
    end.
Proof.
  intros Ns (Df & Mp & Pl). unfold val_to_json_body.
  destruct namespace; try congruence; cbn [is_None];
    rewrite Df, Mp, Pl; reflexivity.
Qed.

(** [val_to_json] on values that are no rich values. *)
Lemma val_to_json_plain_cases (run : nat) (key : Key) (val namespace : Value)
    (s : St) :
  (namespace = VNone ->
   val_to_json run key val namespace s = (Raise (ValueError MsgNamespace), s))
  /\ (namespace <> VNone -> ordinary val ->
      (is_WBValue val = false ->
       as_sequence val = None ->
       val_to_json run key val namespace s = (Ok val, s))
      /\ (forall vals v,
             as_sequence val = Some vals -> In v vals -> is_WBValue v = false ->
             val_to_json run key val namespace s = (Ok val, s))
      /\ (as_sequence val = Some [] ->
          val_to_json run key val namespace s = (Ok (VList []), s))).
Proof.
  split.
  - intros ->. reflexivity.
  - intros Ns Ord. unfold val_to_json.
    rewrite (val_to_json_ordinary _ run key Ns Ord).
    split; [|split].
    + intros Nr Seq. rewrite Seq. destruct val; try discriminate; reflexivity.
    + intros vals v Seq I Nv. rewrite Seq.
      assert (F : forallb is_WBValue vals = false).
      { destruct (forallb is_WBValue vals) eqn:F; [|reflexivity].
        rewrite forallb_forall in F. rewrite (F v I) in Nv. discriminate. }
      rewrite F. destruct val; try discriminate; reflexivity.
    + intros Seq. rewrite Seq. reflexivity.
Qed.

(** X19.  What [val_to_json] does with a value that is neither a data
    frame, a figure nor a rich value.  Without a namespace it raises
    ValueError, whatever the value.  With one: a value that is no sequence,
    or a sequence with an item that is not a rich value, is returned as it
    is, its rich items unconverted; an empty sequence, the empty string
    included, becomes the empty list.  None of this changes the store or
    logs anything. *)
Theorem val_to_json_plain (run : nat) (key : Key) (val namespace : Value)
    (s : St) :
  (namespace = VNone ->
   val_to_json run key val namespace s = (Raise (ValueError MsgNamespace), s))
  /\ (namespace <> VNone -> ordinary val ->
      (is_WBValue val = false ->
       as_sequence val = None ->
       val_to_json run key val namespace s = (Ok val, s))
      /\ (forall vals v,
             as_sequence val = Some vals -> In v vals -> is_WBValue v = false ->
             val_to_json run key val namespace s = (Ok val, s))
      /\ (as_sequence val = Some [] ->
          val_to_json run key val namespace s = (Ok (VList []), s))).
Proof. exact (val_to_json_plain_cases run key val namespace s). Qed.

(** X20.  [val_to_json] on one rich value that is neither a data frame nor
    a figure: it binds the value to the run only when it is a [Media] that is
    not bound yet, and then returns its [to_json]; when binding raises,
    [to_json] is not called.  So when [bind_to_run] leaves the value bound and
    [to_json] keeps it bound, a second [val_to_json] on the same value does
    not bind it again. *)
Theorem val_to_json_binds_once (run : nat) (key : Key) (h : nat)
    (namespace : Value) (s : St) :
  namespace <> VNone -> ordinary (VRich h) ->
  (is_Media h && negb (rich_is_bound h (fst s)) = false ->
   val_to_json run key (VRich h) namespace s = call (rich_to_json_run h run) s)
  /\ (is_Media h && negb (rich_is_bound h (fst s)) = true ->
      val_to_json run key (VRich h) namespace s
      = match call (rich_bind_to_run h run key namespace None) s with
        | (Ok _, s1) => call (rich_to_json_run h run) s1
        | (Raise e, s1) => (Raise e, s1)
        end)
  /\ ((forall st st',
          rich_bind_to_run h run key namespace None st = (Ok tt, st') ->
          rich_is_bound h st' = true) ->
      (forall st, rich_is_bound h st = true ->
                  rich_is_bound h (snd (rich_to_json_run h run st)) = true) ->
      forall j s',
        val_to_json run key (VRich h) namespace s = (Ok j, s') ->
        is_Media h = true ->
        val_to_json run key (VRich h) namespace s'
        = call (rich_to_json_run h run) s').
Proof.
  intros Ns Ord. unfold val_to_json.
  assert (Body : forall s0,
             val_to_json_body (map_m (val_to_json_item run key namespace))
                              run key (VRich h) namespace s0
             = wbvalue_to_json run key (VRich h) (VRich h) namespace s0).
  { intro s0. now rewrite (val_to_json_ordinary _ run key Ns Ord). }
  assert (Unbound : forall s0,
             is_Media h && negb (rich_is_bound h (fst s0)) = false ->
             wbvalue_to_json run key (VRich h) (VRich h) namespace s0
             = call (rich_to_json_run h run) s0).
  { intros s0 G. unfold wbvalue_to_json, bind, get. rewrite G. reflexivity. }
  split; [|split].
  - intro G. rewrite Body. now apply Unbound.
  - intro G. rewrite Body. unfold wbvalue_to_json, bind, get. rewrite G.
    destruct (call (rich_bind_to_run h run key namespace None) s) as [[[]|e] s1];
      reflexivity.
  - intros Binds Keeps j s' E Me. rewrite Body in *. apply Unbound.
    rewrite Me. cbn [andb].
    assert (B : rich_is_bound h (fst s') = true); [|now rewrite B].
    unfold wbvalue_to_json, bind, get in E. rewrite Me in E. cbn [andb] in E.
    destruct (rich_is_bound h (fst s)) eqn:B0; cbn [negb] in E.
    + unfold ret, call in E.
      pose proof (Keeps (fst s) B0) as K.
      destruct (rich_to_json_run h run (fst s)) as [r st]. inversion E; subst.
      exact K.
    + unfold call in E.
      destruct (rich_bind_to_run h run key namespace None (fst s))
        as [[[]|e] st1] eqn:Eb; cbn [fst snd] in E; [|discriminate].
      pose proof (Keeps st1 (Binds _ _ Eb)) as K.
      destruct (rich_to_json_run h run st1) as [r st]. inversion E; subst.
      exact K.
Qed.
End ValToJson.

(** ** history_dict_to_json *)

Lemma dict_set_keys_same {V : Type} (d : PyDict V) (k : Key) (v : V) :
  In k (map fst d) -> map fst (dict_set d k v) = map fst d.
Proof.
  induction d as [|[k0 v0] d IH]; simpl; intro I; [destruct I|].
  destruct (Key_eqb k0 k) eqn:E; simpl; [reflexivity|].
  f_equal. apply IH. destruct I as [->|I]; [|exact I].
  rewrite Key_eqb_refl in E. discriminate.
Qed.

Lemma keys_distinct_NoDup (keys : list Key) :
  keys_distinct keys = true -> NoDup keys.
Proof.
  induction keys as [|k keys IH]; simpl; intro E; [constructor|].
  apply andb_true_iff in E as [N D]. constructor; [|now apply IH].
  intro I. apply negb_true_iff in N.
  assert (T : existsb (Key_eqb k) keys = true)
    by (apply existsb_exists; exists k; split; [exact I | apply Key_eqb_refl]).
  congruence.
Qed.

(** Induction on a value, through the lists and dictionaries in it. *)
Lemma Value_nested_ind (P : Value -> Prop) :
  P VNone -> (forall b, P (VBool b)) -> (forall z, P (VInt z)) ->
  (forall s, P (VStr s)) ->
  (forall l, Forall P l -> P (VList l)) ->
  (forall d, Forall (fun kv => P (snd kv)) d -> P (VDict d)) ->
  (forall h, P (VRich h)) -> (forall h, P (VObj h)) ->
  forall v, P v.
Proof.
  intros HN HB HI HS HL HD HR HO. fix IH 1. intros [ |b|z|s|l|d|h|h].
  - exact HN.
  - apply HB.
  - apply HI.
  - apply HS.
  - apply HL. induction l as [|x l IHl]; constructor; [apply IH | exact IHl].
  - apply HD. induction d as [|[k x] d IHd]; constructor; [apply IH | exact IHd].
  - apply HR.
  - apply HO.
Qed.

Section HistoryFacts.
Context {Store : Type} `{LG : Logging Store}.

Local Abbreviation St := (@LogState Store).

Lemma history_items_keys (convert : Key -> Value -> M St Value)
    (items : list (Key * Value)) :
  forall (payload res : PyDict Value) (s s' : St),
    (forall k, In k (map fst items) -> In k (map fst payload)) ->
    history_items convert items payload s = (Ok res, s') ->
    map fst res = map fst payload.
Proof.
  induction items as [|[k v] items IH]; intros payload res s s' Sub E;
    simpl in E.
  - inversion E. reflexivity.
  - unfold bind in E. destruct (convert k v s) as [[new|e] s1]; [|discriminate].
    assert (Ik : In k (map fst payload)) by (apply Sub; now left).
    transitivity (map fst (dict_set payload k new));
      [|now apply dict_set_keys_same].
    apply (IH _ _ _ _ (fun k' I' => proj2 (dict_set_keys payload k k' new)
                                          (or_intror (Sub k' (or_intror I')))) E).
Qed.

Lemma history_items_other (convert : Key -> Value -> M St Value)
    (items : list (Key * Value)) :
  forall (payload res : PyDict Value) (s s' : St) (k : Key),
    ~ In k (map fst items) ->
    history_items convert items payload s = (Ok res, s') ->
    dict_get res k = dict_get payload k.
Proof.
  induction items as [|[k0 v] items IH]; intros payload res s s' k Nk E;
    simpl in E.
  - inversion E. reflexivity.
  - unfold bind in E. destruct (convert k0 v s) as [[new|e] s1]; [|discriminate].
    transitivity (dict_get (dict_set payload k0 new) k);
      [exact (IH _ _ _ _ k (fun I => Nk (or_intror I)) E)|].
    rewrite dict_get_set.
    destruct (Key_eqb k0 k) eqn:Ek; [|reflexivity].
    apply Key_eqb_eq in Ek. subst. exfalso. apply Nk. now left.
Qed.

Lemma history_items_converted (convert : Key -> Value -> M St Value)
    (items : list (Key * Value)) :
  forall (payload res : PyDict Value) (s s' : St) (k : Key) (v : Value),
    NoDup (map fst items) -> In (k, v) items ->
    history_items convert items payload s = (Ok res, s') ->
    exists s1 s2 new, convert k v s1 = (Ok new, s2) /\ dict_get res k = Some new.
Proof.
  induction items as [|[k0 v0] items IH]; intros payload res s s' k v N I E;
    [destruct I|].
  simpl in E. unfold bind in E.
  destruct (convert k0 v0 s) as [[new|e] s1] eqn:C; [|discriminate].
  inversion N as [|? ? Nin N']; subst. destruct I as [Eq|I].
  - inversion Eq; subst. exists s, s1, new. split; [exact C|].
    erewrite history_items_other by eauto.
    now rewrite dict_get_set, Key_eqb_refl.
  - eapply IH; eauto.
Qed.

Lemma dict_get_in {V : Type} (d : PyDict V) (k : Key) (v : V) :
  dict_get d k = Some v -> In (k, v) d.
Proof.
  induction d as [|[k0 v0] d IH]; simpl; [discriminate|].
  destruct (Key_eqb k0 k) eqn:E.
  - apply Key_eqb_eq in E. subst. intro H. inversion H. now left.
  - intro H. right. now apply IH.
Qed.

(** X21.  [history_dict_to_json] without a step, on a payload that has no
    "_step", raises KeyError and changes nothing.  When it returns, the
    payload has the keys it had, in the same order, and under the key of a
    nested dictionary there is a dictionary with the keys of that one: only
    the values are replaced. *)
Theorem history_dict_to_json_keys (run : nat) (payload : PyDict Value)
    (step : Value) (s : St) :
  (step = VNone -> dict_get payload (KStr "_step") = None ->
   history_dict_to_json run payload step s = (Raise (KeyError (KStr "_step")), s))
  /\ (forall payload' s',
         history_dict_to_json run payload step s = (Ok payload', s') ->
         map fst payload' = map fst payload
         /\ (NoDup (map fst payload) ->
             forall k d,
               dict_get payload k = Some (VDict d) ->
               exists d', dict_get payload' k = Some (VDict d')
                          /\ map fst d' = map fst d)).
Proof.
  split.
  - intros -> N. unfold history_dict_to_json, step_of, bind, lift, getitem.
    simpl. now rewrite N.
  - intros payload' s' E. unfold history_dict_to_json, bind in E.
    destruct (step_of payload step s) as [[st|e] s0]; [|discriminate].
    split.
    + eapply history_items_keys; [|exact E]. auto.
    + intros N k d G. apply dict_get_in in G.
      destruct (@history_items_converted _ _ _ _ _ _ k (VDict d) N G E)
        as (s1 & s2 & new & C & G').
      simpl in C. unfold bind in C.
      destruct (step_of d st s1) as [[st'|e] s3]; [|discriminate].
      destruct (history_items (history_value run st') d d s3)
        as [[res|e] s4] eqn:Hi; [|discriminate].
      inversion C; subst. exists res. split; [exact G'|].
      eapply history_items_keys; [|exact Hi]. auto.
Qed.

Lemma plain_leaf_val_to_json (run : nat) (key : Key) (val st : Value) (s : St) :
  st <> VNone -> plain_leaf val = true ->
  val_to_json run key val st s = (Ok val, s).
Proof.
  intros Ns P. unfold plain_leaf in P.
  repeat (apply andb_true_iff in P as [P ?]).
  repeat match goal with
         | H : negb _ = true |- _ => apply negb_true_iff in H
         end.
  assert (Ord : ordinary val) by (repeat split; assumption).
  destruct (val_to_json_plain_cases run key val st s) as [_ Plain].
  destruct (Plain Ns Ord) as (NoSeq & Mixed & _).
  destruct (as_sequence val) as [vals|] eqn:Seq; [|now apply NoSeq].
  assert (Ex : exists v, In v vals /\ is_WBValue v = false).
  { match goal with
    | H : negb (forallb is_WBValue vals) = true |- _ =>
        apply negb_true_iff in H; clear - H;
        induction vals as [|x vals IHv]; [discriminate|]; simpl in H;
        destruct (is_WBValue x) eqn:Ex;
        [destruct (IHv H) as (v & I & Nv); exists v; split; [now right | exact Nv]
        |exists x; split; [now left | exact Ex]]
    end. }
  destruct Ex as (v & I & Nv). exact (Mixed vals v eq_refl I Nv).
Qed.

Lemma history_items_unchanged (convert : Key -> Value -> M St Value)
    (items : list (Key * Value)) :
  forall (payload : PyDict Value) (s : St),
    NoDup (map fst payload) -> incl items payload ->
    (forall k v, In (k, v) items -> forall s0, convert k v s0 = (Ok v, s0)) ->
    history_items convert items payload s = (Ok payload, s).
Proof.
  induction items as [|[k v] items IH]; intros payload s N Inc Same;
    [reflexivity|].
  simpl. unfold bind. rewrite (Same k v (or_introl eq_refl)).
  rewrite (dict_set_same payload k
             (dict_get_in_nodup payload k v N (Inc _ (or_introl eq_refl)))).
  apply IH; auto.
  - intros kv I. apply Inc. now right.
  - intros k' v' I. apply Same. now right.
Qed.

Lemma history_value_plain (run : nat) (val : Value) :
  plain val = true ->
  forall (st : Value) (key : Key) (s : St),
    st <> VNone -> history_value run st key val s = (Ok val, s).
Proof.
  induction val as [ |b|z|str|l _|d IH|h|h] using Value_nested_ind;
    intros P st key s Ns;
    try exact (plain_leaf_val_to_json run key _ s Ns P).
  simpl in P. apply andb_true_iff in P as [Keys Vals].
  simpl. unfold bind, step_of.
  assert (Nn : is_None st = false) by (destruct st; try reflexivity; congruence).
  rewrite Nn. unfold ret.
  rewrite history_items_unchanged; auto.
  - now apply keys_distinct_NoDup.
  - apply incl_refl.
  - intros k v I s0.
    apply (proj1 (Forall_forall _ _) IH (k, v) I); [|exact Ns].
    exact (proj1 (forallb_forall _ _) Vals (k, v) I).
Qed.

(** X22.  A row of plain values passes through [history_dict_to_json]
    unchanged, and nothing is bound or logged: when the step, given or read
    from "_step", is not [None], the keys are distinct at every level and
    every value is a dictionary of such values or a value that is no data
    frame, no figure, no rich value and no sequence made of rich values only.
    The empty string and the empty list are such sequences. *)
Theorem history_dict_to_json_plain (run : nat) (payload : PyDict Value)
    (step st : Value) (s : St) :
  effective_step payload step = Some st -> st <> VNone ->
  plain (VDict payload) = true ->
  history_dict_to_json run payload step s = (Ok payload, s).
Proof.
  intros Es Ns P. simpl in P. apply andb_true_iff in P as [Keys Vals].
  unfold history_dict_to_json, bind.
  assert (Step : step_of payload step s = (Ok st, s)).
  { unfold step_of, effective_step, lift, getitem, ret in *.
    destruct (is_None step); [now rewrite Es | now inversion Es]. }
  rewrite Step. apply history_items_unchanged.
  - now apply keys_distinct_NoDup.
  - apply incl_refl.
  - intros k v I s0. apply history_value_plain; [|exact Ns].
    exact (proj1 (forallb_forall _ _) Vals (k, v) I).
Qed.
End HistoryFacts.

(** ** val_to_json on a sequence of media of one type *)

Section BatchFacts.
Context {Store : Type} `{LG : Logging Store}.

Local Abbreviation St := (@LogState Store).

Lemma bind_items_ids (run : nat) (key : Key) (namespace : Value) (hs : list nat) :
  forall (i : Z) (s : St),
    bind_items run key namespace i (map VRich hs) s
    = for_each (combine (map (fun n => (i + Z.of_nat n)%Z) (seq 0 (length hs))) hs)
               (fun ih => call (rich_bind_to_run (snd ih) run key namespace
                                                 (Some (fst ih))))
               s.
Proof.
  induction hs as [|h hs IH]; intros i s; [reflexivity|].
  simpl. unfold bind. rewrite Z.add_0_r.
  destruct (call (rich_bind_to_run h run key namespace (Some i)) s) as [[[]|e] s1];
    [|reflexivity].
  rewrite IH, <- seq_shift, map_map. do 2 f_equal.
  apply map_ext. intro n. lia.
Qed.

(** X23.  [val_to_json] on a list of rich values that are all instances of
    the type of the first, a [BatchableMedia] with a positive [MAX_ITEMS]:
    only the first [MAX_ITEMS] items are used, with a warning when some are
    dropped; they are bound to the run one after the other, the item at
    position [i] under the id [i]; then the result is the [seq_to_json] of
    these items.  When binding an item raises, the items after it are not
    bound and nothing is summarised. *)
Theorem val_to_json_batch (run : nat) (key : Key) (h0 : nat) (more : list nat)
    (namespace : Value) (max_items : Z) (s : St) :
  let hs := h0 :: more in
  let vals := map VRich hs in
  namespace <> VNone -> ordinary (VList vals) ->
  is_BatchableMedia h0 = true ->
  Forall (fun h => isinstance_type_of h h0 = true) hs ->
  MAX_ITEMS_of h0 = Some max_items ->
  (0 < max_items)%Z ->
  let kept := firstn (Z.to_nat max_items) hs in
  let s1 := if (max_items <? Z.of_nat (length hs))%Z
            then (fst s, snd s ++ [WarnOnlyUploaded max_items (class_name_of h0)])
            else s in
  val_to_json run key (VList vals) namespace s
  = match for_each (combine (map Z.of_nat (seq 0 (length kept))) kept)
                   (fun ih => call (rich_bind_to_run (snd ih) run key namespace
                                                     (Some (fst ih))))
                   s1 with
    | (Ok _, s2) =>
        call (rich_seq_to_json h0 (map VRich kept) run key namespace) s2
    | (Raise e, s2) => (Raise e, s2)
    end.
Proof.
  intros hs vals Ns Ord Bm Same Mx Pos kept s1. unfold val_to_json.
  rewrite (val_to_json_ordinary _ run key Ns Ord).
  cbn [as_sequence].
  assert (Rich : forallb is_WBValue vals = true).
  { unfold vals. rewrite forallb_forall. intros v I.
    apply in_map_iff in I as (h & <- & _). reflexivity. }
  assert (Ty : forallb (fun v => match v with
                                 | VRich h => isinstance_type_of h h0
                                 | _ => false
                                 end) vals = true).
  { unfold vals. rewrite forallb_forall. intros v I.
    apply in_map_iff in I as (h & <- & Ih).
    exact (proj1 (Forall_forall _ _) Same h Ih). }
  rewrite Rich. unfold vals at 1, hs at 1. cbn [map]. fold hs. fold vals.
  change (VRich h0 :: map VRich more) with vals.
  rewrite Bm, Ty. cbn [andb].
  assert (Pr : prune_max_seq vals s = (Ok (map VRich kept), s1)).
  { unfold prune_max_seq, vals, hs. cbn [map]. rewrite Mx.
    fold hs. change (VRich h0 :: map VRich more) with (map VRich hs).
    rewrite length_map. unfold s1, kept.
    destruct (max_items <? Z.of_nat (length hs))%Z eqn:Lt.
    - unfold bind, log_warning, ret.
      rewrite py_slice_to_firstn by lia. now rewrite firstn_map.
    - apply Z.ltb_ge in Lt. unfold ret.
      rewrite firstn_all2 by lia. reflexivity. }
  unfold bind at 1. rewrite Pr. unfold bind.
  rewrite bind_items_ids.
  assert (Ids : map (fun n => (0 + Z.of_nat n)%Z) (seq 0 (length kept))
                = map Z.of_nat (seq 0 (length kept)))
    by (apply map_ext; intro n; lia).
  rewrite Ids.
  match goal with
  | |- context [for_each ?l ?f s1] =>
      destruct (for_each l f s1) as [[[]|e] s2]; [|reflexivity]
  end.
  assert (K : exists rest', kept = h0 :: rest').
  { unfold kept, hs. destruct (Z.to_nat max_items) as [|n] eqn:En; [lia|].
    simpl. eauto. }
  destruct K as [rest' ->]. reflexivity.
Qed.
End BatchFacts.

(** ** Classes: to_json and from_json *)

Section ClassesFacts.
Context {Media : Type} `{EN : Environment Media}.

Local Abbreviation Cls := (@Classes.Classes Media).

Lemma classes_json_get (base : PyDict Value) (class_set : Value) :
  dict_get (dict_set (dict_set base (KStr "_type") (VStr Classes.artifact_type))
                     (KStr "class_set") class_set)
           (KStr "class_set") = Some class_set
  /\ dict_get (dict_set (dict_set base (KStr "_type") (VStr Classes.artifact_type))
                        (KStr "class_set") class_set)
              (KStr "_type") = Some (VStr "classes").
Proof. rewrite !dict_get_set. simpl. auto. Qed.

(** X24.  A [Classes] object comes back from its JSON: for an object the
    constructor has accepted, [to_json] without an artifact returns exactly
    "_type" "classes" and the class set, with an artifact it adds these two
    to what the base class returns, and [from_json] of either JSON is the
    object again, with the same class set.  The constructor accepts a class
    set only when each of its items has an "id" and a "name"; [from_json] of
    a JSON without "class_set" raises TypeError. *)
Theorem Classes_round_trip (class_set : Value) (source_artifact : nat) :
  (forall c : Cls,
      Classes.new class_set = Ok c ->
      Classes._class_set c = class_set
      /\ (exists class_objs,
             Classes.iter_class_set class_set = Ok class_objs
             /\ Forall (fun class_obj =>
                          Classes.contains "id" class_obj = Ok true
                          /\ Classes.contains "name" class_obj = Ok true)
                       class_objs)
      /\ Classes.to_json c None
         = Ok [(KStr "_type", VStr "classes"); (KStr "class_set", class_set)]
      /\ Classes.from_json [(KStr "_type", VStr "classes");
                            (KStr "class_set", class_set)] source_artifact
         = Ok c
      /\ forall artifact base,
          super_to_json ClassesKind (Classes.media c) artifact = Ok base ->
          exists json,
            Classes.to_json c (Some artifact) = Ok json
            /\ dict_get json (KStr "_type") = Some (VStr "classes")
            /\ dict_get json (KStr "class_set") = Some class_set
            /\ Classes.from_json json source_artifact = Ok c)
  /\ (forall json_obj,
         dict_get json_obj (KStr "class_set") = None ->
         exists m, @Classes.from_json Media _ json_obj source_artifact
                   = Raise (TypeError m)).
Proof.
  split.
  - intros c New. pose proof New as New'. unfold Classes.new in New'.
    apply bind_r_ok in New' as (class_objs & It & New').
    apply bind_r_ok in New' as (us & Chk & New'). inversion New'; subst c.
    cbn [Classes._class_set Classes.media].
    split; [reflexivity|]. split; [|split; [|split]].
    + exists class_objs. split; [exact It|].
      clear It New New'. revert us Chk.
      induction class_objs as [|x xs IH]; intros us Chk; [constructor|].
      simpl in Chk.
      destruct (Classes.check_class_obj x) as [[]|] eqn:Cx; [|discriminate].
      destruct (map_r Classes.check_class_obj xs) as [us'|] eqn:Cxs;
        [|discriminate].
      constructor; [|exact (IH us' eq_refl)].
      unfold Classes.check_class_obj in Cx.
      destruct (Classes.contains "id" x) as [[|]|]; try discriminate.
      cbn [bind_r] in Cx.
      destruct (Classes.contains "name" x) as [[|]|]; try discriminate.
      auto.
    + reflexivity.
    + unfold Classes.from_json. simpl. exact New.
    + intros artifact base B. unfold Classes.to_json.
      cbn [Classes.media Classes._class_set]. rewrite B. cbn [bind_r].
      destruct (classes_json_get base class_set) as [Gc Gt].
      eexists. split; [reflexivity|]. split; [exact Gt|]. split; [exact Gc|].
      unfold Classes.from_json. rewrite Gc. exact New.
  - intros json_obj N. unfold Classes.from_json, Classes.new. rewrite N.
    simpl. eauto.
Qed.
End ClassesFacts.

(** ** numpy_arrays_to_lists on values without arrays *)

Section PayloadFacts.
Context {WBType Media : Type}.
Context `{DT : Dtypes WBType} `{MB : MediaBase Media} `{CO : Collaborators}.

Local Abbreviation Tbl := (@Table WBType Media).

Lemma rebuilt_items_same (convert : Value -> Value) (d : list (Key * Value)) :
  forall res,
    NoDup (map fst res ++ map fst d) ->
    Forall (fun kv => convert (snd kv) = snd kv) d ->
    rebuilt_items convert d res = res ++ d.
Proof.
  induction d as [|[k v] d IH]; intros res N F.
  - simpl. now rewrite app_nil_r.
  - inversion F as [|? ? Fv F']; subst. simpl in Fv.
    change (rebuilt_items convert ((k, v) :: d) res)
      with (rebuilt_items convert d (dict_set res k (convert v))).
    rewrite Fv.
    assert (Nk : ~ In k (map fst res)).
    { intro I. simpl in N. apply NoDup_remove_2 in N. apply N.
      apply in_or_app. now left. }
    rewrite (dict_set_new res k v Nk).
    rewrite IH; [now rewrite <- app_assoc | | exact F'].
    rewrite map_app. simpl. rewrite <- app_assoc. exact N.
Qed.

Lemma lists_with_same (convert_items : list Value -> list Value) (v : Value) :
  builtin v = true -> lists_with convert_items v = v.
Proof.
  induction v as [ |b|z|s|l IH|d IH|h|h] using Value_nested_ind; intro B;
    try reflexivity; try discriminate.
  - simpl. f_equal. simpl in B. rewrite forallb_forall in B.
    induction l as [|x l IHl]; [reflexivity|]. simpl.
    inversion IH as [|? ? Hx Hl]; subst.
    rewrite Hx by (apply B; now left).
    rewrite IHl; auto. intros y I. apply B. now right.
  - simpl in B. apply andb_true_iff in B as [Keys Vals].
    change (lists_with convert_items (VDict d))
      with (VDict (rebuilt_items (lists_with convert_items) d [])).
    rewrite rebuilt_items_same; [reflexivity | |].
    + simpl. now apply keys_distinct_NoDup.
    + apply Forall_forall. intros kv I.
      apply (proj1 (Forall_forall _ _) IH kv I).
      exact (proj1 (forallb_forall _ _) Vals kv I).
Qed.

Lemma numpy_arrays_to_lists_same (v : Value) :
  builtin v = true -> numpy_arrays_to_lists v = v.
Proof.
  intro B. unfold numpy_arrays_to_lists.
  destruct (nesting v); apply lists_with_same; exact B.
Qed.

(** X25.  [numpy_arrays_to_lists] returns a value that holds no array,
    tuple or other object, and whose dictionaries have distinct keys, as it
    is.  So when the cells of the first [MAX_ROWS] rows of a table are such
    values, the file [bind_to_run] writes holds the columns and these rows
    unchanged. *)
Theorem numpy_arrays_to_lists_builtin (t : Tbl) :
  (forall v, builtin v = true -> numpy_arrays_to_lists v = v)
  /\ (Forall (Forall (fun v => builtin v = true)) (py_slice_to (data t) MAX_ROWS) ->
      table_payload t
      = VDict [(KStr "columns", VList (map key_value (columns t)));
               (KStr "data", VList (map VList (py_slice_to (data t) MAX_ROWS)))]).
Proof.
  split; [exact numpy_arrays_to_lists_same|].
  intro F. unfold table_payload, table_json_value.
  cbn [tj_columns tj_data].
  set (rows := py_slice_to (data t) MAX_ROWS) in *.
  apply numpy_arrays_to_lists_same.
  change (forallb builtin (map key_value (columns t))
          && (forallb builtin (map VList rows) && true) = true).
  rewrite andb_true_r. apply andb_true_iff. split.
  - apply forallb_forall. intros v I. apply in_map_iff in I as (k & <- & _).
    destruct k; reflexivity.
  - apply forallb_forall. intros v I. apply in_map_iff in I as (row & <- & Ir).
    cbn [builtin]. apply forallb_forall. intros c Ic.
    exact (proj1 (Forall_forall _ _)
                 (proj1 (Forall_forall _ _) F row Ir) c Ic).
Qed.
End PayloadFacts.

(** ** numpy_arrays_to_lists on Sequences and arrays *)

Section PayloadObjects.
Context `{CO : Collaborators}.







End PayloadObjects.

(** ** bind_to_run of Table and of Graph, on any object *)

Section StagingFacts.
Context {WBType Media : Type}.
Context `{DT : Dtypes WBType} `{MB : MediaBase Media} `{CO : Collaborators}.

Local Abbreviation Tbl := (@Table WBType Media).

End StagingFacts.

(** ** Rows added one after the other *)

Section RowsFacts.
Context {WBType Media : Type}.
Context `{DT : Dtypes WBType} `{MB : MediaBase Media} `{CO : Collaborators}.

Local Abbreviation Tbl := (@Table WBType Media).

Lemma add_data_step (row : list Value) (t : Tbl) :
  (accepted (columns t) (_column_types t) row
   /\ add_data row t
      = (Ok tt, mkTable (columns t) (data t ++ [row])
                        (narrowed (columns t) (_column_types t) row) (media t)))
  \/ (~ accepted (columns t) (_column_types t) row
      /\ exists e, add_data row t = (Raise e, t)).
Proof.
  unfold accepted, narrowed, add_data, _validate_data, bind, get, put, raise, lift.
  destruct (Nat.eqb_spec (length row) (length (columns t))) as [L|L]; simpl.
  - rewrite (row_dict_combine _ _ L).
    destruct (isInvalid (assign (_column_types t)
                                (VDict (dict_update [] (combine (columns t) row)))))
      eqn:Inv.
    + right. split; [intros [_ F]; congruence | eauto].
    + left. auto.
  - right. split; [intros [F _]; congruence | eauto].
Qed.

(** X27.  Rows added one after the other, as the constructor and a loop of
    [add_data] do.  When all are accepted, the table ends with these rows
    appended in order and with the column types folded over them, each row
    narrowing the types the rows before it have left.  When one is not, the
    exception is the one of the first such row: the rows before it stay
    added, with the types they have narrowed, and the rows after it are not
    looked at. *)
Theorem add_data_in_sequence (rows : list (list Value)) (t : Tbl) :
  (forall t',
      for_each rows add_data t = (Ok tt, t') ->
      t' = mkTable (columns t) (data t ++ rows)
                   (fold_left (narrowed (columns t)) rows (_column_types t))
                   (media t))
  /\ (forall e t',
         for_each rows add_data t = (Raise e, t') ->
         exists pre bad post,
           rows = pre ++ bad :: post
           /\ t' = mkTable (columns t) (data t ++ pre)
                           (fold_left (narrowed (columns t)) pre (_column_types t))
                           (media t)
           /\ ~ accepted (columns t') (_column_types t') bad
           /\ add_data bad t' = (Raise e, t')).
Proof.
  revert t. induction rows as [|row rows IH]; intro t.
  - split.
    + intros t' E. inversion E. rewrite app_nil_r. now destruct t'.
    + intros e t' E. discriminate.
  - simpl. unfold bind.
    destruct (add_data_step row t) as [[Acc E]|[Rej [e0 E]]]; rewrite E.
    + destruct (IH (mkTable (columns t) (data t ++ [row])
                            (narrowed (columns t) (_column_types t) row) (media t)))
        as [Ok' Bad']. cbn [columns data _column_types media] in Ok', Bad'.
      split.
      * intros t' F. rewrite (Ok' t' F), <- app_assoc. reflexivity.
      * intros e t' F.
        destruct (Bad' e t' F) as (pre & bad & post & Er & Et & Rej & Eb).
        exists (row :: pre), bad, post.
        split; [now rewrite Er|]. split; [|split; [exact Rej | exact Eb]].
        rewrite Et, <- app_assoc. reflexivity.
    + split; [discriminate|]. intros e t' F. inversion F; subst e0 t'.
      exists [], row, rows. rewrite app_nil_r.
      repeat split; auto. now destruct t.
Qed.
End RowsFacts.

(** ** The cells to_json serializes toward an artifact *)

Section CellFacts.
Context {WBType Media : Type}.
Context `{DT : Dtypes WBType} `{MB : MediaBase Media} `{CO : Collaborators}.

Local Abbreviation Tbl := (@Table WBType Media).

Lemma json_helper_dict (artifact : nat) (d : list (Key * Value)) :
  json_helper artifact (VDict d)
  = bind_w (json_items artifact d []) (fun res => ret_w (VDict res)).
Proof. reflexivity. Qed.

Lemma json_items_events (artifact : nat) (d : list (Key * Value)) :
  Forall (fun kv => forall j,
              fst (json_helper artifact (snd kv)) = Ok j ->
              snd (json_helper artifact (snd kv))
              = map (fun h => EvValueToJson h artifact) (rich_in (snd kv))) d ->
  forall (res out : PyDict Value),
    fst (json_items artifact d res) = Ok out ->
    snd (json_items artifact d res)
    = map (fun h => EvValueToJson h artifact)
          (flat_map (fun kv => rich_in (snd kv)) d).
Proof.
  intro F. induction F as [|[k v] d Hv F IH]; intros res out E; [reflexivity|].
  cbn [flat_map snd] in *. rewrite map_app.
  change (json_items artifact ((k, v) :: d) res)
    with (bind_w (json_helper artifact v)
                 (fun j => json_items artifact d (dict_set res k j))) in *.
  unfold bind_w in *.
  destruct (json_helper artifact v) as [[j|e] evs] eqn:Ej; [|discriminate].
  specialize (Hv j eq_refl). cbn [snd] in Hv. subst evs.
  specialize (IH (dict_set res k j)).
  destruct (json_items artifact d (dict_set res k j)) as [r evs'].
  cbn [fst snd] in *. subst r. now rewrite (IH out eq_refl).
Qed.

Lemma json_helper_events (artifact : nat) (v : Value) :
  forall j,
    fst (json_helper artifact v) = Ok j ->
    snd (json_helper artifact v)
    = map (fun h => EvValueToJson h artifact) (rich_in v).
Proof.
  induction v as [ |b|z|s|l _|d IH|h|h] using Value_nested_ind; intros j E;
    try reflexivity.
  rewrite json_helper_dict in *. cbn [rich_in]. unfold bind_w in *.
  pose proof (json_items_events artifact IH []) as Items.
  destruct (json_items artifact d []) as [[res|e] evs]; [|discriminate].
  cbn [fst snd ret_w] in *. rewrite app_nil_r.
  exact (Items res eq_refl).
Qed.

Lemma map_w_events {A B : Type} (f : A -> W B) (events : A -> list Event)
    (xs : list A) :
  (forall x y, In x xs -> fst (f x) = Ok y -> snd (f x) = events x) ->
  forall ys, fst (map_w f xs) = Ok ys -> snd (map_w f xs) = flat_map events xs.
Proof.
  induction xs as [|x xs IH]; intros H ys E; [reflexivity|].
  simpl in *. unfold bind_w in *.
  destruct (f x) as [[y|e] evs] eqn:Ex; [|discriminate].
  pose proof (H x y (or_introl eq_refl)) as Hx. rewrite Ex in Hx.
  cbn [fst snd] in Hx. specialize (Hx eq_refl). subst evs.
  destruct (map_w f xs) as [[ys'|e] evs'] eqn:Exs; [|discriminate].
  cbn [fst snd ret_w] in *. rewrite app_nil_r.
  rewrite (IH (fun x0 y0 I => H x0 y0 (or_intror I)) ys' eq_refl). reflexivity.
Qed.

Lemma bind_w_ok {A B : Type} (m : W A) (k : A -> W B) (b : B) :
  fst (bind_w m k) = Ok b ->
  exists a, fst m = Ok a /\ fst (k a) = Ok b
            /\ snd (bind_w m k) = snd m ++ snd (k a).
Proof.
  unfold bind_w. destruct m as [[a|e] evs]; [|discriminate].
  destruct (k a) as [r evs'] eqn:Ek. cbn [fst snd]. intros ->.
  exists a. rewrite Ek. auto.
Qed.

Lemma check_columns_silent (cols : list Key) :
  fst (for_each_w cols check_column) = Ok tt ->
  snd (for_each_w cols check_column) = [].
Proof.
  induction cols as [|c cols IH]; intro E; [reflexivity|].
  simpl in *. apply bind_w_ok in E as ([] & _ & E & ->).
  rewrite (IH E), app_nil_r.
  destruct c as [s|z]; simpl; [|reflexivity].
  destruct (contains_period s); reflexivity.
Qed.

(** X28.  The cells [to_json] serializes toward an artifact.  When it
    returns, the calls it has made are, in this order: the one to the base
    class, the truncation warning if rows are cut, one [to_json] for each
    rich value of the rows kept, row after row and cell after cell, and the
    one for the column types.  The rich values of a cell are the cell itself
    or those under the keys of a dictionary, at any depth; a rich value in a
    list is not serialized. *)
Theorem to_json_serializes_cells (t : Tbl) (artifact : nat)
    (json : PyDict Value) :
  fst (to_json t (DArtifact artifact)) = Ok json ->
  snd (to_json t (DArtifact artifact))
  = [EvMediaToJson (DArtifact artifact)]
    ++ truncation_warning t MAX_ARTIFACT_ROWS
    ++ map (fun h => EvValueToJson h artifact)
           (flat_map (flat_map rich_in) (py_slice_to (data t) MAX_ARTIFACT_ROWS))
    ++ [EvTypeToJson artifact].
Proof.
  unfold to_json. intro E.
  apply bind_w_ok in E as ([] & _ & E & ->).
  apply bind_w_ok in E as (base & _ & E & ->).
  apply bind_w_ok in E as ([] & Chk & E & ->).
  rewrite (check_columns_silent _ Chk).
  rewrite _to_table_json_eq in *.
  apply bind_w_ok in E as (tj & Tj & E & ->).
  cbn [fst] in Tj. inversion Tj; subst tj. cbn [tj_data] in *.
  set (rows := py_slice_to (data t) MAX_ARTIFACT_ROWS) in *.
  apply bind_w_ok in E as (mapped & Cells & E & ->).
  apply bind_w_ok in E as ([] & _ & E & ->).
  apply bind_w_ok in E as (cj & _ & E & ->).
  assert (Ev : snd (map_w (map_w (json_helper artifact)) rows)
               = flat_map (fun row => flat_map
                             (fun v => map (fun h => EvValueToJson h artifact)
                                           (rich_in v)) row) rows).
  { apply (@map_w_events _ _ (map_w (json_helper artifact))
             (fun row => flat_map
                (fun v => map (fun h => EvValueToJson h artifact) (rich_in v))
                row) rows) with (ys := mapped); [|exact Cells].
    intros row js _ Er.
    apply (@map_w_events _ _ (json_helper artifact)
             (fun v => map (fun h => EvValueToJson h artifact) (rich_in v)) row)
      with (ys := js); [|exact Er].
    intros v j _ Ej. exact (json_helper_events artifact v Ej). }
  rewrite Ev. cbn [snd emit lift_w ret_w app].
  do 2 f_equal. f_equal.
  clear. induction rows as [|row rows IH]; [reflexivity|].
  cbn [flat_map]. rewrite map_app, IH. f_equal.
  induction row as [|v row IHr]; [reflexivity|].
  cbn [flat_map]. now rewrite map_app, IHr.
Qed.
End CellFacts.

(** * The properties on concrete tables *)

#[local] Existing Instance SpecModel.spec_dtypes.
#[local] Existing Instance SpecModel.spec_media.
#[local] Existing Instance SpecModel.spec_collaborators.

Import SpecModel.

Lemma add_data_outcomes_witness :
  add_data [VInt 1] table_ab
  = (Raise (ValueError (MsgExpectsColumns 2 [KStr "a"; KStr "b"])), table_ab)
  /\ add_data [VStr "y"; VStr "z"] table_ab1
     = (Raise (TypeError (MsgIncompatibleRow "a")), table_ab1)
  /\ add_data [VInt 1; VStr "x"] table_ab = (Ok tt, table_ab1).
Proof.
  split; [|split].
  - apply (proj1 (add_data_outcomes table_ab [VInt 1])). simpl. lia.
  - exact (proj1 (proj2 (add_data_outcomes table_ab1 [VStr "y"; VStr "z"]))
                 eq_refl eq_refl).
  - exact (proj2 (proj2 (add_data_outcomes table_ab [VInt 1; VStr "x"]))
                 eq_refl eq_refl).
Defined.

Lemma cast_incompatible_witness :
  exists m,
    cast (KStr "a") (inl (TPrimitive PString)) false table_ab1
    = (Raise (TypeError m), table_ab1).
Proof.
  apply (proj2 (cast_incompatible table_ab1 (KStr "a") (inl (TPrimitive PString)) false))
    with (wbtype := TPrimitive PString) (col_ndx := 0) (k := 0) (v := VInt 1).
  - intros row [<-|[]]. reflexivity.
  - reflexivity.
  - reflexivity.
  - reflexivity.
  - reflexivity.
Defined.

Lemma Table_eq_iff_witness :
  Table_eq table_ab1 table_ab1 = Ok true
  /\ Table_eq table_with_rich table_with_number
     = Raise (AttributeError "_class_set")
  /\ Table_eq table_other_rich table_with_number = Ok false.
Proof.
  split; [|split].
  - apply (proj2 (proj1 (Table_eq_iff table_ab1 table_ab1))). repeat split.
    intros i j a Ha. exists a. split; [exact Ha|].
    unfold cell in Ha. simpl in Ha.
    destruct i as [|i]; [|destruct i; discriminate].
    destruct j as [|[|j]]; simpl in Ha;
      [| |destruct j; discriminate]; inversion Ha; reflexivity.
  - refine (proj2 (proj2 (Table_eq_iff table_with_rich table_with_number))
                  1 0 (VRich 5) (VInt 2) eq_refl eq_refl eq_refl _
                  eq_refl eq_refl _); [|discriminate].
    intros i' j' a' [L|[-> L]] Ha; [|lia].
    assert (i' = 0) by lia. subst i'. exists a'. split.
    + destruct j' as [|[|j']]; try discriminate; exact Ha.
    + destruct j' as [|[|j']]; try discriminate; inversion Ha; reflexivity.
  - refine (proj2 (proj2 (Table_eq_iff table_other_rich table_with_number))
                  0 0 (VInt 7) (VInt 1) eq_refl eq_refl eq_refl _
                  eq_refl eq_refl _); [|discriminate].
    intros i' j' a' [L|[_ L]]; lia.
Defined.

(** C8: a table with a period in a column name gets no JSON toward an
    artifact. *)
Lemma to_json_raises_on_period :
  to_json table_period (DArtifact 0)
  = (Raise (ValueError (MsgInvalidColumnName "a.b")), [EvMediaToJson (DArtifact 0)]).
Proof. reflexivity. Qed.

Lemma to_json_shapes_witness :
  exists json,
    fst (to_json table_ab1 (DArtifact 0)) = Ok json
    /\ dict_get json (KStr "_type") = Some (VStr "table")
    /\ dict_get json (KStr "nrows") = Some (VInt 1)
    /\ dict_get json (KStr "data") = Some (VList [VList [VInt 1; VStr "x"]]).
Proof.
  assert (B : Media_to_json TableClass (media table_ab1) (DArtifact 0) = Ok [])
    by reflexivity.
  destruct (proj1 (proj2 (to_json_shapes table_ab1)) 0 []
              [[VInt 1; VStr "x"]] (Ty_to_json ab_types) B)
    as (json & E & T & _ & D & _ & N & _).
  - intros s [E|[E|[]]]; inversion E; reflexivity.
  - reflexivity.
  - reflexivity.
  - exists json. auto.
Defined.

Lemma to_json_period_guard_witness :
  (exists e, to_json table_period (DArtifact 0)
             = (Raise e, [EvMediaToJson (DArtifact 0)]))
  /\ exists json, to_json table_period_bound (DRun 7)
                  = (Ok json, [EvMediaToJson (DRun 7)]).
Proof.
  split.
  - destruct (proj1 (to_json_period_guard table_period "a.b"
                       (or_introl eq_refl) eq_refl) 0) as (e & E & _).
    exists e. exact E.
  - eexists.
    exact (proj2 (to_json_period_guard table_period_bound "a.b"
                    (or_introl eq_refl) eq_refl) 7 _ eq_refl).
Defined.



(** A dictionary in a cell is read back through [WBValue.init_from_json],
    which looks for its "_type": a dictionary of plain values has none, and a
    dictionary holding a rich value is serialized by [json_helper], which
    goes into dictionaries, to one that has none either.  Reading either
    back raises KeyError. *)
Lemma roundtrip_dict_cell_raises :
  roundtrip table_dict_cell 0 = Raise (KeyError (KStr "_type"))
  /\ roundtrip table_nested 0 = Raise (KeyError (KStr "_type")).
Proof. split; reflexivity. Qed.

(** [from_json] hands the rows to the constructor, which types the columns
    afresh from the rows, before it sets the column types of the JSON: the
    table whose column takes numbers and strings is built and serialized,
    and reading it back raises the TypeError of [add_data], on its second
    row. *)
Lemma roundtrip_revalidates_rows :
  _init_from_list [[VInt 1]; [VStr "x"]] [KStr "a"] (One false)
    (Some (One (inl number_or_string)))
    (mkTable [] [] EmptyDictType Media_init)
  = (Ok tt, table_union)
  /\ (exists json, fst (to_json table_union (DArtifact 0)) = Ok json)
  /\ roundtrip table_union 0 = Raise (TypeError (MsgIncompatibleRow "a")).
Proof. split; [reflexivity|]. split; [eexists|]; reflexivity. Qed.





(** C4: two parts with the same columns, none in memory at the start.
    When [get_part] has fetched the second part (the fifth step), the
    generator still refers to the first, which it has walked and freed: two
    parts are in memory.  And on the table that an iteration given up at its
    third row has left, the second part is in memory when a new iteration
    loads the first. *)
Lemma iterrows_holds_two_parts :
  loaded parts_01 = []
  /\ columns part_0 = columns part_1
  /\ nth_error (memory_along demo_artifact_get 10 parts_01 (iterrows parts_01)
                             None) 4
     = Some ([KStr "parts/0"; KStr "parts/1"], [KStr "parts/1"])
  /\ loaded parts_01_given_up = [KStr "parts/1"]
  /\ loaded (fst (snd (run demo_artifact_get 1 parts_01_given_up
                           (iterrows parts_01_given_up))))
     = [KStr "parts/0"; KStr "parts/1"].
Proof. repeat split. Qed.

Lemma iterrows_continuous_witness :
  (exists g,
      run demo_artifact_get 10 parts_01 (iterrows parts_01)
      = ([PLoad (KStr "parts/0");
          PYield 0 [VInt 1; VStr "x"];
          PYield 1 [VInt 2; VStr "y"];
          PFree (KStr "parts/0");
          PLoad (KStr "parts/1");
          PYield 2 [VInt 3; VStr "z"];
          PFree (KStr "parts/1");
          PStop], (parts_01, g))
      /\ gen_ctrl g = Finished)
  /\ (forall fuel,
         length (loaded (fst (snd (run demo_artifact_get fuel parts_01
                                       (iterrows parts_01))))) <= 1)
  /\ (forall fuel,
         Forall (fun m => length (fst m) <= 2 /\ length (snd m) <= 1)
                (memory_along demo_artifact_get fuel parts_01
                              (iterrows parts_01) None))
  /\ exists evs self' g,
      run demo_artifact_get 10 parts_01_given_up (iterrows parts_01_given_up)
      = (evs ++ [PStop], (self', g))
      /\ yields (evs ++ [PStop])
         = [(0%Z, [VInt 1; VStr "x"]); (1%Z, [VInt 2; VStr "y"]);
            (2%Z, [VInt 3; VStr "z"])].
Proof.
  assert (N : NoDup (map fst (_loaded_part_entries parts_01))).
  { simpl. repeat constructor; simpl; intuition discriminate. }
  assert (A : all_unloaded (_loaded_part_entries parts_01)).
  { intros kv [<-|[<-|[]]]; reflexivity. }
  assert (F : Forall2 (fun kv tbl => current_part demo_artifact_get (snd kv)
                                     = Some tbl)
                      (_loaded_part_entries parts_01) [part_0; part_1]).
  { repeat constructor. }
  assert (C : forall tbl, In tbl [part_0; part_1] -> columns tbl = [KStr "a"; KStr "b"]).
  { intros tbl [<-|[<-|[]]]; reflexivity. }
  destruct (iterrows_continuous demo_artifact_get parts_01 N F C)
    as (_ & _ & Fresh).
  destruct (Fresh A) as (R & L & M).
  split; [|split; [exact L|split; [exact M|]]].
  - destruct (R 10) as (g & E & Fin); [simpl; lia|].
    exists g. split; [exact E | exact Fin].
  - assert (N' : NoDup (map fst (_loaded_part_entries parts_01_given_up))).
    { simpl. repeat constructor; simpl; intuition discriminate. }
    assert (F' : Forall2 (fun kv tbl => current_part demo_artifact_get (snd kv)
                                        = Some tbl)
                         (_loaded_part_entries parts_01_given_up)
                         [part_0; part_1]).
    { repeat constructor. }
    destruct (iterrows_continuous demo_artifact_get parts_01_given_up N' F' C)
      as (Any & _ & _).
    destruct (Any 10) as (evs & self' & g & E & _ & Y); [simpl; lia|].
    exists evs, self', g. split; [exact E | exact Y].
Defined.

Lemma iterrows_mismatch_witness :
  exists evs self' g,
    run demo_artifact_get 10 parts_0_swapped (iterrows parts_0_swapped)
    = (evs ++ [PRaise (ValueError (MsgNonMatchingColumns (columns part_0)
                                                         (columns part_swapped)))],
       (self', g))
    /\ yields evs = [(0%Z, [VInt 1; VStr "x"]); (1%Z, [VInt 2; VStr "y"])].
Proof.
  destruct (@iterrows_mismatch _ _ demo_artifact_get parts_0_swapped
              (KStr "parts/0") (KStr "parts/swapped") part_0 part_swapped [] [])
    with (fuel := 10) as (evs & self' & g & R & _ & Y).
  - reflexivity.
  - simpl. repeat constructor; simpl; intuition discriminate.
  - repeat constructor. eexists. split; reflexivity.
  - eexists. split; reflexivity.
  - intros kt [].
  - discriminate.
  - simpl. lia.
  - exists evs, self', g. split; [exact R | exact Y].
Defined.

(** C5.  [Table.bind_to_run] called twice with the same run, key and step:
    the second call, on the table the first one has bound, takes a new
    identifier, writes the payload to a second file, sets it as the table's
    file and calls [Media.bind_to_run] again; [Graph.bind_to_run] on a bound
    graph also writes and sets a second file and only then returns. *)
Theorem bind_to_run_twice_restages :
  let '(r1, s1) := Table_bind_to_run 7 "k" 0 (table_ab1, mkWorld [] 0) in
  let '(r2, s2) := Table_bind_to_run 7 "k" 0 s1 in
  r1 = Ok tt /\ is_bound (media (fst s1)) = true /\ r2 = Ok tt
  /\ trace (snd s2)
     = trace (snd s1)
       ++ [EvGenerateId 1;
           EvJsonDump "/tmp/wandb-media/xx.table.json" (table_payload table_ab1);
           EvSetFile "/tmp/wandb-media/xx.table.json";
           EvMediaBind 7 "k" 0]
  /\ let '(g1, w1) := Graph_bind_to_run 7 "k" 0 (graph_one, mkWorld [] 0) in
     let '(g2, w2) := Graph_bind_to_run 7 "k" 0 w1 in
     g1 = Ok tt /\ is_bound (graph_media (fst w1)) = true /\ g2 = Ok tt
     /\ trace (snd w2)
        = trace (snd w1)
          ++ [EvGenerateId 1;
              EvJsonDump "/tmp/wandb-media/xx.graph.json"
                         (numpy_arrays_to_lists (_to_graph_json graph_one));
              EvSetFile "/tmp/wandb-media/xx.graph.json"].
Proof. vm_compute. repeat split. Qed.

(** * The further properties on concrete tables *)

Lemma mutators_keep_shape_witness :
  well_shaped (snd (add_data [VInt 2; VStr "y"] table_ab1))
  /\ well_shaped (snd (add_data [VInt 2] table_ab1))
  /\ well_shaped (snd (cast (KStr "a") (inl (TPrimitive PNumber)) false table_ab1))
  /\ well_shaped (fst (snd (Table_bind_to_run 7 "k" 0 (table_ab1, mkWorld [] 0)))).
Proof.
  assert (WS : well_shaped table_ab1) by (intros row [<-|[]]; reflexivity).
  destruct (@mutators_keep_shape _ _ _ _ _ table_ab1 WS) as (A & C & B).
  split; [exact (proj1 (A [VInt 2; VStr "y"]))|].
  split; [exact (proj1 (A [VInt 2]))|].
  split; [exact (proj1 (C (KStr "a") (inl (TPrimitive PNumber)) false))|].
  exact (proj1 (B 7 "k" 0%Z (mkWorld [] 0))).
Defined.

Lemma Table_new_shape_witness :
  Table_new [KStr "a"; KStr "b"] [[VInt 1; VStr "x"]] = Ok table_ab1
  /\ well_shaped table_ab1
  /\ exists e, @Table_new Ty MediaState _ _ [KStr "a"; KStr "b"]
                 [[VInt 1; VStr "x"]; [VInt 2]] = Raise e.
Proof.
  split; [reflexivity|]. split.
  - exact (proj2 (proj2 (proj1 (Table_new_shape [KStr "a"; KStr "b"]
                                  [[VInt 1; VStr "x"]]) table_ab1 eq_refl))).
  - apply (proj2 (Table_new_shape [KStr "a"; KStr "b"]
                    [[VInt 1; VStr "x"]; [VInt 2]]) [VInt 2]).
    + right. now left.
    + discriminate.
Defined.

Lemma cast_commits_witness :
  cast (KStr "zz") (inl (TPrimitive PNumber)) false table_ab1
  = (Raise (ValueError (MsgNotInList (KStr "zz"))), table_ab1)
  /\ cast (KStr "a") (inl (TPrimitive PNumber)) false table_ab1
     = (Ok (TPrimitive PNumber),
        mkTable [KStr "a"; KStr "b"] [[VInt 1; VStr "x"]]
          (TRecord [(KStr "a", TPrimitive PNumber);
                    (KStr "b", TOptional (TPrimitive PString))])
          fresh_media).
Proof.
  split.
  - exact (proj1 (@cast_commits Ty MediaState spec_dtypes table_ab1 (KStr "zz")
                    (inl (TPrimitive PNumber)) false (TPrimitive PNumber) eq_refl)
                 eq_refl).
  - apply (proj2 (@cast_commits Ty MediaState spec_dtypes table_ab1 (KStr "a")
                    (inl (TPrimitive PNumber)) false (TPrimitive PNumber) eq_refl)
                 0).
    + intros row [<-|[]]. reflexivity.
    + reflexivity.
    + intros [|[|k]] v E; simpl in E; try discriminate.
      inversion E; subst. reflexivity.
    + reflexivity.
Defined.


Lemma from_json_shape_witness :
  @from_json Ty MediaState _ _ _ [] 0 = Raise (KeyError (KStr "data"))
  /\ @from_json Ty MediaState _ _ _ [(KStr "data", VList [])] 0
     = Raise (KeyError (KStr "columns"))
  /\ well_shaped table_ab1
  /\ from_json [(KStr "data", VList [VList [VInt 1; VInt 2; VInt 3]]);
                (KStr "columns", VNone)] 0 = Ok table_default
  /\ columns table_default = default_columns
  /\ well_shaped table_default.
Proof.
  split; [|split; [|split; [|split; [reflexivity|]]]].
  4:{ assert (R : from_json [(KStr "data", VList [VList [VInt 1; VInt 2; VInt 3]]);
                             (KStr "columns", VNone)] 0 = Ok table_default)
        by reflexivity.
      destruct (proj2 (proj2 (@from_json_shape Ty MediaState spec_dtypes
                                spec_media spec_collaborators
                                [(KStr "data", VList [VList [VInt 1; VInt 2; VInt 3]]);
                                 (KStr "columns", VNone)] 0))
                      table_default R) as (W & [L|[_ Dc]] & _);
        [discriminate | split; [exact Dc | exact W]]. }
  - exact (proj1 (@from_json_shape Ty MediaState _ _ _ [] 0) eq_refl).
  - exact (proj1 (proj2 (@from_json_shape Ty MediaState _ _ _
                           [(KStr "data", VList [])] 0))
                 (VList []) [] [] eq_refl eq_refl eq_refl eq_refl).
  - exact (proj1 (proj2 (proj2 (@from_json_shape Ty MediaState _ _ _
                                  [(KStr "data", VList [VList [VInt 1; VStr "x"]]);
                                   (KStr "columns", VList [VStr "a"; VStr "b"])] 0))
                        table_ab1 eq_refl)).
Defined.

(** A table read back from JSON whose "column_types" say that column "a"
    holds strings although its row holds a number: [from_json] returns it. *)
Lemma from_json_column_types_witness :
  Table_new [KStr "a"; KStr "b"] [[VInt 1; VStr "x"]] = Ok table_ab1
  /\ exists t : STable,
      from_json [(KStr "data", VList [VList [VInt 1; VStr "x"]]);
                 (KStr "columns", VList [VStr "a"; VStr "b"]);
                 (KStr "column_types",
                  Ty_to_json (TRecord [(KStr "a", TPrimitive PString);
                                       (KStr "b", TPrimitive PString)]))] 0
      = Ok t
      /\ _column_types t = TRecord [(KStr "a", TPrimitive PString);
                                    (KStr "b", TPrimitive PString)]
      /\ data t = [[VInt 1; VStr "x"]]
      /\ exists e, add_data [VInt 1; VStr "x"] t = (Raise e, t).
Proof.
  split.
  - exact (@from_json_column_types Ty MediaState _ _ _
             [(KStr "data", VList [VList [VInt 1; VStr "x"]]);
              (KStr "columns", VList [VStr "a"; VStr "b"])] 0 table_ab1 eq_refl).
  - eexists. split; [reflexivity|]. split; [reflexivity|].
    split; [reflexivity|]. eexists. reflexivity.
Defined.

Lemma from_json_then_iterrows_witness :
  exists g,
    run demo_artifact_get 8 parts_01 (iterrows parts_01)
    = ([PLoad (KStr "parts/0");
        PYield 0 [VInt 1; VStr "x"];
        PYield 1 [VInt 2; VStr "y"];
        PFree (KStr "parts/0");
        PLoad (KStr "parts/1");
        PYield 2 [VInt 3; VStr "z"];
        PFree (KStr "parts/1");
        PStop], (parts_01, g))
    /\ gen_ctrl g = Finished.
Proof.
  destruct (@from_json_then_iterrows _ _ demo_artifact_get "parts"
              ["parts/0"; "parts/1"] 0 [part_0; part_1] [KStr "a"; KStr "b"])
    with (fuel := 8) as (g & R & Fin & _).
  - repeat constructor; simpl; intuition discriminate.
  - repeat constructor.
  - simpl. lia.
  - exists g. split; [exact R | exact Fin].
Defined.

Lemma mismatch_leaves_part_loaded_witness :
  loaded (fst (snd (run demo_artifact_get 10 parts_0_swapped
                        (iterrows parts_0_swapped))))
  = [KStr "parts/swapped"].
Proof.
  apply (@mismatch_leaves_part_loaded _ _ demo_artifact_get parts_0_swapped
           (KStr "parts/0") (KStr "parts/swapped") part_0 part_swapped [] []).
  - reflexivity.
  - intros kv [<-|[<-|[]]]; reflexivity.
  - repeat constructor. eexists. repeat split; reflexivity.
  - eexists. repeat split; reflexivity.
  - intros kt [].
  - discriminate.
  - simpl. lia.
Defined.

Lemma stale_part_stays_loaded_witness :
  let self := mkPartitionedTable "parts"
                [(KStr "parts/0", mkPartEntry "parts/0" 0 None);
                 (KStr "parts/swapped",
                  mkPartEntry "parts/swapped" 0 (Some part_swapped))] in
  loaded (fst (snd (run demo_artifact_get 1 self (iterrows self))))
  = [KStr "parts/0"; KStr "parts/swapped"].
Proof.
  cbv zeta.
  apply (@stale_part_stays_loaded _ _ demo_artifact_get
           (mkPartitionedTable "parts"
              [(KStr "parts/0", mkPartEntry "parts/0" 0 None);
               (KStr "parts/swapped",
                mkPartEntry "parts/swapped" 0 (Some part_swapped))])
           (KStr "parts/0") [KStr "parts/swapped"] part_0).
  - reflexivity.
  - eexists. repeat split; reflexivity.
Defined.

Lemma iterrows_missing_part_witness :
  let self : @PartitionedTable Ty MediaState :=
    PartitionedTable_from_json "parts" ["parts/0"; "parts/missing"] 0 in
  exists evs self' g,
    run demo_artifact_get 10 self (iterrows self)
    = (evs ++ [PRaise (AttributeError "columns")], (self', g))
    /\ yields evs = [(0%Z, [VInt 1; VStr "x"]); (1%Z, [VInt 2; VStr "y"])].
Proof.
  cbv zeta.
  destruct (@iterrows_missing_part _ _ demo_artifact_get
              (PartitionedTable_from_json "parts" ["parts/0"; "parts/missing"] 0)
              [(KStr "parts/0", part_0)] (KStr "parts/missing") []
              [KStr "a"; KStr "b"] (mkPartEntry "parts/missing" 0 None))
    with (fuel := 10) as (evs & self' & g & R & _ & Y & _).
  - reflexivity.
  - simpl. repeat constructor; simpl; intuition discriminate.
  - repeat constructor. eexists. split; reflexivity.
  - reflexivity.
  - reflexivity.
  - simpl. lia.
  - exists evs, self', g. split; [exact R | exact Y].
Defined.

#[local] Existing Instance SpecEnvironment.spec_environment.

Import SpecEnvironment.

Lemma Audio_captions_cases_witness :
  Audio.captions [clip_plain; clip_plain] = VBool false
  /\ Audio.captions [clip_plain; clip_titled] = VList [VStr ""; VStr "bird"].
Proof.
  split.
  - apply (proj1 (Audio_captions_cases [clip_plain; clip_plain])).
    repeat constructor.
  - destruct (proj2 (Audio_captions_cases [clip_plain; clip_titled]))
      as (l & E & _).
    + apply Exists_cons_tl, Exists_cons_hd. discriminate.
    + rewrite E. simpl in E. inversion E. reflexivity.
Defined.

Lemma Audio_seq_to_json_meta_witness :
  exists meta,
    Audio.seq_to_json [clip_plain; clip_plain] 7 (KStr "sound") (VInt 0) = Ok meta
    /\ dict_get meta (KStr "count") = Some (VInt 2)
    /\ dict_get meta (KStr "sampleRates") = Some (VList [VInt 44100; VInt 44100])
    /\ dict_get meta (KStr "durations") = Some (VList [VNone; VNone])
    /\ dict_get meta (KStr "captions") = None.
Proof.
  destruct (@Audio_seq_to_json_meta MediaState spec_environment [clip_plain; clip_plain] 7 (KStr "sound")
              (VInt 0) _ eq_refl eq_refl eq_refl)
    as (meta & E & _ & C & _ & _ & S & D & Cap).
  exists meta. auto.
Defined.

Lemma Image_to_json_destinations_witness :
  Image.to_json image_masked (DArtifact 0)
  = Raise (ValueError Image.MsgClassesMustBePassed)
  /\ Image.to_json image_masked (DOther 0) = Raise (ValueError MsgToJsonAccepts)
  /\ exists json,
      Image.to_json image_masked (DRun 7) = Ok json
      /\ dict_get json (KStr "_type") = Some (VStr "image-file").
Proof.
  destruct (@Image_to_json_destinations MediaState spec_environment image_masked) as (A & O & R).
  split; [|split].
  - apply (A 0 [(KStr "path", VStr "media/images/c.png")] eq_refl eq_refl).
    left. discriminate.
  - exact (O 0 [(KStr "path", VStr "media/images/c.png")] eq_refl).
  - eexists. split; [reflexivity|].
    exact (proj1 (R (DRun 7) _ eq_refl)).
Defined.

Lemma Image_groups_aligned_witness :
  Image.all_masks [image_plain; image_titled] 7 (KStr "img") (VInt 0)
  = Ok (VBool false)
  /\ exists g,
      Image.all_masks [image_plain; image_masked] 7 (KStr "img") (VInt 0)
      = Ok (VList [VNone; VDict [(KStr "ground_truth", g)]]).
Proof.
  split.
  - destruct (proj1 (@Image_groups_aligned MediaState spec_environment [image_plain; image_titled] 7
                       (KStr "img") (VInt 0)) (VBool false) eq_refl)
      as [[E _]|(groups & E & _)]; [reflexivity | discriminate].
  - destruct (proj1 (@Image_groups_aligned MediaState spec_environment [image_plain; image_masked] 7
                       (KStr "img") (VInt 0))
                    (VList [VNone;
                            VDict [(KStr "ground_truth",
                                    VDict [(KStr "path", VStr "media/images/mask/m.png");
                                           (KStr "_type", VStr "mask")])]])
                    eq_refl)
      as [[E _]|(groups & E & _)]; [discriminate|].
    eexists. reflexivity.
Defined.

Lemma Image_seq_to_json_meta_witness :
  (exists e,
      Image.seq_to_json [image_plain; image_elsewhere] 7 (KStr "img") (VInt 0)
      = (Raise e, []))
  /\ exists meta,
      Image.seq_to_json [image_plain; image_wide; image_titled] 7 (KStr "img")
                        (VInt 0)
      = (Ok meta, [WarnImageSizes])
      /\ dict_get meta (KStr "count") = Some (VInt 3)
      /\ dict_get meta (KStr "width") = Some (VInt 4)
      /\ dict_get meta (KStr "captions") = None.
Proof.
  split.
  - destruct (@Image_seq_to_json_meta MediaState spec_environment [image_plain; image_elsewhere] 7
                (KStr "img") (VInt 0)) as (_ & P & _).
    apply (P _ [(KStr "path", VStr "tmp/e.png");
                (KStr "_type", VStr "image-file");
                (KStr "format", VStr "png");
                (KStr "width", VInt 4); (KStr "height", VInt 3)]
             "tmp/e.png" eq_refl).
    + right. now left.
    + reflexivity.
    + reflexivity.
  - destruct (@Image_seq_to_json_meta MediaState spec_environment [image_plain; image_wide; image_titled] 7
                (KStr "img") (VInt 0)) as (_ & _ & S).
    destruct (S image_plain [image_wide; image_titled] _ (VBool false) (VBool false)
                eq_refl eq_refl)
      as (meta & E & _ & C & W & _ & _ & Cap).
    + intros obj [<-|[<-|[<-|[]]]]; reflexivity.
    + reflexivity.
    + reflexivity.
    + exists meta. auto.
Defined.

#[local] Existing Instance SpecLogging.spec_logging.

Import SpecLogging.

Lemma prune_max_seq_prefix_witness :
  prune_max_seq [VRich 1; VRich 2; VRich 3] empty_state
  = (Ok [VRich 1; VRich 2], (mkSpecStore [] [], [WarnOnlyUploaded 2 "Pair"]))
  /\ prune_max_seq [VRich 100; VRich 101; VRich 102] empty_state
     = (Ok [VRich 100; VRich 101; VRich 102], empty_state)
  /\ prune_max_seq [] empty_state = (Raise IndexError, empty_state).
Proof.
  split; [|split].
  - destruct (@prune_max_seq_prefix SpecStore spec_logging
                [VRich 1; VRich 2; VRich 3] empty_state) as [_ P].
    destruct P as (items & logged & E & _ & _ & _ & Cut); [discriminate|].
    destruct (Cut 1 2%Z (or_introl eq_refl) eq_refl) as (_ & Warn & First).
    destruct Warn as [_ L]; [simpl; lia|].
    destruct First as [I _]; [simpl; lia|].
    rewrite E, I, L. reflexivity.
  - destruct (@prune_max_seq_prefix SpecStore spec_logging
                [VRich 100; VRich 101; VRich 102] empty_state) as [_ P].
    destruct P as (items & logged & E & _ & _ & Whole & _); [discriminate|].
    destruct Whole as [I L].
    { intros h [Eq|Eq]; inversion Eq; reflexivity. }
    rewrite E, I, L. reflexivity.
  - exact (proj1 (@prune_max_seq_prefix SpecStore spec_logging [] empty_state)
                 eq_refl).
Defined.

Lemma val_to_json_plain_witness :
  val_to_json 7 (KStr "loss") (VInt 3) VNone empty_state
  = (Raise (ValueError MsgNamespace), empty_state)
  /\ val_to_json 7 (KStr "loss") (VInt 3) (VInt 0) empty_state
     = (Ok (VInt 3), empty_state)
  /\ val_to_json 7 (KStr "mixed") (VList [VRich 200; VInt 1]) (VInt 0) empty_state
     = (Ok (VList [VRich 200; VInt 1]), empty_state)
  /\ val_to_json 7 (KStr "note") (VStr "") (VInt 0) empty_state
     = (Ok (VList []), empty_state).
Proof.
  split; [|split; [|split]].
  - exact (proj1 (@val_to_json_plain SpecStore spec_logging 7 (KStr "loss")
                    (VInt 3) VNone empty_state) eq_refl).
  - apply (proj2 (@val_to_json_plain SpecStore spec_logging 7 (KStr "loss")
                    (VInt 3) (VInt 0) empty_state));
      [discriminate | repeat split | reflexivity | reflexivity].
  - apply (proj2 (@val_to_json_plain SpecStore spec_logging 7 (KStr "mixed")
                    (VList [VRich 200; VInt 1]) (VInt 0) empty_state))
      with (vals := [VRich 200; VInt 1]) (v := VInt 1);
      [discriminate | repeat split | reflexivity | right; now left | reflexivity].
  - apply (proj2 (@val_to_json_plain SpecStore spec_logging 7 (KStr "note")
                    (VStr "") (VInt 0) empty_state));
      [discriminate | repeat split | reflexivity].
Defined.

Lemma val_to_json_binds_once_witness :
  let '(r1, s1) := val_to_json 7 (KStr "t") (VRich 200) (VInt 0) empty_state in
  let '(r2, s2) := val_to_json 7 (KStr "t") (VRich 200) (VInt 0) s1 in
  calls (fst s1) = [CallBind 200 None; CallToJson 200]
  /\ calls (fst s2) = [CallBind 200 None; CallToJson 200; CallToJson 200].
Proof.
  destruct (@val_to_json_binds_once SpecStore spec_logging 7 (KStr "t") 200
              (VInt 0) empty_state) as (_ & First & Again);
    [discriminate | repeat split|].
  specialize (First eq_refl).
  destruct (val_to_json 7 (KStr "t") (VRich 200) (VInt 0) empty_state)
    as [r1 s1] eqn:E1.
  assert (R1 : r1 = Ok (VDict [(KStr "_type", VStr "rich"); (KStr "id", VInt 200)])
               /\ s1 = (mkSpecStore [200] [CallBind 200 None; CallToJson 200], []))
    by (inversion First; auto).
  destruct R1 as [-> ->].
  assert (Binds : forall st st',
             rich_bind_to_run 200 7 (KStr "t") (VInt 0) None st = (Ok tt, st') ->
             rich_is_bound 200 st' = true)
    by (intros st st' E; inversion E; reflexivity).
  rewrite (Again Binds (fun st B => B) _ _ eq_refl eq_refl).
  split; reflexivity.
Defined.

Lemma history_dict_to_json_keys_witness :
  history_dict_to_json 7 [(KStr "loss", VInt 3)] VNone empty_state
  = (Raise (KeyError (KStr "_step")), empty_state)
  /\ exists payload' s',
      history_dict_to_json 7 [(KStr "_step", VInt 0);
                              (KStr "table", VRich 200);
                              (KStr "nested", VDict [(KStr "a", VStr "")])]
                           VNone empty_state
      = (Ok payload', s')
      /\ map fst payload' = [KStr "_step"; KStr "table"; KStr "nested"].
Proof.
  split.
  - exact (proj1 (@history_dict_to_json_keys SpecStore spec_logging 7
                    [(KStr "loss", VInt 3)] VNone empty_state) eq_refl eq_refl).
  - do 2 eexists. split; [reflexivity|].
    exact (proj1 (proj2 (@history_dict_to_json_keys SpecStore spec_logging 7
                           [(KStr "_step", VInt 0);
                            (KStr "table", VRich 200);
                            (KStr "nested", VDict [(KStr "a", VStr "")])]
                           VNone empty_state) _ _ eq_refl)).
Defined.

Lemma history_dict_to_json_plain_witness :
  history_dict_to_json 7 [(KStr "_step", VInt 0);
                          (KStr "loss", VInt 3);
                          (KStr "nested", VDict [(KStr "a", VStr "x")])]
                       VNone empty_state
  = (Ok [(KStr "_step", VInt 0);
         (KStr "loss", VInt 3);
         (KStr "nested", VDict [(KStr "a", VStr "x")])], empty_state).
Proof.
  apply (@history_dict_to_json_plain SpecStore spec_logging 7 _ VNone (VInt 0)).
  - reflexivity.
  - discriminate.
  - reflexivity.
Defined.

Lemma val_to_json_batch_witness :
  val_to_json 7 (KStr "pairs") (VList [VRich 1; VRich 2; VRich 3]) (VInt 0)
              empty_state
  = (Ok (VDict [(KStr "count", VInt 2)]),
     (mkSpecStore [2; 1]
        [CallBind 1 (Some 0%Z); CallBind 2 (Some 1%Z); CallSeqToJson 1 2],
      [WarnOnlyUploaded 2 "Pair"])).
Proof.
  refine (eq_trans
            (@val_to_json_batch SpecStore spec_logging 7 (KStr "pairs") 1 [2; 3]
               (VInt 0) 2%Z empty_state _ _ _ _ _ _) _).
  - discriminate.
  - repeat split.
  - reflexivity.
  - repeat constructor.
  - reflexivity.
  - lia.
  - reflexivity.
Defined.

Lemma Classes_round_trip_witness :
  let class_set := VList [VDict [(KStr "id", VInt 1); (KStr "name", VStr "cat")]] in
  exists c : @Classes.Classes MediaState,
    Classes.new class_set = Ok c
    /\ Classes.from_json [(KStr "_type", VStr "classes");
                          (KStr "class_set", class_set)] 0 = Ok c
    /\ (exists m, @Classes.from_json MediaState _ [] 0 = Raise (TypeError m))
    /\ exists e, @Classes.new MediaState _
                   (VList [VDict [(KStr "id", VInt 1)]]) = Raise e.
Proof.
  cbv zeta. eexists. split; [reflexivity|].
  destruct (@Classes_round_trip MediaState spec_environment
              (VList [VDict [(KStr "id", VInt 1); (KStr "name", VStr "cat")]]) 0)
    as [R E].
  split; [|split].
  - exact (proj1 (proj2 (proj2 (proj2 (R _ eq_refl))))).
  - exact (E [] eq_refl).
  - eexists. reflexivity.
Defined.

Lemma numpy_arrays_to_lists_builtin_witness :
  table_payload table_ab1
  = VDict [(KStr "columns", VList [VStr "a"; VStr "b"]);
           (KStr "data", VList [VList [VInt 1; VStr "x"]])].
Proof.
  refine (eq_trans (proj2 (numpy_arrays_to_lists_builtin table_ab1) _) _).
  - repeat constructor.
  - reflexivity.
Defined.


Lemma add_data_in_sequence_witness :
  for_each [[VInt 1; VStr "x"]; [VInt 2]; [VInt 3; VStr "z"]] add_data table_ab
  = (Raise (ValueError (MsgExpectsColumns 2 [KStr "a"; KStr "b"])), table_ab1)
  /\ exists pre bad post,
      [[VInt 1; VStr "x"]; [VInt 2]; [VInt 3; VStr "z"]] = pre ++ bad :: post
      /\ table_ab1 = mkTable (columns table_ab) (data table_ab ++ pre)
                       (fold_left (narrowed (columns table_ab)) pre
                                  (_column_types table_ab))
                       (media table_ab).
Proof.
  assert (R : for_each [[VInt 1; VStr "x"]; [VInt 2]; [VInt 3; VStr "z"]]
                       add_data table_ab
              = (Raise (ValueError (MsgExpectsColumns 2 [KStr "a"; KStr "b"])),
                 table_ab1)) by reflexivity.
  split; [exact R|].
  destruct (proj2 (add_data_in_sequence
                     [[VInt 1; VStr "x"]; [VInt 2]; [VInt 3; VStr "z"]] table_ab)
                  _ _ R)
    as (pre & bad & post & Er & Et & _).
  exists pre, bad, post. split; [exact Er | exact Et].
Defined.

Lemma to_json_serializes_cells_witness :
  snd (to_json table_nested (DArtifact 0))
  = [EvMediaToJson (DArtifact 0); EvValueToJson 5 0; EvTypeToJson 0]
  /\ snd (to_json (mkTable [KStr "c"] [[VList [VRich 5]]]
                     (TRecord [(KStr "c", TOptional TUnknown)]) fresh_media)
                  (DArtifact 0))
     = [EvMediaToJson (DArtifact 0); EvTypeToJson 0].
Proof.
  split.
  - assert (E : exists json, fst (to_json table_nested (DArtifact 0)) = Ok json)
      by (eexists; reflexivity).
    destruct E as [json E].
    rewrite (to_json_serializes_cells table_nested 0 E). reflexivity.
  - assert (E : exists json,
               fst (to_json (mkTable [KStr "c"] [[VList [VRich 5]]]
                               (TRecord [(KStr "c", TOptional TUnknown)])
                               fresh_media)
                            (DArtifact 0)) = Ok json)
      by (eexists; reflexivity).
    destruct E as [json E].
    rewrite (to_json_serializes_cells _ 0 E). reflexivity.
Defined.
